(** * Health monitoring engine of [scripts/monitoring/health-check.py]

    A shallow embedding of the [HealthChecker] class: the remote command
    runner, the seven metric collectors, the threshold evaluation inside
    [check_server], the per-run loop [run_checks], the snapshot store
    [save_results] and the scheduler [run_continuous], followed by the
    properties of the specification that concern them.

    Python strings are modelled by [string] (sequences of 8-bit characters),
    Python [int] by [Z], Python [float] by the primitive binary64 floats,
    dictionaries with a fixed set of keys by records, the [metrics]
    dictionary (filled key by key) and the history directory by [gmap].
    The servers of the inventory are mappings with text values, as the
    methods annotate them; a file holds a whole record or, after a write
    that failed, a part of one. *)

From Stdlib Require Import ZArith QArith Qround Ascii String List Bool Lia.
From Stdlib Require Import PrimFloat SpecFloat FloatOps.
From stdpp Require Import base option list sorting gmap strings.

Local Open Scope string_scope.
Local Open Scope Z_scope.

(** ** Python string primitives *)

Module PyStr.

(** [str.isspace] on one character, restricted to code points below 128:
    tab, line feed, vertical tab, form feed, carriage return, the four
    separators 0x1c-0x1f and the space. *)
Definition is_space (c : ascii) : bool :=
  let n := N_of_ascii c in
  ((9 <=? n) && (n <=? 13) || (28 <=? n) && (n <=? 32))%N.

Definition is_digit (c : ascii) : bool :=
  let n := N_of_ascii c in ((48 <=? n) && (n <=? 57))%N.

Definition digit_val (c : ascii) : Z := Z.of_N (N_of_ascii c) - 48.

(** [not s] for a string: true exactly on the empty string. *)
Definition is_empty (s : string) : bool :=
  match s with EmptyString => true | String _ _ => false end.

Fixpoint lstrip (s : string) : string :=
  match s with
  | String c s' => if is_space c then lstrip s' else s
  | EmptyString => EmptyString
  end.

(** Removes the trailing characters that satisfy [p]. *)
Fixpoint rstrip_with (p : ascii -> bool) (s : string) : string :=
  match s with
  | EmptyString => EmptyString
  | String c s' =>
      match rstrip_with p s' with
      | EmptyString => if p c then EmptyString else String c EmptyString
      | t => String c t
      end
  end.

(** [s.strip()] *)
Definition strip (s : string) : string := rstrip_with is_space (lstrip s).

(** [s.rstrip(c)] for a one-character argument. *)
Definition rstrip_char (c : ascii) (s : string) : string :=
  rstrip_with (Ascii.eqb c) s.

(** [c in s] for a one-character needle. *)
Fixpoint contains (c : ascii) (s : string) : bool :=
  match s with
  | EmptyString => false
  | String d s' => Ascii.eqb c d || contains c s'
  end.

(** [s.split(sep)] for a one-character separator: empty fields are kept,
    and the empty string gives one empty field. *)
Fixpoint split_on (sep : ascii) (s : string) : list string :=
  match s with
  | EmptyString => [EmptyString]
  | String c s' =>
      if Ascii.eqb c sep then EmptyString :: split_on sep s'
      else match split_on sep s' with
           | w :: ws => String c w :: ws
           | [] => [String c EmptyString]
           end
  end.

Definition cons_word (w : string) (ws : list string) : list string :=
  if is_empty w then ws else w :: ws.

(** The word that starts at the head of [s] (empty when [s] starts with
    white space) and the words after it. *)
Fixpoint words (s : string) : string * list string :=
  match s with
  | EmptyString => (EmptyString, [])
  | String c s' =>
      let (w, ws) := words s' in
      if is_space c then (EmptyString, cons_word w ws) else (String c w, ws)
  end.

(** [s.split()]: the maximal runs of non-space characters. *)
Definition split (s : string) : list string :=
  let (w, ws) := words s in cons_word w ws.

(** Digits with single underscores between them, as [int] and [float]
    accept them: the value read so far and the number of digits.
    [after_digit] tells whether the previous character was a digit. *)
Fixpoint digit_run (after_digit : bool) (acc : Z) (n : nat) (s : string)
  : option (Z * nat) :=
  match s with
  | EmptyString => if after_digit then Some (acc, n) else None
  | String c s' =>
      if is_digit c then digit_run true (10 * acc + digit_val c) (S n) s'
      else if Ascii.eqb c "_" && after_digit then digit_run false acc n s'
      else None
  end.

Definition split_sign (s : string) : bool * string :=
  match s with
  | String "-" s' => (true, s')
  | String "+" s' => (false, s')
  | _ => (false, s)
  end.

(** [int(s)] in base 10; [None] stands for [ValueError]. *)
Definition int (s : string) : option Z :=
  let (neg, body) := split_sign (strip s) in
  match digit_run false 0 0%nat body with
  | Some (v, _) => Some (if neg then - v else v)
  | None => None
  end.

Fixpoint digits_of_pos_aux (fuel : nat) (n : Z) (acc : string) : string :=
  match fuel with
  | O => acc
  | S fuel' =>
      let acc' := String (ascii_of_N (Z.to_N (48 + n mod 10))) acc in
      if n <? 10 then acc' else digits_of_pos_aux fuel' (n / 10) acc'
  end.

(** Decimal digits of a natural number. *)
Definition digits_of (n : Z) : string :=
  digits_of_pos_aux (S (Z.to_nat (Z.log2 n))) n EmptyString.

(** [str(n)] for an [int]. *)
Definition str_of_int (n : Z) : string :=
  if n <? 0 then String "-" (digits_of (- n)) else digits_of n.

Fixpoint join (sep : string) (l : list string) : string :=
  match l with
  | [] => EmptyString
  | [x] => x
  | x :: rest => x ++ sep ++ join sep rest
  end.

Fixpoint ends_with_aux (suffix s : string) (n : nat) : bool :=
  match n with
  | O => String.eqb s suffix
  | S n' => match s with
            | String _ s' => ends_with_aux suffix s' n'
            | EmptyString => false
            end
  end.

(** [s.endswith(suffix)] *)
Definition ends_with (suffix s : string) : bool :=
  ends_with_aux suffix s (String.length s - String.length suffix).

End PyStr.

(** ** Python floats

    A Python [float] is an IEEE 754 binary64 number: the primitive type
    [float]. Division, multiplication and comparison are the primitive
    ones; conversion from text, [round(x, 1)] and [repr] are computed
    exactly, through the rational value of a float. *)

Module PyFloat.

(** The float nearest to the rational [n / d] ([0 <= n], [0 < d]), ties to
    even, with the sign [neg]: the quotient is taken with 57 or 58 bits,
    one more bit records a non-zero remainder, and [binary_normalize]
    rounds. A result past the largest float is an infinity. *)
Definition of_ratio (neg : bool) (n d : Z) : float :=
  if n =? 0 then (if neg then neg_zero else zero)
  else
    let e := Z.log2 n - Z.log2 d - 57 in
    let (q, r) :=
      if e <? 0 then Z.div_eucl (n * 2 ^ (- e)) d
      else Z.div_eucl n (d * 2 ^ e) in
    let m := 2 * q + (if r =? 0 then 0 else 1) in
    SF2Prim (binary_normalize prec emax (if neg then - m else m) (e - 1) neg).

(** [float(n)] for an [int] that is not too large. *)
Definition of_int (n : Z) : float := of_ratio (n <? 0) (Z.abs n) 1.

(** [a / b] on [int]s; [None] stands for [ZeroDivisionError] and for the
    [OverflowError] of a quotient too large for a float. *)
Definition truediv (a b : Z) : option float :=
  if b =? 0 then None
  else
    let q := of_ratio (xorb (a <? 0) (b <? 0)) (Z.abs a) (Z.abs b) in
    if is_infinity q then None else Some q.

(** [x > n] for a float and an [int] literal that a float holds exactly
    (the source compares with 80 and 85). *)
Definition gt_int (x : float) (n : Z) : bool := PrimFloat.ltb (of_int n) x.

(** Truth value of a float: false on the two zeros only. *)
Definition truthy (x : float) : bool := negb (is_zero x).

(** The integer nearest to [m * 2 ^ e], ties to even. *)
Definition round_half_even (m e : Z) : Z :=
  if 0 <=? e then m * 2 ^ e
  else
    let d := 2 ^ (- e) in
    let (q, r) := Z.div_eucl m d in
    match 2 * r ?= d with
    | Lt => q
    | Gt => q + 1
    | Eq => if Z.even q then q else q + 1
    end.

(** [round(x, 1)]: the decimal with one fractional digit nearest to the
    exact value of [x], read back as a float. Zeros, infinities and NaN
    are returned as they are. *)
Definition round1 (x : float) : float :=
  match Prim2SF x with
  | S754_finite s m e => of_ratio s (round_half_even (10 * Zpos m) e) 10
  | _ => x
  end.

(** *** Conversion from text *)

Definition lower (c : ascii) : ascii :=
  let n := N_of_ascii c in
  if ((65 <=? n) && (n <=? 90))%N then ascii_of_N (n + 32) else c.

Fixpoint lower_string (s : string) : string :=
  match s with
  | EmptyString => EmptyString
  | String c s' => String (lower c) (lower_string s')
  end.

(** The part of [s] before the first character satisfying [p], and the
    part after it when there is one. *)
Fixpoint cut (p : ascii -> bool) (s : string) : string * option string :=
  match s with
  | EmptyString => (EmptyString, None)
  | String c s' =>
      if p c then (EmptyString, Some s')
      else let (a, b) := cut p s' in (String c a, b)
  end.

(** A possibly empty run of digits. *)
Definition digits_opt (s : string) : option (Z * nat) :=
  if PyStr.is_empty s then Some (0, O) else PyStr.digit_run false 0 0%nat s.

(** Mantissa [digits [. digits]] with at least one digit: its digits read
    as one integer and the number of digits after the point. *)
Definition mantissa (s : string) : option (Z * nat) :=
  match cut (Ascii.eqb ".") s with
  | (ip, None) =>
      match PyStr.digit_run false 0 0%nat ip with
      | Some (iv, _) => Some (iv, O)
      | None => None
      end
  | (ip, Some fp) =>
      match digits_opt ip, digits_opt fp with
      | Some (iv, ni), Some (fv, nf) =>
          if (ni + nf =? 0)%nat then None
          else Some (iv * 10 ^ Z.of_nat nf + fv, nf)
      | _, _ => None
      end
  end.

Definition exponent (s : option string) : option Z :=
  match s with
  | None => Some 0
  | Some t =>
      let (neg, body) := PyStr.split_sign t in
      match PyStr.digit_run false 0 0%nat body with
      | Some (v, _) => Some (if neg then - v else v)
      | None => None
      end
  end.

(** [float(s)]; [None] stands for [ValueError]. *)
Definition of_string (s : string) : option float :=
  let (neg, body) := PyStr.split_sign (PyStr.strip s) in
  let low := lower_string body in
  if String.eqb low "inf" || String.eqb low "infinity"
  then Some (if neg then neg_infinity else infinity)
  else if String.eqb low "nan" then Some nan
  else
    let (ms, es) := cut (fun c => Ascii.eqb (lower c) "e") body in
    match mantissa ms, exponent es with
    | Some (d, nf), Some e =>
        let e10 := e - Z.of_nat nf in
        Some (if 0 <=? e10 then of_ratio neg (d * 10 ^ e10) 1
              else of_ratio neg d (10 ^ (- e10)))
    | _, _ => None
    end.

(** *** Conversion to text: [repr]

    [repr(x)] is the shortest decimal that reads back as [x], and among
    the shortest ones the nearest to [x]. It is computed on exact
    rationals: the decimals that read back as [x] are those between the
    midpoints to the neighbouring floats. *)

Definition dyadic (m : positive) (e : Z) : Q :=
  if 0 <=? e then Qmake (Zpos m * 2 ^ e) 1
  else Qmake (Zpos m) (Z.to_pos (2 ^ (- e))).

(** Absolute value of a finite float (0 on the others). *)
Definition abs_value (x : float) : Q :=
  match Prim2SF x with
  | S754_finite _ m e => dyadic m e
  | _ => Qmake 0 1
  end.

Definition pow10 (k : Z) : Q :=
  if 0 <=? k then Qmake (10 ^ k) 1 else Qmake 1 (Z.to_pos (10 ^ (- k))).

Record interval := { lo : Q; hi : Q; closed : bool }.

(** The rationals that round to the positive finite float [x], whose
    mantissa is [m]: the bounds belong to it when [m] is even. Above the
    largest float the bound is half a unit in the last place away. *)
Definition rounding_interval (x : float) (m : positive) : interval :=
  let a := abs_value x in
  let down := Qminus a (abs_value (next_down x)) in
  let up := if is_infinity (next_up x) then down
            else Qminus (abs_value (next_up x)) a in
  {| lo := Qminus a (Qdiv down (Qmake 2 1));
     hi := Qplus a (Qdiv up (Qmake 2 1));
     closed := Z.even (Zpos m) |}.

Definition inside (iv : interval) (v : Q) : bool :=
  match Qcompare (lo iv) v, Qcompare v (hi iv) with
  | Lt, Lt => true
  | Eq, Lt | Lt, Eq => closed iv
  | _, _ => false
  end.

(** The [k] with [10 ^ k <= a < 10 ^ (k + 1)], for [a] whose binary
    logarithm has integer part [bits]. *)
Definition log10_floor (a : Q) (bits : Z) : Z :=
  let k0 := bits * 30103 / 100000 - 1 in
  let k1 := if Qle_bool (pow10 (k0 + 1)) a then k0 + 1 else k0 in
  let k2 := if Qle_bool (pow10 (k1 + 1)) a then k1 + 1 else k1 in
  if Qle_bool (pow10 (k2 + 1)) a then k2 + 1 else k2.

(** Among [c * 10 ^ sc] and [(c + 1) * 10 ^ sc], which enclose [a], the
    one inside [iv]; the nearer to [a] when both are. *)
Definition pick (iv : interval) (a : Q) (c sc : Z) : option Z :=
  let v1 := Qmult (Qmake c 1) (pow10 sc) in
  let v2 := Qmult (Qmake (c + 1) 1) (pow10 sc) in
  match inside iv v1, inside iv v2 with
  | true, false => Some c
  | false, true => Some (c + 1)
  | false, false => None
  | true, true =>
      match Qcompare (Qminus a v1) (Qminus v2 a) with
      | Lt => Some c
      | Gt => Some (c + 1)
      | Eq => Some (if Z.even c then c else c + 1)
      end
  end.

(** Tries 1, 2, ... significant digits ([p] of them next); seventeen
    always suffice. *)
Fixpoint shortest (fuel : nat) (p : Z) (iv : interval) (a : Q) (k : Z)
  : Z * Z :=
  let sc := k - p + 1 in
  let c := Qfloor (Qdiv a (pow10 sc)) in
  match fuel with
  | O => (c, sc)
  | S fuel' =>
      match pick iv a c sc with
      | Some d => (d, sc)
      | None => shortest fuel' (p + 1) iv a k
      end
  end.

Fixpoint zeros (n : nat) : string :=
  match n with O => EmptyString | S n' => String "0" (zeros n') end.

(** Lays out the digits [ds] of [0.ds * 10 ^ decpt]: scientific notation
    when [decpt <= -4] or [16 < decpt], positional otherwise, always with
    a fractional part or an exponent. *)
Definition layout (ds : string) (decpt : Z) : string :=
  let n := Z.of_nat (String.length ds) in
  if (decpt <=? -4) || (16 <? decpt) then
    let e := decpt - 1 in
    let mant := match ds with
                | String c (String _ _ as rest) => String c ("." ++ rest)
                | _ => ds
                end in
    let es := PyStr.digits_of (Z.abs e) in
    let es := if (String.length es <? 2)%nat then String "0" es else es in
    mant ++ "e" ++ (if e <? 0 then "-" else "+") ++ es
  else if decpt <=? 0 then "0." ++ zeros (Z.to_nat (- decpt)) ++ ds
  else if n <=? decpt then ds ++ zeros (Z.to_nat (decpt - n)) ++ ".0"
  else substring 0 (Z.to_nat decpt) ds ++ "."
       ++ substring (Z.to_nat decpt) (Z.to_nat (n - decpt)) ds.

(** [repr(x)], which is also [str(x)] and what an f-string prints. *)
Definition repr (x : float) : string :=
  match Prim2SF x with
  | S754_nan => "nan"
  | S754_infinity s => if s then "-inf" else "inf"
  | S754_zero s => if s then "-0.0" else "0.0"
  | S754_finite s m e =>
      let y := abs x in
      let a := abs_value y in
      let k := log10_floor a (Z.log2 (Zpos m) + e) in
      let (c, sc) := shortest 17 1 (rounding_interval y m) a k in
      let all := PyStr.digits_of c in
      let ds := PyStr.rstrip_char "0" all in
      let body := layout ds (Z.of_nat (String.length all) + sc) in
      if s then String "-" body else body
  end.

End PyFloat.

(** ** Data model *)

(** A server entry of the inventory, as the annotation [Dict[str, str]] of
    the methods has it: a mapping with text values, read with [.get], so
    every key may be missing. An entry of the YAML file that is not a
    mapping is none of these: [.get] fails on it, in [check_server] and
    again in the [except] clause of [run_checks]. *)
Record server := {
  srv_name : option string;
  srv_ip : option string;
  srv_type : option string;
  srv_ssh_user : option string;
  srv_ssh_port : option string
}.

(** The four values the ['status'] key takes. *)
Inductive health := healthy | warning | critical | down.

Record memory := {
  mem_total : Z; mem_used : Z; mem_free : Z; mem_percent : float
}.

Record disk := {
  device : string; size : string; used : string; available : string;
  percent : Z; mount : string
}.

Record load := { load_1min : float; load_5min : float; load_15min : float }.

Record container := { c_name : string; c_status : string; c_state : string }.

Record docker := {
  total : Z; running : Z; stopped : Z; containers : list container
}.

Record service := {
  svc_name : string; svc_status : string; svc_running : bool
}.

(** A value of the [metrics] dictionary; [MNone] is Python's [None]. *)
Inductive metric :=
| MNone
| MText (s : string)
| MNumber (x : float)
| MMemory (m : memory)
| MDisks (l : list disk)
| MLoad (l : load)
| MDocker (d : docker)
| MServices (l : list service).

Definition metric_of {A : Type} (f : A -> metric) (o : option A) : metric :=
  match o with Some a => f a | None => MNone end.

(** The dictionary [check_server] returns. The key ['warnings'] is set only
    on the path of a reachable host: [None] means the key is missing. *)
Record check_result := {
  res_name : string;
  res_ip : option string;
  res_type : string;
  res_timestamp : string;
  res_reachable : bool;
  res_status : health;
  res_metrics : gmap string metric;
  res_warnings : option (list string)
}.

(** What [json.dump] writes to a file: the time stamp and the results. *)
Record snapshot := { snap_timestamp : string; snap_servers : list check_result }.

(** What a file of the output directory holds: the whole text of a record,
    or, after a write that failed, a part of a text only, which [json.load]
    does not accept. *)
Inductive file :=
| Whole (snap : snapshot)
| Partial.

(** [json.load] on the content of a file. *)
Definition json_load (f : file) : option snapshot :=
  match f with
  | Whole snap => Some snap
  | Partial => None
  end.

(** ** Effects

    Everything outside the process is an oracle indexed by a logical time
    that advances with each external action: what a remote command gives,
    the clock, and whether opening, writing or removing a file fails. The
    state holds the time, the remote commands issued, the lines logged and
    the two places [save_results] writes to. *)

Inductive exn :=
| KeyError (key : string)
| TimeoutExpired
| OSError (msg : string)
| ValueError (msg : string)
| OverflowError (msg : string)
| KeyboardInterrupt.

(** Membership in the class [Exception], which [KeyboardInterrupt] is not
    part of. *)
Definition is_Exception (e : exn) : bool :=
  match e with KeyboardInterrupt => false | _ => true end.

(** [str(e)] *)
Definition exn_text (e : exn) : string :=
  match e with
  | KeyError k => "'" ++ k ++ "'"
  | TimeoutExpired => "timed out"
  | OSError msg | ValueError msg | OverflowError msg => msg
  | KeyboardInterrupt => EmptyString
  end.

Inductive process :=
| Completed (returncode : Z) (stdout stderr : string)
| TimedOut
| Failed (msg : string).

Record world := {
  (** [ping -c 1 -W 2 ip] exits with 0 within the time allowed *)
  ping : string -> nat -> bool;
  (** what running an [ssh] command line gives *)
  run : list string -> nat -> process;
  (** [datetime.now().isoformat()] *)
  now_iso : nat -> string;
  (** [datetime.now().strftime('%Y%m%d_%H%M%S')] *)
  now_stamp : nat -> string;
  (** opening a file for writing fails with this message *)
  open_error : string -> nat -> option string;
  (** writing the text to a file that was opened, or closing the file,
      fails with this message *)
  write_error : string -> nat -> option string;
  (** removing a file fails with this message *)
  unlink_error : string -> nat -> option string;
  (** the user interrupts the process during this sleep *)
  interrupted : nat -> bool
}.

Record sys := {
  tick : nat;
  issued : list (list string);
  logged : list (string * string);
  current_json : option file;
  history : gmap string file
}.

Inductive outcome (A : Type) :=
| Ret (a : A)
| Raise (e : exn).
Arguments Ret {A} a.
Arguments Raise {A} e.

Definition M (A : Type) : Type := sys -> outcome A * sys.

Definition ret {A : Type} (a : A) : M A := fun s => (Ret a, s).

Definition raise {A : Type} (e : exn) : M A := fun s => (Raise e, s).

Definition bind {A B : Type} (m : M A) (f : A -> M B) : M B :=
  fun s => match m s with
           | (Ret a, s') => f a s'
           | (Raise e, s') => (Raise e, s')
           end.

Notation "x <- m ;; k" := (bind m (fun x => k))
  (at level 100, m at level 90, right associativity).
Notation "m ;;; k" := (bind m (fun _ => k))
  (at level 100, right associativity).

(** [try: body except ...: handler]: [handler e] is [None] when no clause
    matches [e]. Effects of the body before the exception remain. *)
Definition try_except {A : Type} (body : M A) (handler : exn -> option (M A))
  : M A :=
  fun s => match body s with
           | (Raise e, s') =>
               match handler e with
               | Some h => h s'
               | None => (Raise e, s')
               end
           | r => r
           end.

Definition when (b : bool) (m : M unit) : M unit := if b then m else ret tt.

(** [for x in l: body], threading an accumulator. *)
Fixpoint for_each {A B : Type} (l : list A) (body : B -> A -> M B) (acc : B)
  : M B :=
  match l with
  | [] => ret acc
  | x :: rest => acc' <- body acc x ;; for_each rest body acc'
  end.

Definition advance (s : sys) : sys :=
  {| tick := S (tick s); issued := issued s; logged := logged s;
     current_json := current_json s; history := history s |}.

(** [self.log(message, level)]: the line printed, without its time stamp
    and colour. *)
Definition log (message level : string) : M unit :=
  fun s => (Ret tt,
            {| tick := tick s; issued := issued s;
               logged := logged s ++ [(level, message)];
               current_json := current_json s; history := history s |}).

(** [server['name']] *)
Definition item_name (srv : server) : M string :=
  match srv_name srv with
  | Some n => ret n
  | None => raise (KeyError "name")
  end.

(** Truth value of an [Optional[str]]: [None] and the empty string are
    false; the result is the string when it is true. *)
Definition nonempty (o : option string) : option string :=
  match o with
  | Some (String _ _ as s) => Some s
  | _ => None
  end.

(** ** Parsing of remote output

    The part of each collector that follows its remote command: a function
    of the value [ssh_execute] returned. Every [except:] clause of the
    collectors turns any error of the parsing into [None]. *)

Definition newline : ascii := "010"%char.

(** [get_uptime], lines 163-164: the placeholder replaces a missing or
    empty output. *)
Definition uptime_of (output : option string) : option string :=
  match nonempty output with
  | Some o => Some o
  | None => Some "Unknown"
  end.

(** [get_cpu_usage], lines 172-175 *)
Definition cpu_usage_of (output : option string) : option float :=
  match nonempty output with
  | Some o => PyFloat.of_string o
  | None => None
  end.

(** [get_memory_usage], lines 180-197 *)
Definition memory_usage_of (output : option string) : option memory :=
  match nonempty output with
  | None => None
  | Some o =>
      let parts := PyStr.split o in
      total ← parts !! 1%nat ≫= PyStr.int;
      used ← parts !! 2%nat ≫= PyStr.int;
      free ← parts !! 3%nat ≫= PyStr.int;
      ratio ← PyFloat.truediv used total;
      Some {| mem_total := total; mem_used := used; mem_free := free;
              mem_percent :=
                PyFloat.round1 (PrimFloat.mul ratio (PyFloat.of_int 100)) |}
  end.

(** One turn of the loop of [get_disk_usage], lines 210-222: rows with
    fewer than six fields and rows whose fifth field is not a number are
    skipped. *)
Definition disk_step (disks : list disk) (line : string) : list disk :=
  match PyStr.split line with
  | p0 :: p1 :: p2 :: p3 :: p4 :: p5 :: _ =>
      match PyStr.int (PyStr.rstrip_char "%" p4) with
      | Some n =>
          disks ++ [{| device := p0; size := p1; used := p2; available := p3;
                       percent := n; mount := p5 |}]
      | None => disks
      end
  | _ => disks
  end.

(** [x if x else None] for a list *)
Definition nonempty_list {A : Type} (l : list A) : option (list A) :=
  match l with [] => None | _ :: _ => Some l end.

(** [get_disk_usage], lines 205-224 *)
Definition disk_usage_of (output : option string) : option (list disk) :=
  match nonempty output with
  | None => None
  | Some o => nonempty_list (fold_left disk_step (PyStr.split_on newline o) [])
  end.

(** [get_load_average], lines 229-240 *)
Definition load_average_of (output : option string) : option load :=
  match nonempty output with
  | None => None
  | Some o =>
      let parts := PyStr.split o in
      l1 ← parts !! 0%nat ≫= PyFloat.of_string;
      l5 ← parts !! 1%nat ≫= PyFloat.of_string;
      l15 ← parts !! 2%nat ≫= PyFloat.of_string;
      Some {| load_1min := l1; load_5min := l5; load_15min := l15 |}
  end.

(** The three variables the loop of [get_docker_containers] updates. *)
Record docker_acc := {
  acc_containers : list container; acc_running : Z; acc_stopped : Z
}.

(** One turn of that loop, lines 257-272. *)
Definition docker_step (acc : docker_acc) (line : string) : docker_acc :=
  if negb (PyStr.contains "|" line) then acc
  else
    match PyStr.split_on "|" line with
    | name :: status :: state :: _ =>
        {| acc_containers :=
             acc_containers acc
             ++ [{| c_name := name; c_status := status; c_state := state |}];
           acc_running :=
             if String.eqb state "running" then acc_running acc + 1
             else acc_running acc;
           acc_stopped :=
             if String.eqb state "running" then acc_stopped acc
             else acc_stopped acc + 1 |}
    | _ => acc
    end.

(** [get_docker_containers], lines 249-279 *)
Definition docker_containers_of (output : option string) : option docker :=
  match nonempty output with
  | None => None
  | Some o =>
      if String.eqb o "NOT_INSTALLED" then None
      else
        let acc :=
          fold_left docker_step (PyStr.split_on newline o)
            {| acc_containers := []; acc_running := 0; acc_stopped := 0 |} in
        Some {| total := Z.of_nat (length (acc_containers acc));
                running := acc_running acc;
                stopped := acc_stopped acc;
                containers := acc_containers acc |}
  end.

(** One turn of the loop of [get_services_status], lines 293-298, after the
    remote command returned [output]. *)
Definition service_step (results : list service) (name : string)
  (output : option string) : list service :=
  match nonempty output with
  | Some o =>
      if String.eqb o "not-found" then results
      else results ++ [{| svc_name := name; svc_status := o;
                          svc_running := String.eqb o "active" |}]
  | None => results
  end.

(** ** Order of file names

    [sorted] compares the paths of one directory by their last component,
    character by character. *)

Definition name_le (a b : string) : Prop := String.leb a b = true.

Definition name_lt (a b : string) : Prop := String.ltb a b = true.

#[global] Instance name_le_dec : RelDecision name_le.
Proof. intros a b. unfold name_le. apply _. Defined.

(** ** Threshold evaluation

    Lines 333-352 of [check_server]: the two variables [status] and
    [warnings] are threaded through the three checks. *)

Definition verdict : Type := (health * list string)%type.

(** An f-string: the concatenation of its pieces. *)
Definition fstring (parts : list string) : string :=
  String.concat EmptyString parts.

Definition check_cpu (metrics : gmap string metric) (v : verdict) : verdict :=
  match metrics !! "cpu" with
  | Some (MNumber cpu) =>
      if PyFloat.truthy cpu && PyFloat.gt_int cpu 80
      then (warning,
            (snd v ++ [fstring ["High CPU: "; PyFloat.repr cpu; "%"]])%list)
      else v
  | _ => v
  end.

Definition check_memory (metrics : gmap string metric) (v : verdict)
  : verdict :=
  match metrics !! "memory" with
  | Some (MMemory m) =>
      if PyFloat.gt_int (mem_percent m) 85
      then (warning,
            (snd v
             ++ [fstring ["High Memory: "; PyFloat.repr (mem_percent m); "%"]])%list)
      else v
  | _ => v
  end.

(** One turn of the loop over the disks, lines 350-352. *)
Definition check_disk (v : verdict) (d : disk) : verdict :=
  if 85 <? percent d
  then (if 95 <? percent d then critical else warning,
        (snd v ++ [fstring ["High Disk ("; mount d; "): ";
                            PyStr.str_of_int (percent d); "%"]])%list)
  else v.

Definition check_disks (metrics : gmap string metric) (v : verdict)
  : verdict :=
  match metrics !! "disk" with
  | Some (MDisks disks) => fold_left check_disk disks v
  | _ => v
  end.

Definition evaluate (metrics : gmap string metric) : verdict :=
  check_disks metrics (check_memory metrics (check_cpu metrics (healthy, []))).

Definition set_metric (key : string) (v : metric) (r : check_result)
  : check_result :=
  {| res_name := res_name r; res_ip := res_ip r; res_type := res_type r;
     res_timestamp := res_timestamp r; res_reachable := res_reachable r;
     res_status := res_status r;
     res_metrics := <[key := v]> (res_metrics r);
     res_warnings := res_warnings r |}.

Definition set_reachable (b : bool) (r : check_result) : check_result :=
  {| res_name := res_name r; res_ip := res_ip r; res_type := res_type r;
     res_timestamp := res_timestamp r; res_reachable := b;
     res_status := res_status r; res_metrics := res_metrics r;
     res_warnings := res_warnings r |}.

(** [result['status'] = status; result['warnings'] = warnings] *)
Definition set_verdict (v : verdict) (r : check_result) : check_result :=
  {| res_name := res_name r; res_ip := res_ip r; res_type := res_type r;
     res_timestamp := res_timestamp r; res_reachable := res_reachable r;
     res_status := fst v; res_metrics := res_metrics r;
     res_warnings := Some (snd v) |}.

Fixpoint repeat_string (s : string) (n : nat) : string :=
  match n with O => EmptyString | S n' => s ++ repeat_string s n' end.

Definition count_of {A : Type} (p : A -> bool) (l : list A) : Z :=
  Z.of_nat (length (filter (fun x => p x = true) l)).

Definition is_status (h : health) (r : check_result) : bool :=
  match h, res_status r with
  | healthy, healthy | warning, warning | critical, critical | down, down =>
      true
  | _, _ => false
  end.

(** The longest sleep, in seconds, whose nanoseconds fit in a signed
    64-bit integer: 2^63 - 1 divided by 10^9. *)
Definition sleep_limit : Z := 9223372036.

(** ** The class [HealthChecker] *)

Section HealthChecker.

Variable w : world.
(** [self.verbose] *)
Variable verbose : bool.
(** [self.output_dir] *)
Variable output_dir : string.

(** [subprocess.run(ssh_cmd, capture_output=True, text=True, timeout=...)] *)
Definition subprocess_run (argv : list string) : M (Z * string * string) :=
  fun s =>
    let s' := {| tick := S (tick s); issued := issued s ++ [argv];
                 logged := logged s; current_json := current_json s;
                 history := history s |} in
    match run w argv (tick s) with
    | Completed rc out err => (Ret (rc, out, err), s')
    | TimedOut => (Raise TimeoutExpired, s')
    | Failed msg => (Raise (OSError msg), s')
    end.

(** [ssh_execute], lines 105-146 *)
Definition ssh_execute (srv : server) (command : string)
  : M (option string) :=
  let ssh_user := default "root" (srv_ssh_user srv) in
  let ssh_port := default "22" (srv_ssh_port srv) in
  match nonempty (srv_ip srv) with
  | None => ret None
  | Some ip =>
      let ssh_cmd :=
        [ "ssh"; "-o"; "StrictHostKeyChecking=no"; "-o"; "ConnectTimeout=5";
          "-o"; "BatchMode=yes"; "-p"; ssh_port; ssh_user ++ "@" ++ ip;
          command ] in
      try_except
        (result <- subprocess_run ssh_cmd ;;
         let '(returncode, stdout, stderr) := result in
         if returncode =? 0 then ret (Some (PyStr.strip stdout))
         else
           when verbose
             (n <- item_name srv ;;
              log ("SSH command failed on " ++ n ++ ": " ++ stderr) "warning")
           ;;; ret None)
        (fun e =>
           match e with
           | TimeoutExpired =>
               Some (when verbose
                       (n <- item_name srv ;;
                        log ("SSH timeout on " ++ n) "warning")
                     ;;; ret None)
           | KeyboardInterrupt => None
           | _ =>
               Some (when verbose
                       (n <- item_name srv ;;
                        log ("SSH error on " ++ n ++ ": " ++ exn_text e)
                            "error")
                     ;;; ret None)
           end)
  end.

(** [check_server_reachable], lines 148-159: without an address the call
    of [ping] raises and the bare [except] answers [False]. *)
Definition check_server_reachable (srv : server) : M bool :=
  match srv_ip srv with
  | None => ret false
  | Some ip => fun s => (Ret (ping w ip (tick s)), advance s)
  end.

Definition uptime_command : string := "uptime -p".
Definition cpu_command : string :=
  "top -bn1 | grep 'Cpu(s)' | awk '{print $2}' | cut -d'%' -f1".
Definition memory_command : string := "free -m | grep Mem".
Definition disk_command : string :=
  "df -h | grep -E '^/dev/' | awk '{print $1,$2,$3,$4,$5,$6}'".
Definition load_command : string := "cat /proc/loadavg".
Definition docker_command : string :=
  "docker ps -a --format '{{.Names}}|{{.Status}}|{{.State}}' 2>/dev/null || echo 'NOT_INSTALLED'".
Definition service_command (service : string) : string :=
  "systemctl is-active " ++ service ++ " 2>/dev/null || echo 'not-found'".

Definition get_uptime (srv : server) : M (option string) :=
  output <- ssh_execute srv uptime_command ;; ret (uptime_of output).

Definition get_cpu_usage (srv : server) : M (option float) :=
  output <- ssh_execute srv cpu_command ;; ret (cpu_usage_of output).

Definition get_memory_usage (srv : server) : M (option memory) :=
  output <- ssh_execute srv memory_command ;; ret (memory_usage_of output).

Definition get_disk_usage (srv : server) : M (option (list disk)) :=
  output <- ssh_execute srv disk_command ;; ret (disk_usage_of output).

Definition get_load_average (srv : server) : M (option load) :=
  output <- ssh_execute srv load_command ;; ret (load_average_of output).

Definition get_docker_containers (srv : server) : M (option docker) :=
  output <- ssh_execute srv docker_command ;;
  ret (docker_containers_of output).

Definition default_services : list string :=
  ["ssh"; "docker"; "nginx"; "postgresql"; "mysql"].

(** [get_services_status], lines 281-300; [services] is [None] or the
    list the caller gave, and an empty list counts as not given. *)
Definition get_services_status (srv : server)
  (services : option (list string)) : M (option (list service)) :=
  let services :=
    match services with
    | Some ((_ :: _) as given) => given
    | _ => default_services
    end in
  results <-
    for_each services
      (fun results service =>
         output <- ssh_execute srv (service_command service) ;;
         ret (service_step results service output))
      [] ;;
  ret (nonempty_list results).

(** [datetime.now().isoformat()] *)
Definition isoformat_now : M string :=
  fun s => (Ret (now_iso w (tick s)), s).

(** [datetime.now().strftime('%Y%m%d_%H%M%S')] *)
Definition strftime_now : M string :=
  fun s => (Ret (now_stamp w (tick s)), s).

(** [check_server], lines 302-364 *)
Definition check_server (srv : server) : M check_result :=
  let server_name := default "Unknown" (srv_name srv) in
  log (fstring ["Checking "; server_name; "..."]) "info" ;;;
  timestamp <- isoformat_now ;;
  let result :=
    {| res_name := server_name; res_ip := srv_ip srv;
       res_type := default "unknown" (srv_type srv);
       res_timestamp := timestamp; res_reachable := false;
       res_status := down; res_metrics := ∅; res_warnings := None |} in
  reachable <- check_server_reachable srv ;;
  if negb reachable then
    log (fstring ["  "; server_name; ": UNREACHABLE"]) "error" ;;;
    ret result
  else
    let result := set_reachable true result in
    uptime <- get_uptime srv ;;
    let result := set_metric "uptime" (metric_of MText uptime) result in
    cpu <- get_cpu_usage srv ;;
    let result := set_metric "cpu" (metric_of MNumber cpu) result in
    mem <- get_memory_usage srv ;;
    let result := set_metric "memory" (metric_of MMemory mem) result in
    disks <- get_disk_usage srv ;;
    let result := set_metric "disk" (metric_of MDisks disks) result in
    avg <- get_load_average srv ;;
    let result := set_metric "load" (metric_of MLoad avg) result in
    dock <- get_docker_containers srv ;;
    let result := set_metric "docker" (metric_of MDocker dock) result in
    services <- get_services_status srv None ;;
    let result := set_metric "services" (metric_of MServices services) result in
    let v := evaluate (res_metrics result) in
    let result := set_verdict v result in
    match fst v with
    | healthy => log (fstring ["  "; server_name; ": OK"]) "success"
    | warning =>
        log (fstring ["  "; server_name; ": WARNING - ";
                      PyStr.join ", " (snd v)]) "warning"
    | _ =>
        log (fstring ["  "; server_name; ": CRITICAL - ";
                      PyStr.join ", " (snd v)]) "error"
    end ;;;
    ret result.

Definition current_file : string := fstring [output_dir; "/current.json"].

Definition history_path (name : string) : string :=
  fstring [output_dir; "/history/"; name].

(** [with open(current_file, 'w') as f: json.dump(..., f, indent=2)],
    lines 400-404. When the file cannot be opened it is left as it was;
    opening it empties it, so that a failure of [json.dump] or of closing
    the file leaves a part of the text only. *)
Definition write_current (results : list check_result) : M unit :=
  fun s =>
    match open_error w current_file (tick s) with
    | Some msg => (Raise (OSError msg), advance s)
    | None =>
        match write_error w current_file (tick s) with
        | Some msg =>
            (Raise (OSError msg),
             {| tick := S (tick s); issued := issued s; logged := logged s;
                current_json := Some Partial; history := history s |})
        | None =>
            (Ret tt,
             {| tick := S (tick s); issued := issued s; logged := logged s;
                current_json :=
                  Some (Whole {| snap_timestamp := now_iso w (tick s);
                                 snap_servers := results |});
                history := history s |})
        end
    end.

(** The same for the file [name] of the history directory, lines
    408-412. *)
Definition write_history (name : string) (results : list check_result)
  : M unit :=
  fun s =>
    match open_error w (history_path name) (tick s) with
    | Some msg => (Raise (OSError msg), advance s)
    | None =>
        match write_error w (history_path name) (tick s) with
        | Some msg =>
            (Raise (OSError msg),
             {| tick := S (tick s); issued := issued s; logged := logged s;
                current_json := current_json s;
                history := <[name := Partial]> (history s) |})
        | None =>
            (Ret tt,
             {| tick := S (tick s); issued := issued s; logged := logged s;
                current_json := current_json s;
                history :=
                  <[name := Whole {| snap_timestamp := now_iso w (tick s);
                                     snap_servers := results |}]>
                    (history s) |})
        end
    end.

(** The names [glob("*.json")] matches. *)
Definition is_json (name : string) : bool := PyStr.ends_with ".json" name.

Definition json_names (h : gmap string file) : list string :=
  filter (fun n => is_json n = true) (elements (dom h)).

(** [sorted((self.output_dir / "history").glob("*.json"))] *)
Definition sorted_history : M (list string) :=
  fun s => (Ret (merge_sort name_le (json_names (history s))), s).

(** [old_file.unlink()] for the file [name] of the history directory: the
    file is removed, or it stays and the call raises. *)
Definition unlink (name : string) : M unit :=
  fun s =>
    match unlink_error w (history_path name) (tick s) with
    | Some msg => (Raise (OSError msg), s)
    | None =>
        (Ret tt,
         {| tick := tick s; issued := issued s; logged := logged s;
            current_json := current_json s;
            history := delete name (history s) |})
    end.

(** [save_results], lines 396-420 *)
Definition save_results (results : list check_result) : M unit :=
  write_current results ;;;
  stamp <- strftime_now ;;
  write_history (fstring [stamp; ".json"]) results ;;;
  history_files <- sorted_history ;;
  when (1000 <? Z.of_nat (length history_files))
    (for_each (take (length history_files - 1000) history_files)
       (fun _ old_file => unlink old_file) tt) ;;;
  log (fstring ["Results saved to "; current_file]) "success".

(** One turn of the loop of [run_checks], lines 375-379. *)
Definition run_check (results : list check_result) (srv : server)
  : M (list check_result) :=
  try_except
    (result <- check_server srv ;; ret (results ++ [result])%list)
    (fun e =>
       if is_Exception e then
         Some (log (fstring ["Error checking "; default "None" (srv_name srv);
                             ": "; exn_text e]) "error" ;;;
               ret results)
       else None).

Definition count_text (p : check_result -> bool)
  (results : list check_result) : string :=
  PyStr.str_of_int (count_of p results).

(** [run_checks], lines 366-394, on the list [self.servers] *)
Definition run_checks (servers : list server) : M (list check_result) :=
  log (repeat_string "=" 60) "info" ;;;
  log (fstring ["Starting health checks for ";
                PyStr.str_of_int (Z.of_nat (length servers)); " server(s)"])
      "info" ;;;
  log (repeat_string "=" 60) "info" ;;;
  results <- for_each servers run_check [] ;;
  save_results results ;;;
  log (repeat_string "=" 60) "info" ;;;
  log (fstring ["Check completed: "; count_text (is_status healthy) results;
                " healthy, "; count_text (is_status warning) results;
                " warning, "; count_text (is_status critical) results;
                " critical, ";
                count_text (fun r => negb (res_reachable r)) results;
                " down"]) "stat" ;;;
  log (repeat_string "=" 60) "info" ;;;
  ret results.

(** [time.sleep(interval)] for an integer: CPython converts the seconds to
    nanoseconds in a signed 64-bit integer and raises [OverflowError] when
    they do not fit, then raises [ValueError] for a negative number;
    otherwise the process sleeps, and the user may interrupt it. The
    messages are those of CPython 3.5 to 3.12. *)
Definition sleep (interval : Z) : M unit :=
  fun s =>
    if (interval <? - sleep_limit) || (sleep_limit <? interval) then
      (Raise (OverflowError "timestamp too large to convert to C _PyTime_t"),
       s)
    else if interval <? 0 then
      (Raise (ValueError "sleep length must be non-negative"), s)
    else if interrupted w (tick s) then (Raise KeyboardInterrupt, advance s)
    else (Ret tt, advance s).

(** How far a run of the loop got: it is still going after the turns
    considered, or [run_continuous] returned. *)
Inductive progress := Running | Returned.

(** [fuel] turns of [while True: self.run_checks(); time.sleep(interval)] *)
Fixpoint forever (servers : list server) (interval : Z) (fuel : nat)
  : M progress :=
  match fuel with
  | O => ret Running
  | S fuel' =>
      run_checks servers ;;; sleep interval ;;;
      forever servers interval fuel'
  end.

(** [run_continuous], lines 422-432, observed for [fuel] turns. *)
Definition run_continuous (servers : list server) (interval : Z)
  (fuel : nat) : M progress :=
  log (fstring ["Starting continuous monitoring (interval: ";
                PyStr.str_of_int interval; "s)"]) "info" ;;;
  log "Press Ctrl+C to stop" "info" ;;;
  try_except (forever servers interval fuel)
    (fun e =>
       match e with
       | KeyboardInterrupt =>
           Some (log (String newline "Stopped by user") "info" ;;;
                 ret Returned)
       | _ => None
       end).

End HealthChecker.

(** ** Scenarios

    Concrete servers, worlds and states on which the functions above are
    run. *)

Definition srv_web : server :=
  {| srv_name := Some "web1"; srv_ip := Some "10.0.0.5";
     srv_type := Some "web"; srv_ssh_user := None; srv_ssh_port := None |}.

Definition srv_db : server :=
  {| srv_name := Some "db1"; srv_ip := Some "10.0.0.7";
     srv_type := Some "database"; srv_ssh_user := Some "admin";
     srv_ssh_port := Some "2222" |}.

(** An inventory entry without the key ['name']. *)
Definition srv_anon : server :=
  {| srv_name := None; srv_ip := Some "10.0.0.6"; srv_type := None;
     srv_ssh_user := None; srv_ssh_port := None |}.

(** A world in which every host answers [ping] or none does, the remote
    command [command] gives what [answer command] says, and files can be
    written or opening them fails. *)
Definition make_world (reachable : bool) (answer : string -> process)
  (writable : bool) : world :=
  {| ping := fun _ _ => reachable;
     run := fun argv _ => answer (List.last argv EmptyString);
     now_iso := fun _ => "2024-05-01T12:00:00";
     now_stamp := fun _ => "20240501_120000";
     open_error := fun _ _ =>
       if writable then None else Some "Permission denied";
     write_error := fun _ _ => None;
     unlink_error := fun _ _ => None;
     interrupted := fun _ => false |}.

(** Every remote command fails, as when the key is not accepted. *)
Definition refuse (command : string) : process :=
  Completed 255 EmptyString "Permission denied (publickey).".

(** Only the command [command] succeeds, with the output [stdout]. *)
Definition only (command stdout : string) (asked : string) : process :=
  if String.eqb asked command then Completed 0 stdout EmptyString
  else refuse asked.

Definition start : sys :=
  {| tick := O; issued := []; logged := []; current_json := None;
     history := ∅ |}.

Definition two_disks : list disk :=
  [ {| device := "/dev/sda1"; size := "100G"; used := "97G";
       available := "3G"; percent := 97; mount := "/" |};
    {| device := "/dev/sdb1"; size := "50G"; used := "45G";
       available := "5G"; percent := 90; mount := "/data" |} ].

Definition two_disks_output : string :=
  "/dev/sda1 100G 97G 3G 97% /
/dev/sdb1 50G 45G 5G 90% /data
".

(** The last disk above 85 percent, which the loop over the disks lets
    decide. *)
Definition last_high (disks : list disk) : option disk :=
  List.last (map Some (filter (fun d => 85 < percent d) disks)) None.

(** What [memory_usage_of] reads from the line [Mem: 1000 850 150]. *)
Definition mem85 : memory :=
  {| mem_total := 1000; mem_used := 850; mem_free := 150;
     mem_percent := 85%float |}.

Definition mem85_output : string := "Mem: 1000 850 150".

(** The CPU check of the evaluation fires on these metrics. *)
Definition cpu_triggers (metrics : gmap string metric) : bool :=
  match metrics !! "cpu" with
  | Some (MNumber cpu) => PyFloat.truthy cpu && PyFloat.gt_int cpu 80
  | _ => false
  end.

(** Some disk of these metrics is above 85 percent. *)
Definition disk_triggers (metrics : gmap string metric) : bool :=
  match metrics !! "disk" with
  | Some (MDisks disks) => existsb (fun d => 85 <? percent d) disks
  | _ => false
  end.

Definition is_running (c : container) : bool :=
  String.eqb (c_state c) "running".

Definition docker_output : string :=
  "web|Up 2 hours|running
db|Exited (0) 3 days ago|exited
cache|Up 5 minutes|running".

Definition docker_world : world :=
  make_world true (only docker_command docker_output) true.

(** The bundle [get_docker_containers] builds from [docker_output]. *)
Definition docker_bundle : docker :=
  {| total := 3; running := 2; stopped := 1;
     containers :=
       [ {| c_name := "web"; c_status := "Up 2 hours"; c_state := "running" |};
         {| c_name := "db"; c_status := "Exited (0) 3 days ago";
            c_state := "exited" |};
         {| c_name := "cache"; c_status := "Up 5 minutes";
            c_state := "running" |} ] |}.

(** What the loop over the container lines keeps true of its variables. *)
Definition docker_inv (acc : docker_acc) : Prop :=
  acc_running acc = count_of is_running (acc_containers acc)
  /\ acc_stopped acc
     = count_of (fun c => negb (is_running c)) (acc_containers acc).

(** The dictionary [check_server] returns for a host that does not answer
    [ping]. *)
Definition unreachable_result (srv : server) (timestamp : string)
  : check_result :=
  {| res_name := default "Unknown" (srv_name srv); res_ip := srv_ip srv;
     res_type := default "unknown" (srv_type srv);
     res_timestamp := timestamp; res_reachable := false;
     res_status := down; res_metrics := ∅; res_warnings := None |}.

(** The [metrics] dictionary once the seven collectors have answered. *)
Definition collected (uptime : option string) (cpu : option float)
  (mem : option memory) (disks : option (list disk)) (avg : option load)
  (dock : option docker) (services : option (list service))
  : gmap string metric :=
  <["services" := metric_of MServices services]>
    (<["docker" := metric_of MDocker dock]>
       (<["load" := metric_of MLoad avg]>
          (<["disk" := metric_of MDisks disks]>
             (<["memory" := metric_of MMemory mem]>
                (<["cpu" := metric_of MNumber cpu]>
                   (<["uptime" := metric_of MText uptime]> ∅)))))).

(** The dictionary [check_server] returns for a host that answers. *)
Definition reachable_result (srv : server) (timestamp : string)
  (metrics : gmap string metric) : check_result :=
  {| res_name := default "Unknown" (srv_name srv); res_ip := srv_ip srv;
     res_type := default "unknown" (srv_type srv);
     res_timestamp := timestamp; res_reachable := true;
     res_status := fst (evaluate metrics); res_metrics := metrics;
     res_warnings := Some (snd (evaluate metrics)) |}.

(** The services list built from the outputs of the probes, one output per
    service queried. *)
Definition services_from (names : list string) (outputs : list (option string))
  : option (list service) :=
  nonempty_list
    (fold_left (fun results p => service_step results (fst p) (snd p))
       (zip names outputs) []).

(** No host answers [ping]. *)
Definition dead_world : world := make_world false refuse true.

(** Only [df] answers, with the two rows of [two_disks_output]. *)
Definition two_disks_world : world :=
  make_world true (only disk_command two_disks_output) true.

(** What [check_server] returns for [srv_web] in that world. *)
Definition two_disks_result : check_result :=
  reachable_result srv_web "2024-05-01T12:00:00"
    (collected (Some "Unknown") None None (Some two_disks) None None None).

(** Every remote command succeeds and prints nothing. *)
Definition silent_world : world :=
  make_world true (fun _ => Completed 0 EmptyString EmptyString) true.

(** Every remote command is refused. *)
Definition locked_world : world := make_world true refuse true.

(** ** Malformed output

    What makes the output of a command unusable for its collector. *)

(** Not the text of a number. *)
Definition cpu_malformed (t : string) : Prop := PyFloat.of_string t = None.

(** One of the fields 1, 2, 3 is missing or is not an integer, or the total
    is zero. *)
Definition memory_malformed (t : string) : Prop :=
  let parts := PyStr.split t in
  parts !! 1%nat ≫= PyStr.int = None
  \/ parts !! 2%nat ≫= PyStr.int = None
  \/ parts !! 3%nat ≫= PyStr.int = None
  \/ parts !! 1%nat ≫= PyStr.int = Some 0.

(** One of the fields 0, 1, 2 is missing or is not a number. *)
Definition load_malformed (t : string) : Prop :=
  let parts := PyStr.split t in
  parts !! 0%nat ≫= PyFloat.of_string = None
  \/ parts !! 1%nat ≫= PyFloat.of_string = None
  \/ parts !! 2%nat ≫= PyFloat.of_string = None.

(** Fewer than six fields, or a fifth field that is not an integer once
    its percent signs are removed. *)
Definition disk_row_malformed (line : string) : Prop :=
  match PyStr.split line with
  | _ :: _ :: _ :: _ :: p4 :: _ :: _ =>
      PyStr.int (PyStr.rstrip_char "%" p4) = None
  | _ => True
  end.

Definition disk_malformed (t : string) : Prop :=
  Forall disk_row_malformed (PyStr.split_on newline t).

(** ** The loop over the hosts, host by host *)

(** The results among a list of outcomes, in order. *)
Definition returned {A : Type} (outcomes : list (outcome A)) : list A :=
  omap (fun o => match o with Ret a => Some a | Raise _ => None end) outcomes.

(** What [check_server] gives for each host in turn, each check starting in
    the state the turn of the loop for the host before left. *)
Fixpoint check_each (w : world) (verbose : bool) (servers : list server)
  (s : sys) : list (outcome check_result) :=
  match servers with
  | [] => []
  | srv :: rest =>
      fst (check_server w verbose srv s)
      :: check_each w verbose rest (snd (run_check w verbose [] srv s))
  end.

(** The state after the three lines [run_checks] logs first. *)
Definition headers (servers : list server) (s : sys) : sys :=
  snd ((log (repeat_string "=" 60) "info" ;;;
        log (fstring ["Starting health checks for ";
                      PyStr.str_of_int (Z.of_nat (length servers));
                      " server(s)"]) "info" ;;;
        log (repeat_string "=" 60) "info") s).

(** The state after the two lines [run_continuous] logs first. *)
Definition banner (interval : Z) (s : sys) : sys :=
  snd ((log (fstring ["Starting continuous monitoring (interval: ";
                      PyStr.str_of_int interval; "s)"]) "info" ;;;
        log "Press Ctrl+C to stop" "info") s).

(** No file can be opened for writing. *)
Definition readonly_world : world := make_world true refuse false.

Definition out_dir : string := "/tmp/health-monitor".

(** ** The history directory after [save_results] *)

(** The directory once the files [names] are unlinked, one after the
    other. *)
Definition delete_all (names : list string) (h : gmap string file)
  : gmap string file :=
  fold_left (fun h name => delete name h) names h.

(** The directory after lines 415-418 of [save_results]. *)
Definition cleaned (h : gmap string file) : gmap string file :=
  let history_files := merge_sort name_le (json_names h) in
  if 1000 <? Z.of_nat (length history_files)
  then delete_all (take (length history_files - 1000) history_files) h
  else h.

(** The name of the history file of a run that starts [save_results] at
    time [t]: the clock is read after the current file is written. *)
Definition history_name (w : world) (t : nat) : string :=
  fstring [now_stamp w (S t); ".json"].

(** The history directory once [save_results], started in [s], has written
    the record of the run and before it removes old records. *)
Definition recorded (w : world) (results : list check_result) (s : sys)
  : gmap string file :=
  <[history_name w (tick s) :=
      Whole {| snap_timestamp := now_iso w (S (tick s));
               snap_servers := results |}]>
    (history s).

(** The records [save_results] removes from the directory [h]: the first
    [count - 1000] names in increasing order. *)
Definition expired (h : gmap string file) : list string :=
  let history_files := merge_sort name_le (json_names h) in
  take (length history_files - 1000) history_files.

(** A history directory that already holds [n] records, named so that
    they sort by their number and before the records of the scenarios'
    clock. *)
Definition old_name (i : nat) : string :=
  fstring ["2023"; PyStr.digits_of (10000 + Z.of_nat i); ".json"].

Definition empty_snapshot : snapshot :=
  {| snap_timestamp := "2023-01-01T00:00:00"; snap_servers := [] |}.

Definition full_history (n : nat) : gmap string file :=
  list_to_map (map (fun i => (old_name i, Whole empty_snapshot)) (seq 0 n)).

Definition full_state (n : nat) : sys :=
  {| tick := O; issued := []; logged := []; current_json := None;
     history := full_history n |}.

(** ** Further descriptions of the code

    Functions that say, in closed form, what the functions above compute;
    the properties below relate them. *)

(** The command line [ssh_execute] builds, lines 107-122, for a server
    whose address is [ip]. *)
Definition ssh_argv (srv : server) (ip command : string) : list string :=
  [ "ssh"; "-o"; "StrictHostKeyChecking=no"; "-o"; "ConnectTimeout=5";
    "-o"; "BatchMode=yes"; "-p"; default "22" (srv_ssh_port srv);
    default "root" (srv_ssh_user srv) ++ "@" ++ ip; command ].

(** What a call of [ssh_execute] that does not raise returns for the
    outcome of its command. *)
Definition ssh_answer (p : process) : option string :=
  match p with
  | Completed returncode stdout _ =>
      if returncode =? 0 then Some (PyStr.strip stdout) else None
  | TimedOut | Failed _ => None
  end.

(** The warning of the CPU check, if it fires. *)
Definition cpu_warning (metrics : gmap string metric) : list string :=
  match metrics !! "cpu" with
  | Some (MNumber cpu) =>
      if PyFloat.truthy cpu && PyFloat.gt_int cpu 80
      then [fstring ["High CPU: "; PyFloat.repr cpu; "%"]]
      else []
  | _ => []
  end.

(** The warning of the memory check, if it fires. *)
Definition memory_warning (metrics : gmap string metric) : list string :=
  match metrics !! "memory" with
  | Some (MMemory m) =>
      if PyFloat.gt_int (mem_percent m) 85
      then [fstring ["High Memory: "; PyFloat.repr (mem_percent m); "%"]]
      else []
  | _ => []
  end.

Definition disk_warning (d : disk) : string :=
  fstring ["High Disk ("; mount d; "): "; PyStr.str_of_int (percent d); "%"].

(** The disks of the metrics, when there are any. *)
Definition disks_of (metrics : gmap string metric) : list disk :=
  match metrics !! "disk" with
  | Some (MDisks disks) => disks
  | _ => []
  end.

(** The disks above 85 percent, in the order of the metrics. *)
Definition high_disks (metrics : gmap string metric) : list disk :=
  filter (fun d => 85 < percent d) (disks_of metrics).

(** The remote commands of one check of a reachable host, in the order
    [check_server] runs them: the six collectors, then one probe for each
    default service. *)
Definition remote_commands : list string :=
  [uptime_command; cpu_command; memory_command; disk_command; load_command;
   docker_command] ++ map service_command default_services.

(** The keys of the [metrics] dictionary of a reachable host. *)
Definition metric_keys : gset string :=
  {[ "uptime"; "cpu"; "memory"; "disk"; "load"; "docker"; "services" ]}.

(** The command lines [ssh_execute] runs for [commands], one after the
    other: none for a server without address. *)
Definition argv_for (srv : server) (commands : list string)
  : list (list string) :=
  match nonempty (srv_ip srv) with
  | Some ip => map (ssh_argv srv ip) commands
  | None => []
  end.

(** What [check_server] returns for a reachable server whose remote
    commands are all refused. *)
Definition locked_result (srv : server) : check_result :=
  reachable_result srv "2024-05-01T12:00:00"
    (collected (Some "Unknown") None None None None None None).

(** A history directory that also holds a file that is not a record. *)
Definition noted_state : sys :=
  {| tick := O; issued := []; logged := []; current_json := None;
     history := <["README.txt" := Whole empty_snapshot]> (full_history 2) |}.

(** The user interrupts the first sleep after time [t]. *)
Definition interrupting_world (t : nat) : world :=
  {| ping := fun _ _ => true;
     run := fun argv _ => refuse (List.last argv EmptyString);
     now_iso := fun _ => "2024-05-01T12:00:00";
     now_stamp := fun _ => "20240501_120000";
     open_error := fun _ _ => None;
     write_error := fun _ _ => None;
     unlink_error := fun _ _ => None;
     interrupted := fun now => Nat.leb t now |}.

(** The services [get_services_status] queries, lines 283-284: the ones
    given, or the default ones when none or an empty list is given. *)
Definition queried (given : option (list string)) : list string :=
  match given with
  | Some ((_ :: _) as services) => services
  | _ => default_services
  end.

(** What [get_services_status] guarantees of an entry of its result. *)
Definition service_ok (sv : service) : Prop :=
  svc_status sv <> EmptyString
  /\ svc_status sv <> "not-found"
  /\ svc_running sv = String.eqb (svc_status sv) "active".

(** ** The configuration file

    [load_config], lines 84-103. What [yaml.safe_load] returns is a YAML
    value; a mapping is the list of its entries in the order of the file. *)

#[local] Unset Elimination Schemes.
Inductive yaml :=
| YNull
| YBool (b : bool)
| YInt (n : Z)
| YFloat (x : float)
| YStr (s : string)
| YList (items : list yaml)
| YMap (entries : list (yaml * yaml)).
#[local] Set Elimination Schemes.

(** What reading and parsing the file gives: [FileNotFoundError], another
    exception with its text (unreadable file, YAML syntax error), or the
    value. *)
Inductive config_source :=
| NotFound
| Unreadable (msg : string)
| Parsed (config : yaml).

(** How [load_config] ends: it returns with [self.servers] set, or the
    process exits through [sys.exit]. *)
Inductive loading :=
| Loaded (servers : list yaml)
| Exited (code : Z).

(** The exceptions the lines 91-92 raise on a value of the wrong type:
    [in] on a value that is not a container, a text subscript on a list or
    a string, and [.items()] on a value that is not a mapping. *)
Inductive fault :=
| NotIterable (value : yaml)
| BadSubscript (value : yaml)
| NoItems (value : yaml).

Definition is_key (key : string) (y : yaml) : bool :=
  match y with YStr s => String.eqb s key | _ => false end.

(** [config[key]] on the entries of a mapping. *)
Fixpoint lookup_key (key : string) (entries : list (yaml * yaml))
  : option yaml :=
  match entries with
  | [] => None
  | (k, v) :: rest => if is_key key k then Some v else lookup_key key rest
  end.

(** [s1 in s2] on strings. *)
Definition is_substring (s1 s2 : string) : bool :=
  match String.index 0 s1 s2 with Some _ => true | None => false end.

(** One turn of the loop of lines 92-94: the servers of a group are
    appended when the value of the group is a list. *)
Definition extend_group (servers : list yaml) (group : yaml * yaml)
  : list yaml :=
  match snd group with
  | YList server_list => (servers ++ server_list)%list
  | _ => servers
  end.

(** Lines 91-94: the new value of [self.servers], or the exception. *)
Definition read_servers (servers : list yaml) (config : yaml)
  : fault + list yaml :=
  match config with
  | YMap entries =>
      match lookup_key "servers" entries with
      | None => inr servers
      | Some (YMap groups) => inr (fold_left extend_group groups servers)
      | Some other => inl (NoItems other)
      end
  | YList items =>
      if existsb (is_key "servers") items then inl (BadSubscript config)
      else inr servers
  | YStr s =>
      if is_substring "servers" s then inl (BadSubscript config)
      else inr servers
  | _ => inl (NotIterable config)
  end.

Section LoadConfig.

(** [str(e)] for the exceptions of [fault], in the wording of the Python
    in use. *)
Variable fault_text : fault -> string.

(** [load_config], lines 84-103, for the file [config_file], given what
    reading it gives and the initial [self.servers]. *)
Definition load_config (config_file : string) (source : config_source)
  (servers : list yaml) : M loading :=
  match source with
  | NotFound =>
      log (fstring ["Config file not found: "; config_file]) "error" ;;;
      ret (Exited 1)
  | Unreadable msg =>
      log (fstring ["Error loading config: "; msg]) "error" ;;;
      ret (Exited 1)
  | Parsed config =>
      match read_servers servers config with
      | inr loaded =>
          log (fstring ["Loaded ";
                        PyStr.str_of_int (Z.of_nat (length loaded));
                        " server(s) from config"]) "success" ;;;
          ret (Loaded loaded)
      | inl e =>
          log (fstring ["Error loading config: "; fault_text e]) "error" ;;;
          ret (Exited 1)
      end
  end.

End LoadConfig.

(** The servers of a group: the items of its value when it is a list. *)
Definition group_servers (group : yaml * yaml) : list yaml :=
  match snd group with YList server_list => server_list | _ => [] end.

(** An inventory with two groups of servers and a group that is not a
    list. *)
Definition inventory_groups : list (yaml * yaml) :=
  [ (YStr "web", YList [YMap [(YStr "name", YStr "web1")];
                        YMap [(YStr "name", YStr "web2")]]);
    (YStr "notes", YStr "to be decommissioned");
    (YStr "db", YList [YMap [(YStr "name", YStr "db1")]]) ].

Definition inventory_entries : list (yaml * yaml) :=
  [ (YStr "defaults", YMap [(YStr "ssh_user", YStr "root")]);
    (YStr "servers", YMap inventory_groups) ].

Definition plain_text (e : fault) : string := "TypeError".

(** ** The dashboard

    [web-dashboard.py] reads the files [save_results] writes. A response
    is the JSON payload with status 200, or the status 500, whose body, the
    text of the exception, is left out. *)

Inductive response (A : Type) :=
| Ok200 (payload : A)
| Error500.
Arguments Ok200 {A} payload.
Arguments Error500 {A}.

(** [sorted(history_dir.glob("*.json"), reverse=True)[:100]], line 578;
    the names of a directory are distinct, so the reverse sort is the sort
    reversed. *)
Definition newest_files (h : gmap string file) : list string :=
  take 100 (reverse (merge_sort name_le (json_names h))).

(** [api_history], lines 570-587, on the history directory [h]; on an
    empty directory it answers the empty list, as it does when the
    directory does not exist. A file that [json.load] does not accept makes
    the [except] clause answer with status 500. *)
Definition api_history (h : gmap string file) : response (list snapshot) :=
  match mapM (fun name => h !! name ≫= json_load) (newest_files h) with
  | Some loaded => Ok200 loaded
  | None => Error500
  end.

(** An inventory entry without the key ['ip']. *)
Definition srv_ghost : server :=
  {| srv_name := Some "ghost"; srv_ip := None; srv_type := None;
     srv_ssh_user := None; srv_ssh_port := None |}.

(** ** The steps of [save_results] *)

(** The state in which [save_results], started in [s], turns to the old
    records: both files are written. *)
Definition written (w : world) (results : list check_result) (s : sys) : sys :=
  {| tick := S (S (tick s)); issued := issued s; logged := logged s;
     current_json := Some (Whole {| snap_timestamp := now_iso w (tick s);
                                    snap_servers := results |});
     history := recorded w results s |}.

(** The state in which [save_results], started in [s], returns. *)
Definition saved (w : world) (output_dir : string)
  (results : list check_result) (s : sys) : sys :=
  {| tick := S (S (tick s)); issued := issued s;
     logged := logged s
               ++ [("success",
                    fstring ["Results saved to "; current_file output_dir])];
     current_json := Some (Whole {| snap_timestamp := now_iso w (tick s);
                                    snap_servers := results |});
     history := cleaned (recorded w results s) |}.

(** The state [s] once the files [names] are removed. *)
Definition without (names : list string) (s : sys) : sys :=
  {| tick := tick s; issued := issued s; logged := logged s;
     current_json := current_json s;
     history := delete_all names (history s) |}.

(** The file operations of one call of [save_results] started at time [t]
    all succeed. *)
Definition store_ok (w : world) (output_dir : string) (t : nat) : Prop :=
  open_error w (current_file output_dir) t = None
  /\ write_error w (current_file output_dir) t = None
  /\ open_error w (history_path output_dir (history_name w t)) (S t) = None
  /\ write_error w (history_path output_dir (history_name w t)) (S t) = None
  /\ (forall name,
        unlink_error w (history_path output_dir name) (S (S t)) = None).

(** The disk is full: the current file can still be written, and the write
    of the history file fails once the file is open. *)
Definition full_disk_world : world :=
  {| ping := fun _ _ => true;
     run := fun argv _ => refuse (List.last argv EmptyString);
     now_iso := fun _ => "2024-05-01T12:00:00";
     now_stamp := fun _ => "20240501_120000";
     open_error := fun _ _ => None;
     write_error := fun path _ =>
       if PyStr.ends_with "/current.json" path then None
       else Some "No space left on device";
     unlink_error := fun _ _ => None;
     interrupted := fun _ => false |}.

(** The second oldest record of [full_history] cannot be removed. *)
Definition sticky_world : world :=
  {| ping := fun _ _ => true;
     run := fun argv _ => refuse (List.last argv EmptyString);
     now_iso := fun _ => "2024-05-01T12:00:00";
     now_stamp := fun _ => "20240501_120000";
     open_error := fun _ _ => None;
     write_error := fun _ _ => None;
     unlink_error := fun path _ =>
       if PyStr.ends_with (old_name 1) path then Some "Permission denied"
       else None;
     interrupted := fun _ => false |}.

(** The record of the run that [save_results], started in [s], writes to
    the current file. *)
Definition current_record (w : world) (results : list check_result) (s : sys)
  : snapshot :=
  {| snap_timestamp := now_iso w (tick s); snap_servers := results |}.

(** Every record of the directory [h] is whole. *)
Definition all_whole (h : gmap string file) : Prop :=
  forall name, name ∈ json_names h -> exists snap, h !! name = Some (Whole snap).

(** Every file that [api_history] opens in the directory [h] holds a whole
    record. *)
Definition servable (h : gmap string file) : Prop :=
  Forall (fun name => exists snap, h !! name = Some (Whole snap))
    (newest_files h).

(** A directory in which the write of the newest of three records
    failed. *)
Definition torn_history : gmap string file :=
  <[old_name 2 := Partial]> (full_history 2).

(** ** What the loop over the hosts logs *)

(** The line the [except] clause of [run_checks] logs, line 379, for the
    server [srv] whose check raised [e]. *)
Definition error_line (srv : server) (e : exn) : string * string :=
  ("error",
   fstring ["Error checking "; default "None" (srv_name srv); ": ";
            exn_text e]).

(** The lines of the [except] clause for the hosts whose check raised, in
    the order of the hosts. *)
Definition error_lines (servers : list server)
  (outcomes : list (outcome check_result)) : list (string * string) :=
  omap (fun p => match snd p with
                 | Raise e => Some (error_line (fst p) e)
                 | Ret _ => None
                 end) (zip servers outcomes).

(** A program that only adds lines to the log. *)
Definition appends {A : Type} (m : M A) : Prop :=
  forall s, exists more, logged (snd (m s)) = (logged s ++ more)%list.

(** ** The output of a remote command *)

(** What [ssh_execute] returns, when it returns, for the command [command]
    that it runs on [srv] at time [t]: [None] without running anything for
    a server without address. *)
Definition remote_output (w : world) (srv : server) (command : string)
  (t : nat) : option string :=
  match nonempty (srv_ip srv) with
  | Some ip => ssh_answer (run w (ssh_argv srv ip command) t)
  | None => None
  end.

(** The outputs of the probes of the services [names], run one after the
    other from time [t] on. *)
Fixpoint probes (w : world) (srv : server) (names : list string) (t : nat)
  : list (option string) :=
  match names with
  | [] => []
  | name :: rest =>
      remote_output w srv (service_command name) t
      :: probes w srv rest (S t)
  end.

(** The time [t] is the time of the state [s], for a server whose commands
    are run; commands are not run, and take no time, for a server without
    address. *)
Definition in_step (srv : server) (t : nat) (s : sys) : Prop :=
  nonempty (srv_ip srv) = None \/ t = tick s.

(** The probe of [cron] says [inactive], the one of [nginx] says [active],
    and every other command is refused. *)
Definition cron_world : world :=
  make_world true
    (fun asked =>
       if String.eqb asked (service_command "cron")
       then Completed 0 "inactive" EmptyString
       else only (service_command "nginx") "active" asked)
    true.

(** The commands answer each in its own way: the uptime, a CPU figure that
    is not a number, the memory line of [mem85_output], the two rows of
    [two_disks_output]; every other command is refused. *)
Definition mixed_world : world :=
  make_world true
    (fun asked =>
       if String.eqb asked uptime_command
       then Completed 0 "up 3 days" EmptyString
       else if String.eqb asked cpu_command
       then Completed 0 "n/a" EmptyString
       else if String.eqb asked memory_command
       then Completed 0 mem85_output EmptyString
       else only disk_command two_disks_output asked)
    true.

(** What [check_server] returns for [srv_web] in that world. *)
Definition mixed_result : check_result :=
  reachable_result srv_web "2024-05-01T12:00:00"
    (collected (Some "up 3 days") None (Some mem85) (Some two_disks) None
       None None).

(** * Properties *)

Local Open Scope list_scope.

(** ** The Python primitives on known values *)

Example split_ws_ex :
  PyStr.split "  Mem:   1000 850	150 " = ["Mem:"; "1000"; "850"; "150"].
Proof. reflexivity. Qed.

Example split_on_ex :
  PyStr.split_on "|" "web|Up 2 hours|running" = ["web"; "Up 2 hours"; "running"]
  /\ PyStr.split_on "|" "a||" = ["a"; EmptyString; EmptyString]
  /\ PyStr.split_on "|" EmptyString = [EmptyString].
Proof. repeat apply conj; vm_compute; reflexivity. Qed.

Example int_ex :
  PyStr.int "97" = Some 97 /\ PyStr.int "-007" = Some (-7)
  /\ PyStr.int "1_000" = Some 1000 /\ PyStr.int "1__0" = None
  /\ PyStr.int EmptyString = None /\ PyStr.int "12a" = None /\ PyStr.int "_1" = None
  /\ PyStr.int "1_" = None /\ PyStr.int "+" = None.
Proof. repeat apply conj; vm_compute; reflexivity. Qed.

Example str_of_int_ex :
  PyStr.str_of_int 97 = "97" /\ PyStr.str_of_int 0 = "0"
  /\ PyStr.str_of_int (-120) = "-120" /\ PyStr.str_of_int 1000 = "1000".
Proof. repeat apply conj; vm_compute; reflexivity. Qed.

Example strip_ex :
  PyStr.strip "  up 3 days
" = "up 3 days" /\ PyStr.rstrip_char "%" "97%%" = "97"
  /\ PyStr.ends_with ".json" "20240101_000000.json" = true
  /\ PyStr.ends_with ".json" "json" = false.
Proof. repeat apply conj; vm_compute; reflexivity. Qed.

Example of_ratio_ex :
  PyFloat.of_ratio false 1 10 = PrimFloat.div 1 10
  /\ PyFloat.of_ratio false 851 10 = PrimFloat.div 851 10
  /\ PyFloat.of_ratio true 1 3 = PrimFloat.div (-1)%float 3%float
  /\ PyFloat.of_ratio false (2 ^ 53 + 1) 1 = 9007199254740992%float
  /\ PyFloat.of_ratio false (2 ^ 53 + 3) 1 = 9007199254740996%float
  /\ PyFloat.of_ratio false 1 (10 ^ 400) = zero
  /\ PyFloat.of_ratio false (10 ^ 400) 1 = infinity
  /\ PyFloat.of_ratio false 5 (10 ^ 324) = PrimFloat.next_up zero.
Proof. repeat apply conj; vm_compute; reflexivity. Qed.

Example float_of_string_ex :
  PyFloat.of_string "12.5" = Some 12.5%float
  /\ PyFloat.of_string " 85.1 " = Some (PrimFloat.div 851 10)
  /\ PyFloat.of_string "-1_0.2_5e1" = Some (-102.5)%float
  /\ PyFloat.of_string ".5" = Some 0.5%float
  /\ PyFloat.of_string "1." = Some 1%float
  /\ PyFloat.of_string "1E-2" = Some (PrimFloat.div 1 100)
  /\ PyFloat.of_string "125e-1" = Some 12.5%float
  /\ PyFloat.of_string "+Infinity" = Some infinity
  /\ PyFloat.of_string "." = None
  /\ PyFloat.of_string EmptyString = None
  /\ PyFloat.of_string "e5" = None
  /\ PyFloat.of_string "1_.5" = None
  /\ PyFloat.of_string "12.5%" = None
  /\ PyFloat.of_string "us," = None.
Proof. repeat apply conj; vm_compute; reflexivity. Qed.

Example round1_ex :
  PyFloat.round1 85%float = 85%float
  /\ PyFloat.round1 (PrimFloat.div 8504 100) = 85%float
  /\ PyFloat.round1 (PrimFloat.div 8506 100) = PrimFloat.div 851 10
  /\ PyFloat.round1 0.25%float = PrimFloat.div 2 10
  /\ PyFloat.round1 (PrimFloat.div 35 100) = PrimFloat.div 3 10
  /\ PyFloat.round1 (PrimFloat.div 2675 1000) = PrimFloat.div 27 10
  /\ PyFloat.round1 (PrimFloat.div (-4) 100) = neg_zero
  /\ PyFloat.round1 infinity = infinity.
Proof. repeat apply conj; vm_compute; reflexivity. Qed.

Example repr_ex :
  PyFloat.repr 85%float = "85.0"
  /\ PyFloat.repr (PrimFloat.div 851 10) = "85.1"
  /\ PyFloat.repr (PrimFloat.div 1 10) = "0.1"
  /\ PyFloat.repr (PrimFloat.div 1 3) = "0.3333333333333333"
  /\ PyFloat.repr (PrimFloat.div 2 3) = "0.6666666666666666"
  /\ PyFloat.repr (PrimFloat.add (PrimFloat.div 1 10) (PrimFloat.div 2 10))
     = "0.30000000000000004"
  /\ PyFloat.repr (PyFloat.of_ratio false (10 ^ 22) 1) = "1e+22"
  /\ PyFloat.repr (PyFloat.of_ratio false (10 ^ 23) 1) = "1e+23"
  /\ PyFloat.repr (PyFloat.of_ratio false (10 ^ 16) 1) = "1e+16"
  /\ PyFloat.repr (PyFloat.of_ratio false (10 ^ 15) 1) = "1000000000000000.0"
  /\ PyFloat.repr (PyFloat.of_ratio false 123456789012345678 1)
     = "1.2345678901234568e+17"
  /\ PyFloat.repr (PyFloat.of_ratio false 1 10000) = "0.0001"
  /\ PyFloat.repr (PyFloat.of_ratio true 1234 100000000) = "-1.234e-05"
  /\ PyFloat.repr (PrimFloat.next_up zero) = "5e-324"
  /\ PyFloat.repr (PrimFloat.next_down infinity) = "1.7976931348623157e+308"
  /\ PyFloat.repr (PyFloat.of_ratio false 9007199254740993 1)
     = "9007199254740992.0"
  /\ PyFloat.repr (PyFloat.of_ratio false (2 ^ 89) 1) = "6.189700196426902e+26"
  /\ PyFloat.repr neg_zero = "-0.0" /\ PyFloat.repr nan = "nan"
  /\ PyFloat.repr (PyFloat.of_ratio false 1 (2 ^ 1022))
     = "2.2250738585072014e-308"
  /\ PyFloat.repr 100%float = "100.0".
Proof. repeat apply conj; vm_compute; reflexivity. Qed.

Example memory_usage_of_ex :
  memory_usage_of (Some "Mem:           7821        3100        2345")
  = Some {| mem_total := 7821; mem_used := 3100; mem_free := 2345;
            mem_percent := PrimFloat.div 396 10 |}
  /\ memory_usage_of (Some "Mem: 0 0 0") = None
  /\ memory_usage_of (Some "Mem: 10 x 3") = None
  /\ memory_usage_of (Some "Mem: 10 3") = None
  /\ memory_usage_of (Some EmptyString) = None
  /\ memory_usage_of None = None.
Proof. repeat apply conj; vm_compute; reflexivity. Qed.

Example disk_usage_of_ex :
  disk_usage_of (Some "/dev/sda1 100G 97G 3G 97% /
/dev/sdb1 1T 10G
/dev/sdc1 20G 2G 18G n/a /srv
/dev/sdd1 50G 45G 5G 90% /data")
  = Some [ {| device := "/dev/sda1"; size := "100G"; used := "97G";
              available := "3G"; percent := 97; mount := "/" |};
           {| device := "/dev/sdd1"; size := "50G"; used := "45G";
              available := "5G"; percent := 90; mount := "/data" |} ]
  /\ disk_usage_of (Some "df: not found") = None.
Proof. repeat apply conj; vm_compute; reflexivity. Qed.

Example docker_containers_of_ex :
  docker_containers_of (Some "web|Up 2 hours|running
db|Exited (0) 3 days ago|exited
odd|line
cache|Up 5 minutes|running")
  = Some {| total := 3; running := 2; stopped := 1;
            containers :=
              [ {| c_name := "web"; c_status := "Up 2 hours";
                   c_state := "running" |};
                {| c_name := "db"; c_status := "Exited (0) 3 days ago";
                   c_state := "exited" |};
                {| c_name := "cache"; c_status := "Up 5 minutes";
                   c_state := "running" |} ] |}
  /\ docker_containers_of (Some "NOT_INSTALLED") = None.
Proof. repeat apply conj; vm_compute; reflexivity. Qed.


(** ** The order of file names is a total order *)

Lemma ascii_compare_lt_trans (a b c : ascii) :
  Ascii.compare a b = Lt -> Ascii.compare b c = Lt -> Ascii.compare a c = Lt.
Proof. unfold Ascii.compare. rewrite !N.compare_lt_iff. lia. Qed.

Lemma ascii_compare_refl (a : ascii) : Ascii.compare a a = Eq.
Proof. unfold Ascii.compare. apply N.compare_refl. Qed.

Lemma string_compare_refl (a : string) : String.compare a a = Eq.
Proof.
  pose proof (String.compare_antisym a a) as H.
  destruct (String.compare a a); simpl in H; congruence.
Qed.

Lemma string_compare_lt_trans (a b c : string) :
  String.compare a b = Lt -> String.compare b c = Lt ->
  String.compare a c = Lt.
Proof.
  revert b c. induction a as [|x a IH]; intros [|y b] [|z c]; simpl;
    try congruence.
  destruct (Ascii.compare x y) eqn:Hxy; try discriminate;
    destruct (Ascii.compare y z) eqn:Hyz; try discriminate; intros Hab Hbc.
  - apply Ascii.compare_eq_iff in Hxy, Hyz. subst.
    rewrite ascii_compare_refl. eauto.
  - apply Ascii.compare_eq_iff in Hxy. subst. now rewrite Hyz.
  - apply Ascii.compare_eq_iff in Hyz. subst. now rewrite Hxy.
  - now rewrite (ascii_compare_lt_trans x y z).
Qed.

Lemma name_le_cases (a b : string) :
  name_le a b <-> a = b \/ String.compare a b = Lt.
Proof.
  unfold name_le, String.leb. split.
  - destruct (String.compare a b) eqn:H; try discriminate; auto.
    left. now apply String.compare_eq_iff.
  - intros [-> | ->]; [now rewrite string_compare_refl | reflexivity].
Qed.

Lemma name_lt_iff (a b : string) : name_lt a b <-> name_le a b /\ a <> b.
Proof.
  rewrite name_le_cases. unfold name_lt, String.ltb. split.
  - destruct (String.compare a b) eqn:H; try discriminate. intros _.
    split; [now right|]. intros ->. rewrite string_compare_refl in H.
    discriminate.
  - intros [[-> | ->] Hne]; [congruence | reflexivity].
Qed.

#[global] Instance name_le_total : Total name_le.
Proof. intros a b. apply String.leb_total. Qed.

#[global] Instance name_le_trans : Transitive name_le.
Proof.
  intros a b c. rewrite !name_le_cases.
  intros [-> | Hab] [-> | Hbc]; eauto using string_compare_lt_trans.
Qed.

#[global] Instance name_le_antisymm : AntiSymm eq name_le.
Proof. intros a b. apply String.leb_antisym. Qed.

(** ** Reasoning about the monad *)

Lemma bind_Ret {A B : Type} (m : M A) (f : A -> M B) s b s' :
  bind m f s = (Ret b, s') ->
  exists a s1, m s = (Ret a, s1) /\ f a s1 = (Ret b, s').
Proof.
  unfold bind. destruct (m s) as [[a | e] s1]; [eauto | discriminate].
Qed.

Lemma bind_Raise {A B : Type} (m : M A) (f : A -> M B) s e s' :
  bind m f s = (Raise e, s') ->
  m s = (Raise e, s') \/ exists a s1, m s = (Ret a, s1) /\ f a s1 = (Raise e, s').
Proof.
  unfold bind. destruct (m s) as [[a | e1] s1]; [eauto | left; congruence].
Qed.

Lemma bind_step {A B : Type} (m : M A) (f : A -> M B) s a s1 :
  m s = (Ret a, s1) -> bind m f s = f a s1.
Proof. unfold bind. now intros ->. Qed.

Lemma bind_fail {A B : Type} (m : M A) (f : A -> M B) s e s1 :
  m s = (Raise e, s1) -> bind m f s = (Raise e, s1).
Proof. unfold bind. now intros ->. Qed.

Lemma log_step (message level : string) s :
  log message level s
  = (Ret tt,
     {| tick := tick s; issued := issued s;
        logged := logged s ++ [(level, message)];
        current_json := current_json s; history := history s |}).
Proof. reflexivity. Qed.

(** ** Threshold evaluation *)

Lemma check_disk_status (v : verdict) (d : disk) :
  fst (check_disk v d)
  = if 85 <? percent d then (if 95 <? percent d then critical else warning)
    else fst v.
Proof. unfold check_disk. destruct (85 <? percent d); reflexivity. Qed.

(** The status after the loop over the disks is the one the last disk
    above 85 percent sets, whatever came before it. *)
Lemma check_disk_last_wins (disks : list disk) (v : verdict) :
  fst (fold_left check_disk disks v)
  = match last_high disks with
    | Some d => if 95 <? percent d then critical else warning
    | None => fst v
    end.
Proof.
  unfold last_high. revert v.
  induction disks as [|d disks IH] using rev_ind; intros v; [reflexivity|].
  rewrite fold_left_app. simpl. rewrite check_disk_status, filter_app.
  rewrite map_app. rewrite filter_cons, filter_nil.
  destruct (decide (85 < percent d)) as [Hd | Hd].
  - simpl. rewrite last_last.
    destruct (85 <? percent d) eqn:E; [reflexivity | lia].
  - simpl. rewrite app_nil_r, <- IH.
    destruct (85 <? percent d) eqn:E; [lia | reflexivity].
Qed.

(** C1, at the input that refutes it: with a disk at 97 percent followed by
    a disk at 90 percent the status is [warning], not [critical], both in
    the evaluation alone and in the result of [check_server] on a reachable
    host whose [df] shows these two rows. *)
Theorem later_disk_lowers_critical :
  evaluate {[ "disk" := MDisks two_disks ]}
  = (warning, ["High Disk (/): 97%"; "High Disk (/data): 90%"])
  /\ (exists r s',
        check_server two_disks_world false srv_web start = (Ret r, s')
        /\ res_metrics r !! "disk" = Some (MDisks two_disks)
        /\ res_status r = warning
        /\ res_warnings r
           = Some ["High Disk (/): 97%"; "High Disk (/data): 90%"]).
Proof.
  split; [vm_compute; reflexivity|].
  eexists _, _. split; [vm_compute; reflexivity|].
  repeat apply conj; vm_compute; reflexivity.
Qed.

Lemma check_disk_quiet (disks : list disk) (v : verdict) :
  existsb (fun d => 85 <? percent d) disks = false ->
  fold_left check_disk disks v = v.
Proof.
  revert v. induction disks as [|d disks IH]; intros v; simpl; [reflexivity|].
  intros [Hd Hrest]%orb_false_elim. unfold check_disk at 2. rewrite Hd. auto.
Qed.

(** C7, the example as the specification gives it, refuted: the line parses
    to 85.0 percent, and a reachable host on which only the memory command
    answers, with that line, is [healthy] and has no warning. *)
Lemma memory_at_85_not_warned :
  memory_usage_of (Some mem85_output) = Some mem85
  /\ exists r s',
       check_server (make_world true (only memory_command mem85_output) true)
         false srv_web start = (Ret r, s')
       /\ res_metrics r !! "memory" = Some (MMemory mem85)
       /\ res_status r = healthy
       /\ res_warnings r = Some []
       /\ ~ (exists ws, res_warnings r = Some ws /\ In "High Memory: 85.0%" ws).
Proof.
  split; [vm_compute; reflexivity|].
  eexists _, _. split; [vm_compute; reflexivity|].
  repeat apply conj; try (vm_compute; reflexivity).
  intros (ws & Hws & Hin). vm_compute in Hws. inversion Hws. subst ws.
  destruct Hin.
Qed.

(** C7 as amended: the line [Mem: 1000 850 150] parses to total 1000, used
    850, free 150 and percent 85.0, printed [85.0]; the memory threshold is
    strict, so metrics that hold this memory value and trigger neither the
    CPU nor a disk check evaluate to [healthy] with no warning. *)
Theorem memory_threshold_is_strict (metrics : gmap string metric) :
  metrics !! "memory" = Some (MMemory mem85) ->
  cpu_triggers metrics = false ->
  disk_triggers metrics = false ->
  memory_usage_of (Some mem85_output) = Some mem85
  /\ PyFloat.repr (mem_percent mem85) = "85.0"
  /\ evaluate metrics = (healthy, []).
Proof.
  intros Hmem Hcpu Hdisk.
  split; [vm_compute; reflexivity|]. split; [vm_compute; reflexivity|].
  unfold evaluate.
  assert (check_cpu metrics (healthy, []) = (healthy, [])) as ->.
  { unfold check_cpu. unfold cpu_triggers in Hcpu.
    destruct (metrics !! "cpu") as [[]|]; try reflexivity. now rewrite Hcpu. }
  assert (check_memory metrics (healthy, []) = (healthy, [])) as ->.
  { unfold check_memory. rewrite Hmem. reflexivity. }
  unfold check_disks. unfold disk_triggers in Hdisk.
  destruct (metrics !! "disk") as [[]|]; try reflexivity.
  now apply check_disk_quiet.
Qed.

Lemma memory_threshold_is_strict_witness :
  memory_usage_of (Some mem85_output) = Some mem85
  /\ PyFloat.repr (mem_percent mem85) = "85.0"
  /\ evaluate {[ "memory" := MMemory mem85; "cpu" := MNumber 12.5%float ]}
     = (healthy, []).
Proof.
  apply (memory_threshold_is_strict
           {[ "memory" := MMemory mem85; "cpu" := MNumber 12.5%float ]});
    vm_compute; reflexivity.
Defined.

(** One tenth of a percent more and the warning appears. *)
Lemma memory_above_85_warned :
  memory_usage_of (Some "Mem: 1000 851 149")
  = Some {| mem_total := 1000; mem_used := 851; mem_free := 149;
            mem_percent := PrimFloat.div 851 10 |}
  /\ evaluate {[ "memory" := MMemory {| mem_total := 1000; mem_used := 851;
                                        mem_free := 149;
                                        mem_percent := PrimFloat.div 851 10 |} ]}
     = (warning, ["High Memory: 85.1%"]).
Proof. split; vm_compute; reflexivity. Qed.

(** ** Collectors *)

Lemma count_of_snoc {A : Type} (p : A -> bool) (l : list A) (x : A) :
  count_of p (l ++ [x]) = count_of p l + (if p x then 1 else 0).
Proof.
  unfold count_of. rewrite filter_app, length_app, filter_cons, filter_nil.
  destruct (decide (p x = true)) as [Hp | Hp]; destruct (p x); simpl;
    try congruence; lia.
Qed.

Lemma docker_step_inv (acc : docker_acc) (line : string) :
  docker_inv acc -> docker_inv (docker_step acc line).
Proof.
  intros [Hrun Hstop]. unfold docker_step.
  destruct (negb (PyStr.contains "|" line)); [now split|].
  destruct (PyStr.split_on "|" line) as [|name [|status [|state rest]]];
    try now split.
  unfold docker_inv. simpl. rewrite !count_of_snoc. unfold is_running at 2 4.
  simpl. destruct (String.eqb state "running"); simpl; split; lia.
Qed.

Lemma docker_fold_inv (lines : list string) (acc : docker_acc) :
  docker_inv acc -> docker_inv (fold_left docker_step lines acc).
Proof.
  revert acc. induction lines as [|line lines IH]; intros acc H; simpl;
    auto using docker_step_inv.
Qed.

Lemma count_of_partition {A : Type} (p : A -> bool) (l : list A) :
  count_of p l + count_of (fun x => negb (p x)) l = Z.of_nat (length l).
Proof.
  induction l as [|x l IH] using rev_ind; [reflexivity|].
  rewrite !count_of_snoc, length_app. simpl. destruct (p x); simpl; lia.
Qed.

Lemma docker_containers_of_counts (output : option string) (d : docker) :
  docker_containers_of output = Some d ->
  total d = Z.of_nat (length (containers d))
  /\ total d = running d + stopped d
  /\ running d = count_of is_running (containers d)
  /\ stopped d = count_of (fun c => negb (is_running c)) (containers d).
Proof.
  unfold docker_containers_of.
  destruct (nonempty output) as [o|]; [|discriminate].
  destruct (String.eqb o "NOT_INSTALLED"); [discriminate|].
  intros [= <-]. simpl.
  destruct (docker_fold_inv (PyStr.split_on newline o)
              {| acc_containers := []; acc_running := 0; acc_stopped := 0 |})
    as [Hrun Hstop]; [now split|].
  rewrite Hrun, Hstop. repeat split.
  symmetry. apply count_of_partition.
Qed.

(** C9: a container bundle that [get_docker_containers] returns has [total]
    equal to the number of its items and to [running + stopped], where
    [running] counts the items whose state is [running] and [stopped] the
    others. *)
Theorem docker_counts_consistent (w : world) (verbose : bool) (srv : server)
  (s s' : sys) (d : docker) :
  get_docker_containers w verbose srv s = (Ret (Some d), s') ->
  total d = Z.of_nat (length (containers d))
  /\ total d = running d + stopped d
  /\ running d = count_of is_running (containers d)
  /\ stopped d = count_of (fun c => negb (is_running c)) (containers d).
Proof.
  unfold get_docker_containers. intros (output & s1 & _ & H)%bind_Ret.
  unfold ret in H. injection H as H _.
  now apply (docker_containers_of_counts output).
Qed.

Lemma docker_counts_consistent_witness :
  get_docker_containers docker_world false srv_web start
  = (Ret (Some docker_bundle),
     snd (get_docker_containers docker_world false srv_web start))
  /\ total docker_bundle = Z.of_nat (length (containers docker_bundle))
  /\ total docker_bundle = running docker_bundle + stopped docker_bundle
  /\ running docker_bundle = count_of is_running (containers docker_bundle)
  /\ stopped docker_bundle
     = count_of (fun c => negb (is_running c)) (containers docker_bundle).
Proof.
  assert (get_docker_containers docker_world false srv_web start
          = (Ret (Some docker_bundle),
             snd (get_docker_containers docker_world false srv_web start)))
    as H by (vm_compute; reflexivity).
  split; [exact H|].
  exact (docker_counts_consistent docker_world false srv_web start _
           docker_bundle H).
Defined.

Lemma nonempty_list_not_nil {A : Type} (l : list A) :
  nonempty_list l <> Some [].
Proof. destruct l; discriminate. Qed.

Lemma disk_usage_of_not_nil (output : option string) :
  disk_usage_of output <> Some [].
Proof.
  unfold disk_usage_of. destruct (nonempty output); [|discriminate].
  apply nonempty_list_not_nil.
Qed.

(** C10: neither the disk collector nor the service collector returns an
    empty list; without a row or a service to report they return [None]. *)
Theorem disk_and_services_never_empty (w : world) (verbose : bool)
  (srv : server) (services : option (list string)) (s : sys) :
  fst (get_disk_usage w verbose srv s) <> Ret (Some [])
  /\ fst (get_services_status w verbose srv services s) <> Ret (Some []).
Proof.
  split.
  - unfold get_disk_usage, bind.
    destruct (ssh_execute w verbose srv disk_command s) as [[o | e] s1];
      simpl; [|discriminate].
    intros [= H]. now apply disk_usage_of_not_nil in H.
  - unfold get_services_status, bind.
    match goal with
    | |- context [for_each ?l ?f ?a s] =>
        destruct (for_each l f a s) as [[results | e] s1]
    end; simpl; [|discriminate].
    intros [= H]. now apply nonempty_list_not_nil in H.
Qed.

(** Both collectors do return [None] when there is nothing to report, and
    a list when there is; the service collector probes every service it is
    given, the only one of a list of one too, and the default ones when it
    is given an empty list. *)
Lemma disk_and_services_examples :
  fst (get_disk_usage (make_world true (only disk_command "df: command not found") true)
         false srv_web start) = Ret None
  /\ fst (get_services_status (make_world true (fun _ => Completed 0 "not-found" EmptyString) true)
            false srv_web None start) = Ret None
  /\ fst (get_services_status (make_world true (only (service_command "nginx") "active") true)
            false srv_web None start)
     = Ret (Some [{| svc_name := "nginx"; svc_status := "active";
                     svc_running := true |}])
  /\ get_services_status cron_world false srv_web (Some ["cron"]) start
     = (Ret (Some [{| svc_name := "cron"; svc_status := "inactive";
                      svc_running := false |}]),
        {| tick := 1;
           issued := [ssh_argv srv_web "10.0.0.5" (service_command "cron")];
           logged := []; current_json := None; history := ∅ |})
  /\ fst (get_services_status cron_world false srv_web
            (Some ["cron"; "nginx"; "redis"]) start)
     = Ret (Some [{| svc_name := "cron"; svc_status := "inactive";
                     svc_running := false |};
                  {| svc_name := "nginx"; svc_status := "active";
                     svc_running := true |}])
  /\ fst (get_services_status cron_world false srv_web (Some ["redis"]) start)
     = Ret None
  /\ fst (get_services_status cron_world false srv_web (Some []) start)
     = fst (get_services_status cron_world false srv_web None start).
Proof. repeat apply conj; vm_compute; reflexivity. Qed.

(** ** Remote execution *)

(** [ssh_execute] raises only through [server['name']] in a verbose log
    line: in verbose mode, for an entry without a name. *)
Lemma ssh_execute_Raise (w : world) (verbose : bool) (srv : server)
  (command : string) (s s' : sys) (e : exn) :
  ssh_execute w verbose srv command s = (Raise e, s') ->
  e = KeyError "name" /\ verbose = true /\ srv_name srv = None.
Proof.
  unfold ssh_execute. destruct (nonempty (srv_ip srv)) as [ip|];
    [|discriminate].
  unfold try_except, bind, subprocess_run, when, item_name, ret, raise, log.
  destruct (run w _ (tick s)) as [rc out err | | msg]; simpl.
  - destruct (rc =? 0); [discriminate|].
    destruct verbose; [|discriminate].
    destruct (srv_name srv); simpl; [discriminate|].
    intros [= <- _]. auto.
  - destruct verbose; [|discriminate].
    destruct (srv_name srv); simpl; [discriminate|].
    intros [= <- _]. auto.
  - destruct verbose; [|discriminate].
    destruct (srv_name srv); simpl; [discriminate|].
    intros [= <- _]. auto.
Qed.

(** The remote commands issued by [ssh_execute] are appended to the ones
    issued before. *)
Lemma ssh_execute_issued (w : world) (verbose : bool) (srv : server)
  (command : string) (s : sys) :
  exists more, issued (snd (ssh_execute w verbose srv command s))
               = issued s ++ more.
Proof.
  unfold ssh_execute. destruct (nonempty (srv_ip srv)) as [ip|].
  2: { exists []. simpl. now rewrite app_nil_r. }
  unfold try_except, bind, subprocess_run, when, item_name, ret, raise, log.
  eexists [_].
  destruct (run w _ (tick s)) as [rc out err | | msg]; simpl;
    try destruct (rc =? 0); destruct verbose; simpl;
    destruct (srv_name srv); simpl; reflexivity.
Qed.

Lemma for_each_services_Ret (w : world) (verbose : bool) (srv : server)
  (names : list string) (acc results : list service) (s s' : sys) :
  for_each names
    (fun results service =>
       output <- ssh_execute w verbose srv (service_command service) ;;
       ret (service_step results service output)) acc s
  = (Ret results, s') ->
  exists outputs,
    length outputs = length names
    /\ results
       = fold_left (fun results p => service_step results (fst p) (snd p))
           (zip names outputs) acc.
Proof.
  revert acc s. induction names as [|name names IH]; intros acc s; simpl.
  - intros [= <- _]. now exists [].
  - intros (acc' & s1 & Hstep & Hrest)%bind_Ret.
    apply bind_Ret in Hstep as (output & s2 & _ & Hret).
    injection Hret as <- _.
    apply IH in Hrest as (outputs & Hlen & ->).
    exists (output :: outputs). simpl. auto.
Qed.

Lemma for_each_services_Raise (w : world) (verbose : bool) (srv : server)
  (names : list string) (acc : list service) (s s' : sys) (e : exn) :
  for_each names
    (fun results service =>
       output <- ssh_execute w verbose srv (service_command service) ;;
       ret (service_step results service output)) acc s
  = (Raise e, s') ->
  e = KeyError "name" /\ verbose = true /\ srv_name srv = None.
Proof.
  revert acc s. induction names as [|name names IH]; intros acc s; simpl;
    [discriminate|].
  intros [Hstep | (acc' & s1 & _ & Hrest)]%bind_Raise; [|eauto].
  apply bind_Raise in Hstep as [Hssh | (o & s1 & _ & Hret)];
    [eauto using ssh_execute_Raise | discriminate].
Qed.

(** A collector is a remote command followed by a total function of its
    output: it returns what the function gives, and raises only when
    [ssh_execute] does. *)
Lemma collect_Ret {A : Type} (w : world) (verbose : bool) (srv : server)
  (command : string) (f : option string -> A) (s s' : sys) (x : A) :
  (output <- ssh_execute w verbose srv command ;; ret (f output)) s
  = (Ret x, s') ->
  exists output, x = f output.
Proof.
  intros (output & s1 & _ & H)%bind_Ret. injection H as <- _. eauto.
Qed.

Lemma collect_Raise {A : Type} (w : world) (verbose : bool) (srv : server)
  (command : string) (f : option string -> A) (s s' : sys) (e : exn) :
  (output <- ssh_execute w verbose srv command ;; ret (f output)) s
  = (Raise e, s') ->
  e = KeyError "name" /\ verbose = true /\ srv_name srv = None.
Proof.
  intros [H | (o & s1 & _ & H)]%bind_Raise;
    [eauto using ssh_execute_Raise | discriminate].
Qed.

Lemma get_services_status_Ret (w : world) (verbose : bool) (srv : server)
  (s s' : sys) (services : option (list service)) :
  get_services_status w verbose srv None s = (Ret services, s') ->
  exists outputs,
    length outputs = length default_services
    /\ services = services_from default_services outputs.
Proof.
  unfold get_services_status. intros (results & s1 & Hloop & H)%bind_Ret.
  injection H as <- _.
  apply for_each_services_Ret in Hloop as (outputs & Hlen & ->). eauto.
Qed.

Lemma get_services_status_Raise (w : world) (verbose : bool) (srv : server)
  (given : option (list string)) (s s' : sys) (e : exn) :
  get_services_status w verbose srv given s = (Raise e, s') ->
  e = KeyError "name" /\ verbose = true /\ srv_name srv = None.
Proof.
  unfold get_services_status.
  intros [H | (o & s1 & _ & H)]%bind_Raise;
    [eauto using for_each_services_Raise | discriminate].
Qed.

(** ** The check of one host *)

(** The two shapes of a result of [check_server]: the initial dictionary,
    returned before any remote command, or the dictionary filled from the
    outputs of the seven collectors. *)
Lemma check_server_Ret (w : world) (verbose : bool) (srv : server)
  (s s' : sys) (r : check_result) :
  check_server w verbose srv s = (Ret r, s') ->
  (r = unreachable_result srv (now_iso w (tick s)) /\ issued s' = issued s)
  \/ (exists o1 o2 o3 o4 o5 o6 outputs,
        length outputs = length default_services
        /\ r = reachable_result srv (now_iso w (tick s))
                 (collected (uptime_of o1) (cpu_usage_of o2)
                    (memory_usage_of o3) (disk_usage_of o4)
                    (load_average_of o5) (docker_containers_of o6)
                    (services_from default_services outputs))).
Proof.
  unfold check_server.
  intros ([] & s1 & Hlog & H)%bind_Ret.
  rewrite log_step in Hlog. simplify_eq.
  apply bind_Ret in H as (ts & s2 & Hts & H).
  unfold isoformat_now in Hts. simplify_eq/=.
  apply bind_Ret in H as (reach & s3 & Hreach & H).
  destruct reach; simpl in H.
  - right.
    apply bind_Ret in H as (uptime & s4 & (o1 & ->)%collect_Ret & H).
    apply bind_Ret in H as (cpu & s5 & (o2 & ->)%collect_Ret & H).
    apply bind_Ret in H as (mem & s6 & (o3 & ->)%collect_Ret & H).
    apply bind_Ret in H as (disks & s7 & (o4 & ->)%collect_Ret & H).
    apply bind_Ret in H as (avg & s8 & (o5 & ->)%collect_Ret & H).
    apply bind_Ret in H as (dock & s9 & (o6 & ->)%collect_Ret & H).
    apply bind_Ret in H
      as (services & s10 & (outputs & Hlen & ->)%get_services_status_Ret & H).
    apply bind_Ret in H as ([] & s11 & _ & H). unfold ret in H. simplify_eq.
    exists o1, o2, o3, o4, o5, o6, outputs. split; [exact Hlen | reflexivity].
  - left.
    apply bind_Ret in H as ([] & s4 & Hlog & H).
    rewrite log_step in Hlog. unfold ret in H. simplify_eq.
    split; [reflexivity|]. simpl.
    unfold check_server_reachable, ret in Hreach.
    destruct (srv_ip srv); simplify_eq; reflexivity.
Qed.

(** [check_server] raises only the [KeyError] of [ssh_execute]. *)
Lemma check_server_Raise (w : world) (verbose : bool) (srv : server)
  (s s' : sys) (e : exn) :
  check_server w verbose srv s = (Raise e, s') ->
  e = KeyError "name" /\ verbose = true /\ srv_name srv = None.
Proof.
  unfold check_server.
  intros [H | ([] & s1 & _ & H)]%bind_Raise; [discriminate|].
  apply bind_Raise in H as [H | (ts & s2 & _ & H)]; [discriminate|].
  apply bind_Raise in H as [H | (reach & s3 & _ & H)].
  { unfold check_server_reachable in H. destruct (srv_ip srv); discriminate. }
  destruct reach; simpl in H.
  2: { apply bind_Raise in H as [H | ([] & s4 & _ & H)]; discriminate. }
  repeat (apply bind_Raise in H as [H | (? & ? & _ & H)];
          [solve [eauto using collect_Raise, get_services_status_Raise]|]).
  apply bind_Raise in H as [H | ([] & ? & _ & H)]; [|discriminate].
  match type of H with
  | context [match ?h with _ => _ end] => destruct h
  end; discriminate.
Qed.

(** C3: a result of [check_server] with [reachable] false has status
    [down] and an empty [metrics] dictionary, and no remote command was
    issued while it was produced, so no collector ran. *)
Theorem unreachable_means_down (w : world) (verbose : bool) (srv : server)
  (s s' : sys) (r : check_result) :
  check_server w verbose srv s = (Ret r, s') ->
  res_reachable r = false ->
  res_status r = down
  /\ res_metrics r = ∅
  /\ (forall key, res_metrics r !! key = None)
  /\ issued s' = issued s.
Proof.
  intros [[-> Hissued] | (o1 & o2 & o3 & o4 & o5 & o6 & outputs & _ & ->)]%check_server_Ret
    Hreach; [|discriminate].
  split; [reflexivity|]. split; [reflexivity|].
  split; [intros key; apply lookup_empty | exact Hissued].
Qed.

Lemma unreachable_means_down_witness :
  check_server dead_world true srv_web start
  = (Ret (unreachable_result srv_web "2024-05-01T12:00:00"),
     snd (check_server dead_world true srv_web start))
  /\ res_status (unreachable_result srv_web "2024-05-01T12:00:00") = down
  /\ res_metrics (unreachable_result srv_web "2024-05-01T12:00:00") = ∅
  /\ (forall key,
        res_metrics (unreachable_result srv_web "2024-05-01T12:00:00") !! key
        = None)
  /\ issued (snd (check_server dead_world true srv_web start)) = issued start.
Proof.
  assert (check_server dead_world true srv_web start
          = (Ret (unreachable_result srv_web "2024-05-01T12:00:00"),
             snd (check_server dead_world true srv_web start)))
    as H by (vm_compute; reflexivity).
  split; [exact H|].
  exact (unreachable_means_down dead_world true srv_web start _ _ H eq_refl).
Defined.

(** C8, refuted for the host that does not answer: its result has no
    ['warnings'] key. *)
Lemma unreachable_result_lacks_warnings :
  exists r s',
    check_server dead_world false srv_web start = (Ret r, s')
    /\ res_reachable r = false
    /\ res_status r = down
    /\ res_warnings r = None.
Proof.
  eexists _, _. split; [vm_compute; reflexivity|]. repeat split.
Qed.

(** C8 as amended: a result of [check_server] always has the keys [name],
    [ip], [type], [timestamp], [reachable], [status] and [metrics] (the
    fields of [check_result]); the key [warnings] is present exactly when
    the host is reachable, and then it holds the list of warnings of the
    evaluation of the metrics. *)
Theorem warnings_iff_reachable (w : world) (verbose : bool) (srv : server)
  (s s' : sys) (r : check_result) :
  check_server w verbose srv s = (Ret r, s') ->
  res_warnings r
  = if res_reachable r then Some (snd (evaluate (res_metrics r))) else None.
Proof.
  intros [[-> _] | (o1 & o2 & o3 & o4 & o5 & o6 & outputs & _ & ->)]%check_server_Ret;
    reflexivity.
Qed.

Lemma warnings_iff_reachable_witness :
  check_server two_disks_world false srv_web start
  = (Ret two_disks_result,
     snd (check_server two_disks_world false srv_web start))
  /\ res_warnings two_disks_result
     = if res_reachable two_disks_result
       then Some (snd (evaluate (res_metrics two_disks_result)))
       else None.
Proof.
  assert (check_server two_disks_world false srv_web start
          = (Ret two_disks_result,
             snd (check_server two_disks_world false srv_web start)))
    as H by (vm_compute; reflexivity).
  split; [exact H|].
  exact (warnings_iff_reachable two_disks_world false srv_web start _ _ H).
Defined.

(** ** Collectors on empty and malformed output *)

Lemma cpu_usage_of_malformed (t : string) :
  cpu_malformed t -> cpu_usage_of (Some t) = None.
Proof. unfold cpu_malformed, cpu_usage_of. destruct t; simpl; auto. Qed.

Lemma memory_usage_of_malformed (t : string) :
  memory_malformed t -> memory_usage_of (Some t) = None.
Proof.
  unfold memory_malformed, memory_usage_of. destruct t as [|c t]; [reflexivity|].
  simpl nonempty. cbv beta iota zeta. generalize (PyStr.split (String c t)).
  intros parts H.
  destruct (parts !! 1%nat ≫= PyStr.int) as [total|]; simpl; [|reflexivity].
  destruct (parts !! 2%nat ≫= PyStr.int) as [used|]; simpl; [|reflexivity].
  destruct (parts !! 3%nat ≫= PyStr.int) as [free|]; simpl; [|reflexivity].
  destruct H as [H | [H | [H | H]]]; try discriminate.
  injection H as ->. reflexivity.
Qed.

Lemma load_average_of_malformed (t : string) :
  load_malformed t -> load_average_of (Some t) = None.
Proof.
  unfold load_malformed, load_average_of. destruct t as [|c t]; [reflexivity|].
  simpl nonempty. cbv beta iota zeta. generalize (PyStr.split (String c t)).
  intros parts H.
  destruct (parts !! 0%nat ≫= PyFloat.of_string); simpl; [|reflexivity].
  destruct (parts !! 1%nat ≫= PyFloat.of_string); simpl; [|reflexivity].
  destruct (parts !! 2%nat ≫= PyFloat.of_string); simpl; [|reflexivity].
  destruct H as [H | [H | H]]; discriminate.
Qed.

Lemma disk_step_malformed (line : string) :
  disk_row_malformed line -> disk_step [] line = [].
Proof.
  unfold disk_row_malformed, disk_step.
  destruct (PyStr.split line) as [|? [|? [|? [|? [|p4 [|? ?]]]]]]; auto.
  now intros ->.
Qed.

Lemma disk_usage_of_malformed (t : string) :
  disk_malformed t -> disk_usage_of (Some t) = None.
Proof.
  unfold disk_malformed, disk_usage_of. destruct t as [|c t]; [reflexivity|].
  simpl nonempty. cbv beta iota.
  generalize (PyStr.split_on newline (String c t)). intros lines H.
  assert (fold_left disk_step lines [] = []) as ->; [|reflexivity].
  induction H as [|line lines Hline _ IH]; simpl; [reflexivity|].
  now rewrite disk_step_malformed.
Qed.

Lemma collectors_on_empty (o : option string) :
  nonempty o = None ->
  uptime_of o = Some "Unknown"
  /\ cpu_usage_of o = None
  /\ memory_usage_of o = None
  /\ disk_usage_of o = None
  /\ load_average_of o = None
  /\ docker_containers_of o = None
  /\ (forall results name, service_step results name o = results).
Proof.
  intros H.
  unfold uptime_of, cpu_usage_of, memory_usage_of, disk_usage_of,
    load_average_of, docker_containers_of, service_step.
  rewrite H. repeat split.
Qed.

(** [check_server] returns whenever the verbose log lines can name the
    server. *)
Lemma check_server_returns (w : world) (verbose : bool) (srv : server)
  (s : sys) :
  verbose = false \/ srv_name srv <> None ->
  exists r s', check_server w verbose srv s = (Ret r, s').
Proof.
  intros Hok.
  destruct (check_server w verbose srv s) as [[r | e] s'] eqn:H; [eauto|].
  apply check_server_Raise in H as (_ & Hv & Hn).
  destruct Hok; congruence.
Qed.

(** ** Each collector reads the output of its own command *)

Lemma in_step_now (srv : server) (s : sys) : in_step srv (tick s) s.
Proof. now right. Qed.

(** When [ssh_execute] returns, it returns the output of the command it
    was given, run at the time of the call; the next command runs one step
    later. *)
Lemma ssh_execute_Ret (w : world) (verbose : bool) (srv : server)
  (command : string) (s s' : sys) (o : option string) (t : nat) :
  in_step srv t s ->
  ssh_execute w verbose srv command s = (Ret o, s') ->
  o = remote_output w srv command t /\ in_step srv (S t) s'.
Proof.
  unfold in_step, remote_output, ssh_execute, ssh_argv.
  destruct (nonempty (srv_ip srv)) as [ip|].
  2: { intros _ [= <- <-]. auto. }
  intros [? | ->]; [discriminate|].
  unfold try_except, bind, subprocess_run, when, item_name, ret, raise, log,
    ssh_answer.
  destruct (run w _ (tick s)) as [rc out err | | msg]; simpl;
    try destruct (rc =? 0); simpl;
    destruct verbose; simpl;
    try (destruct (srv_name srv); simpl);
    intros H; simplify_eq; auto.
Qed.

Lemma collect_output {A : Type} (w : world) (verbose : bool) (srv : server)
  (command : string) (f : option string -> A) (s s' : sys) (x : A) (t : nat) :
  in_step srv t s ->
  (output <- ssh_execute w verbose srv command ;; ret (f output)) s
  = (Ret x, s') ->
  x = f (remote_output w srv command t) /\ in_step srv (S t) s'.
Proof.
  intros Hstep (output & s1 & Hssh & H)%bind_Ret.
  apply (ssh_execute_Ret _ _ _ _ _ _ _ t Hstep) in Hssh as (-> & Hnext).
  unfold ret in H. simplify_eq. auto.
Qed.

Lemma for_each_services_output (w : world) (verbose : bool) (srv : server)
  (names : list string) (acc results : list service) (s s' : sys) (t : nat) :
  in_step srv t s ->
  for_each names
    (fun results service =>
       output <- ssh_execute w verbose srv (service_command service) ;;
       ret (service_step results service output)) acc s
  = (Ret results, s') ->
  results
  = fold_left (fun results p => service_step results (fst p) (snd p))
      (zip names (probes w srv names t)) acc.
Proof.
  revert acc s t. induction names as [|name names IH]; intros acc s t Hstep;
    simpl.
  - now intros [= <- _].
  - intros (acc' & s1 & Hfirst & Hrest)%bind_Ret.
    apply (collect_output _ _ _ _ _ _ _ _ t Hstep) in Hfirst as (-> & Hnext).
    exact (IH _ _ _ Hnext Hrest).
Qed.

(** The metrics of a reachable host: each collector applied to the output
    of its own command, the commands run one after the other once [ping]
    has answered. *)
Lemma check_server_metrics (w : world) (verbose : bool) (srv : server)
  (s s' : sys) (r : check_result) :
  check_server w verbose srv s = (Ret r, s') ->
  res_reachable r = true ->
  res_metrics r
  = collected
      (uptime_of (remote_output w srv uptime_command (tick s + 1)))
      (cpu_usage_of (remote_output w srv cpu_command (tick s + 2)))
      (memory_usage_of (remote_output w srv memory_command (tick s + 3)))
      (disk_usage_of (remote_output w srv disk_command (tick s + 4)))
      (load_average_of (remote_output w srv load_command (tick s + 5)))
      (docker_containers_of (remote_output w srv docker_command (tick s + 6)))
      (services_from default_services
         (probes w srv default_services (tick s + 7))).
Proof.
  unfold check_server.
  intros ([] & s1 & Hlog & H)%bind_Ret Hreach.
  rewrite log_step in Hlog. simplify_eq.
  apply bind_Ret in H as (ts & s2 & Hts & H).
  unfold isoformat_now in Hts. simplify_eq/=.
  apply bind_Ret in H as (reach & s3 & Hping & H).
  destruct reach; simpl in H.
  2: { apply bind_Ret in H as ([] & s4 & _ & H). unfold ret in H.
       simplify_eq. }
  assert (in_step srv (tick s + 1) s3) as Hstep.
  { unfold check_server_reachable, ret in Hping.
    destruct (srv_ip srv); simplify_eq. right. simpl. lia. }
  apply bind_Ret in H as (uptime & s4 & H1 & H).
  apply (collect_output _ _ _ _ _ _ _ _ _ Hstep) in H1 as (-> & Hstep1).
  apply bind_Ret in H as (cpu & s5 & H2 & H).
  apply (collect_output _ _ _ _ _ _ _ _ _ Hstep1) in H2 as (-> & Hstep2).
  apply bind_Ret in H as (mem & s6 & H3 & H).
  apply (collect_output _ _ _ _ _ _ _ _ _ Hstep2) in H3 as (-> & Hstep3).
  apply bind_Ret in H as (disks & s7 & H4 & H).
  apply (collect_output _ _ _ _ _ _ _ _ _ Hstep3) in H4 as (-> & Hstep4).
  apply bind_Ret in H as (avg & s8 & H5 & H).
  apply (collect_output _ _ _ _ _ _ _ _ _ Hstep4) in H5 as (-> & Hstep5).
  apply bind_Ret in H as (dock & s9 & H6 & H).
  apply (collect_output _ _ _ _ _ _ _ _ _ Hstep5) in H6 as (-> & Hstep6).
  apply bind_Ret in H as (services & s10 & Hsvc & H).
  unfold get_services_status in Hsvc.
  apply bind_Ret in Hsvc as (found & s10' & Hloop & Hret).
  apply (for_each_services_output _ _ _ _ _ _ _ _ _ Hstep6) in Hloop as ->.
  unfold ret in Hret. simplify_eq.
  apply bind_Ret in H as ([] & s11 & _ & H). unfold ret in H. simplify_eq.
  cbn [res_metrics set_verdict set_metric set_reachable].
  replace (tick s + 2)%nat with (S (tick s + 1)) by lia.
  replace (tick s + 3)%nat with (S (S (tick s + 1))) by lia.
  replace (tick s + 4)%nat with (S (S (S (tick s + 1)))) by lia.
  replace (tick s + 5)%nat with (S (S (S (S (tick s + 1))))) by lia.
  replace (tick s + 6)%nat with (S (S (S (S (S (tick s + 1)))))) by lia.
  replace (tick s + 7)%nat with (S (S (S (S (S (S (tick s + 1))))))) by lia.
  reflexivity.
Qed.

(** C6, refuted: on empty output, and when its command fails, the uptime
    collector returns the placeholder string [Unknown], which
    [check_server] stores; and on output that holds no record the container
    collector returns a bundle, not [None]. *)
Lemma uptime_placeholder_on_empty_output :
  fst (get_uptime silent_world false srv_web start) = Ret (Some "Unknown")
  /\ fst (get_uptime locked_world false srv_web start) = Ret (Some "Unknown")
  /\ (exists r s',
        check_server silent_world false srv_web start = (Ret r, s')
        /\ res_metrics r !! "uptime" = Some (MText "Unknown")
        /\ res_metrics r !! "uptime" <> Some MNone)
  /\ docker_containers_of (Some "Cannot connect to the Docker daemon")
     = Some {| total := 0; running := 0; stopped := 0; containers := [] |}.
Proof.
  split; [vm_compute; reflexivity|]. split; [vm_compute; reflexivity|].
  split; [|vm_compute; reflexivity].
  eexists _, _. split; [vm_compute; reflexivity|].
  split; [vm_compute; reflexivity|]. vm_compute. discriminate.
Qed.

(** C6 as amended: empty or unavailable output gives [None] for the CPU,
    memory, disk, load and container collectors, no entry for a service,
    and the placeholder [Unknown] for the uptime; malformed output gives
    [None] for the CPU, memory, disk and load collectors, and so does the
    sentinel [NOT_INSTALLED] for the containers; the check of a host whose
    verbose log lines can name it returns a result whatever the commands
    print; and each metric of a reachable host is computed from the output
    of its own command only: the collector of the metric applied to what
    that command, run in its turn, printed, [None] standing for a command
    that failed. *)
Theorem collectors_on_bad_output :
  (forall o, nonempty o = None ->
     uptime_of o = Some "Unknown"
     /\ cpu_usage_of o = None
     /\ memory_usage_of o = None
     /\ disk_usage_of o = None
     /\ load_average_of o = None
     /\ docker_containers_of o = None
     /\ (forall results name, service_step results name o = results))
  /\ (forall t, cpu_malformed t -> cpu_usage_of (Some t) = None)
  /\ (forall t, memory_malformed t -> memory_usage_of (Some t) = None)
  /\ (forall t, disk_malformed t -> disk_usage_of (Some t) = None)
  /\ (forall t, load_malformed t -> load_average_of (Some t) = None)
  /\ docker_containers_of (Some "NOT_INSTALLED") = None
  /\ (forall w verbose srv s,
        verbose = false \/ srv_name srv <> None ->
        exists r s', check_server w verbose srv s = (Ret r, s'))
  /\ (forall w verbose srv s r s',
        check_server w verbose srv s = (Ret r, s') ->
        res_reachable r = true ->
        res_metrics r
        = collected
            (uptime_of (remote_output w srv uptime_command (tick s + 1)))
            (cpu_usage_of (remote_output w srv cpu_command (tick s + 2)))
            (memory_usage_of
               (remote_output w srv memory_command (tick s + 3)))
            (disk_usage_of (remote_output w srv disk_command (tick s + 4)))
            (load_average_of (remote_output w srv load_command (tick s + 5)))
            (docker_containers_of
               (remote_output w srv docker_command (tick s + 6)))
            (services_from default_services
               (probes w srv default_services (tick s + 7)))).
Proof.
  split; [exact collectors_on_empty|].
  split; [exact cpu_usage_of_malformed|].
  split; [exact memory_usage_of_malformed|].
  split; [exact disk_usage_of_malformed|].
  split; [exact load_average_of_malformed|].
  split; [reflexivity|].
  split; [exact check_server_returns|].
  intros w verbose srv s r s'. apply check_server_metrics.
Qed.

Lemma collectors_on_bad_output_witness :
  cpu_usage_of (Some "n/a") = None
  /\ memory_usage_of (Some "Mem: total used free") = None
  /\ memory_usage_of (Some "Mem: 0 0 0") = None
  /\ disk_usage_of (Some "df: command not found") = None
  /\ load_average_of (Some "0.52 0.48") = None
  /\ uptime_of (Some EmptyString) = Some "Unknown"
  /\ docker_containers_of None = None
  /\ (exists r s', check_server locked_world false srv_anon start = (Ret r, s'))
  /\ res_metrics mixed_result
     = collected (Some "up 3 days") None (Some mem85) (Some two_disks) None
         None None
  /\ res_metrics mixed_result
     = collected
         (uptime_of (remote_output mixed_world srv_web uptime_command 1))
         (cpu_usage_of (remote_output mixed_world srv_web cpu_command 2))
         (memory_usage_of (remote_output mixed_world srv_web memory_command 3))
         (disk_usage_of (remote_output mixed_world srv_web disk_command 4))
         (load_average_of (remote_output mixed_world srv_web load_command 5))
         (docker_containers_of
            (remote_output mixed_world srv_web docker_command 6))
         (services_from default_services
            (probes mixed_world srv_web default_services 7)).
Proof.
  destruct collectors_on_bad_output
    as (Hempty & Hcpu & Hmem & Hdisk & Hload & _ & Hreturns & Hown).
  split; [apply Hcpu; reflexivity|].
  split; [apply Hmem; left; reflexivity|].
  split; [apply Hmem; right; right; right; reflexivity|].
  split; [apply Hdisk; repeat constructor|].
  split; [apply Hload; right; right; reflexivity|].
  split; [apply (Hempty (Some EmptyString)); reflexivity|].
  split; [apply (Hempty None); reflexivity|].
  split; [apply Hreturns; left; reflexivity|].
  split; [vm_compute; reflexivity|].
  apply (Hown mixed_world false srv_web start mixed_result
           (snd (check_server mixed_world false srv_web start)));
    [vm_compute; reflexivity | reflexivity].
Defined.

(** ** What the programs log *)

Lemma appends_quiet {A : Type} (m : M A) :
  (forall s, logged (snd (m s)) = logged s) -> appends m.
Proof. intros H s. exists []. now rewrite H, app_nil_r. Qed.

Lemma appends_ret {A : Type} (a : A) : appends (ret a).
Proof. now apply appends_quiet. Qed.

Lemma appends_log (message level : string) : appends (log message level).
Proof. intros s. now exists [(level, message)]. Qed.

Lemma appends_bind {A B : Type} (m : M A) (f : A -> M B) :
  appends m -> (forall a, appends (f a)) -> appends (bind m f).
Proof.
  intros Hm Hf s. unfold bind. destruct (Hm s) as (more & Hmore).
  destruct (m s) as [[a | e] s1]; simpl in Hmore.
  - destruct (Hf a s1) as (more' & Hmore'). exists (more ++ more').
    now rewrite Hmore', Hmore, app_assoc.
  - now exists more.
Qed.

Lemma appends_try_except {A : Type} (body : M A)
  (handler : exn -> option (M A)) :
  appends body -> (forall e h, handler e = Some h -> appends h) ->
  appends (try_except body handler).
Proof.
  intros Hbody Hhandler s. unfold try_except.
  destruct (Hbody s) as (more & Hmore).
  destruct (body s) as [[a | e] s1]; simpl in Hmore; [now exists more|].
  destruct (handler e) as [h|] eqn:E; [|now exists more].
  destruct (Hhandler e h E s1) as (more' & Hmore'). exists (more ++ more').
  now rewrite Hmore', Hmore, app_assoc.
Qed.

Lemma appends_when (b : bool) (m : M unit) : appends m -> appends (when b m).
Proof. destruct b; [auto | intros _; apply appends_ret]. Qed.

Lemma appends_for_each {A B : Type} (l : list A) (body : B -> A -> M B)
  (acc : B) :
  (forall acc x, appends (body acc x)) -> appends (for_each l body acc).
Proof.
  intros Hbody. revert acc. induction l as [|x l IH]; intros acc; simpl.
  - apply appends_ret.
  - apply appends_bind; auto.
Qed.

Lemma appends_item_name (srv : server) : appends (item_name srv).
Proof. apply appends_quiet. intros s. unfold item_name. now destruct (srv_name srv). Qed.

Lemma appends_ssh_execute (w : world) (verbose : bool) (srv : server)
  (command : string) : appends (ssh_execute w verbose srv command).
Proof.
  unfold ssh_execute. destruct (nonempty (srv_ip srv)) as [ip|];
    [|apply appends_ret].
  assert (forall text level,
            appends (when verbose (n <- item_name srv ;; log (text n) level)
                     ;;; ret (@None string))) as Hline.
  { intros text level. apply appends_bind; [|intros _; apply appends_ret].
    apply appends_when, appends_bind; [apply appends_item_name|].
    intros n. apply appends_log. }
  apply appends_try_except.
  - apply appends_bind.
    + apply appends_quiet. intros s. unfold subprocess_run.
      now destruct (run w _ (tick s)).
    + intros [[returncode stdout] stderr].
      destruct (returncode =? 0); [apply appends_ret|].
      apply (Hline (fun n => "SSH command failed on " ++ n ++ ": " ++ stderr)%string).
  - intros e h He. destruct e; simplify_eq;
      first [ apply (Hline (fun n => "SSH timeout on " ++ n)%string)
            | apply (Hline (fun n => "SSH error on " ++ n ++ ": " ++ _)%string) ].
Qed.

Lemma appends_collect {A : Type} (w : world) (verbose : bool) (srv : server)
  (command : string) (f : option string -> A) :
  appends (output <- ssh_execute w verbose srv command ;; ret (f output)).
Proof.
  apply appends_bind; [apply appends_ssh_execute|].
  intros output. apply appends_ret.
Qed.

Lemma appends_check_server (w : world) (verbose : bool) (srv : server) :
  appends (check_server w verbose srv).
Proof.
  unfold check_server.
  apply appends_bind; [apply appends_log | intros _].
  apply appends_bind; [now apply appends_quiet | intros timestamp].
  apply appends_bind.
  { apply appends_quiet. intros s. unfold check_server_reachable.
    now destruct (srv_ip srv). }
  intros [|]; cbn [negb].
  2: { apply appends_bind; [apply appends_log | intros _; apply appends_ret]. }
  do 6 (apply appends_bind; [apply appends_collect | intros ?]).
  apply appends_bind.
  { unfold get_services_status.
    apply appends_bind; [|intros ?; apply appends_ret].
    apply appends_for_each. intros results service. apply appends_collect. }
  intros services.
  apply appends_bind; [|intros _; apply appends_ret].
  match goal with
  | |- context [match ?h with _ => _ end] => destruct h
  end; apply appends_log.
Qed.

Lemma appends_save_results (w : world) (output_dir : string)
  (results : list check_result) : appends (save_results w output_dir results).
Proof.
  unfold save_results.
  apply appends_bind.
  { apply appends_quiet. intros s. unfold write_current.
    destruct (open_error w _ (tick s)); [reflexivity|].
    now destruct (write_error w _ (tick s)). }
  intros _. apply appends_bind; [now apply appends_quiet | intros stamp].
  apply appends_bind.
  { apply appends_quiet. intros s. unfold write_history.
    destruct (open_error w _ (tick s)); [reflexivity|].
    now destruct (write_error w _ (tick s)). }
  intros _. apply appends_bind; [now apply appends_quiet | intros files].
  apply appends_bind; [|intros _; apply appends_log].
  apply appends_when, appends_for_each. intros [] name.
  apply appends_quiet. intros s. unfold unlink.
  now destruct (unlink_error w _ (tick s)).
Qed.

(** ** The loop over the hosts *)

(** One turn of the loop always completes: the result of the host is
    appended when its check returned, and nothing is when it raised. *)
Lemma run_check_spec (w : world) (verbose : bool) (acc : list check_result)
  (srv : server) (s : sys) :
  run_check w verbose acc srv s
  = (Ret (acc ++ returned [fst (check_server w verbose srv s)]),
     snd (run_check w verbose [] srv s)).
Proof.
  unfold run_check, try_except, bind.
  destruct (check_server w verbose srv s) as [[r | e] s1] eqn:H; simpl;
    [reflexivity|].
  apply check_server_Raise in H as (-> & _ & _). simpl.
  now rewrite app_nil_r.
Qed.

Lemma for_each_run_check (w : world) (verbose : bool) (servers : list server)
  (acc : list check_result) (s : sys) :
  fst (for_each servers (run_check w verbose) acc s)
  = Ret (acc ++ returned (check_each w verbose servers s)).
Proof.
  revert acc s. induction servers as [|srv rest IH]; intros acc s; simpl.
  - now rewrite app_nil_r.
  - unfold bind. rewrite run_check_spec, IH.
    unfold returned. simpl.
    destruct (fst (check_server w verbose srv s)); simpl;
      now rewrite <- ?app_assoc.
Qed.

Lemma check_each_length (w : world) (verbose : bool) (servers : list server)
  (s : sys) :
  length (check_each w verbose servers s) = length servers.
Proof.
  revert s. induction servers as [|srv rest IH]; intros s; simpl; auto.
Qed.

Lemma run_checks_unfold (w : world) (verbose : bool) (output_dir : string)
  (servers : list server) (s : sys) :
  run_checks w verbose output_dir servers s
  = (results <- for_each servers (run_check w verbose) [] ;;
     save_results w output_dir results ;;;
     log (repeat_string "=" 60) "info" ;;;
     log (fstring ["Check completed: "; count_text (is_status healthy) results;
                   " healthy, "; count_text (is_status warning) results;
                   " warning, "; count_text (is_status critical) results;
                   " critical, ";
                   count_text (fun r => negb (res_reachable r)) results;
                   " down"]) "stat" ;;;
     log (repeat_string "=" 60) "info" ;;;
     ret results) (headers servers s).
Proof. reflexivity. Qed.

Lemma run_checks_Ret (w : world) (verbose : bool) (output_dir : string)
  (servers : list server) (s s' : sys) (results : list check_result) :
  run_checks w verbose output_dir servers s = (Ret results, s') ->
  fst (for_each servers (run_check w verbose) [] (headers servers s))
  = Ret results.
Proof.
  rewrite run_checks_unfold.
  intros (found & s4 & Hloop & H)%bind_Ret.
  apply bind_Ret in H as ([] & s5 & _ & H).
  apply bind_Ret in H as ([] & s6 & _ & H).
  apply bind_Ret in H as ([] & s7 & _ & H).
  apply bind_Ret in H as ([] & s8 & _ & H).
  unfold ret in H. simplify_eq. now rewrite Hloop.
Qed.

(** C5, refuted: in verbose mode, with every remote command refused, the
    check of the entry without a name raises [KeyError]; [run_checks]
    returns one result, for the other host, and none for that entry. *)
Lemma failed_host_gets_no_result :
  fst (check_server locked_world true srv_anon (headers [srv_anon; srv_web] start))
  = Raise (KeyError "name")
  /\ exists r s',
       run_checks locked_world true out_dir [srv_anon; srv_web] start
       = (Ret [r], s')
       /\ res_name r = "web1"
       /\ length [r] <> length [srv_anon; srv_web].
Proof.
  split; [vm_compute; reflexivity|].
  eexists _, _. split; [vm_compute; reflexivity|].
  split; [vm_compute; reflexivity | discriminate].
Qed.

(** A turn of the loop whose check raises ends in the state the check left,
    with the line of the [except] clause added to the log, and with the
    results as they were. *)
Lemma run_check_Raise (w : world) (verbose : bool) (acc : list check_result)
  (srv : server) (s s1 : sys) (e : exn) :
  check_server w verbose srv s = (Raise e, s1) ->
  run_check w verbose acc srv s
  = (Ret acc, snd (log (snd (error_line srv e)) (fst (error_line srv e)) s1)).
Proof.
  intros H. unfold run_check, try_except, bind. rewrite H.
  apply check_server_Raise in H as (-> & _ & _). reflexivity.
Qed.

(** What a turn of the loop adds to the log: the lines of the check, then
    the line of the [except] clause if the check raised. *)
Lemma run_check_logged (w : world) (verbose : bool) (srv : server) (s : sys) :
  exists more,
    logged (snd (run_check w verbose [] srv s))
    = logged s ++ more
      ++ error_lines [srv] [fst (check_server w verbose srv s)].
Proof.
  destruct (appends_check_server w verbose srv s) as (more & Hmore).
  exists more.
  destruct (check_server w verbose srv s) as [[r | e] s1] eqn:H;
    simpl in Hmore.
  - unfold run_check, try_except, bind. rewrite H. simpl.
    now rewrite app_nil_r.
  - rewrite (run_check_Raise _ _ _ _ _ _ _ H). simpl.
    now rewrite Hmore, app_assoc.
Qed.

Lemma error_lines_cons (srv : server) (servers : list server)
  (o : outcome check_result) (outcomes : list (outcome check_result)) :
  error_lines (srv :: servers) (o :: outcomes)
  = error_lines [srv] [o] ++ error_lines servers outcomes.
Proof. unfold error_lines. simpl. now destruct o. Qed.

(** The loop logs, among the lines of the checks, one line for each host
    whose check raised, in the order of the hosts. *)
Lemma loop_logged (w : world) (verbose : bool) (servers : list server)
  (acc : list check_result) (s : sys) :
  exists more,
    logged (snd (for_each servers (run_check w verbose) acc s))
    = logged s ++ more
    /\ error_lines servers (check_each w verbose servers s)
       `sublist_of` more.
Proof.
  revert acc s. induction servers as [|srv rest IH]; intros acc s.
  - exists []. simpl. now rewrite app_nil_r.
  - cbn [for_each check_each]. unfold bind. rewrite run_check_spec.
    destruct (run_check_logged w verbose srv s) as (m1 & Hm1).
    destruct (IH (acc ++ returned [fst (check_server w verbose srv s)])
                (snd (run_check w verbose [] srv s))) as (m2 & Hm2 & Hsub).
    exists (m1 ++ error_lines [srv] [fst (check_server w verbose srv s)] ++ m2).
    split.
    + rewrite Hm2, Hm1, <- !app_assoc. reflexivity.
    + rewrite error_lines_cons.
      apply sublist_inserts_l, sublist_app; [reflexivity | exact Hsub].
Qed.

(** C5 as amended: whatever the hosts do, the loop of [run_checks] runs to
    its end, every host of the list having been checked; an exception
    raised by the check of one host is caught and logged, by the line
    [Error checking ...], and no result is recorded for that host; the
    results are, in the order of the server list, those of the hosts whose
    check returned; and the log of the run has, in the order of the hosts,
    one such line for each host whose check raised. *)
Theorem run_checks_isolates_failures (w : world) (verbose : bool)
  (output_dir : string) (servers : list server) (s : sys) :
  fst (for_each servers (run_check w verbose) [] (headers servers s))
  = Ret (returned (check_each w verbose servers (headers servers s)))
  /\ length (check_each w verbose servers (headers servers s))
     = length servers
  /\ (forall acc srv s0 s1 e,
        check_server w verbose srv s0 = (Raise e, s1) ->
        is_Exception e = true
        /\ fst (run_check w verbose acc srv s0) = Ret acc
        /\ logged (snd (run_check w verbose acc srv s0))
           = logged s1 ++ [error_line srv e])
  /\ (exists more,
        logged (snd (for_each servers (run_check w verbose) []
                       (headers servers s)))
        = logged (headers servers s) ++ more
        /\ error_lines servers
             (check_each w verbose servers (headers servers s))
           `sublist_of` more)
  /\ (forall results s',
        run_checks w verbose output_dir servers s = (Ret results, s') ->
        results = returned (check_each w verbose servers (headers servers s))
        /\ exists more,
             logged s' = logged s ++ more
             /\ error_lines servers
                  (check_each w verbose servers (headers servers s))
                `sublist_of` more).
Proof.
  split; [apply for_each_run_check|]. split; [apply check_each_length|].
  split.
  { intros acc srv s0 s1 e H.
    rewrite (run_check_Raise _ _ acc _ _ _ _ H).
    apply check_server_Raise in H as (-> & _ & _). repeat split. }
  split; [apply loop_logged|].
  intros results s' H.
  split.
  { apply run_checks_Ret in H.
    rewrite for_each_run_check in H. now injection H as <-. }
  rewrite run_checks_unfold in H.
  apply bind_Ret in H as (found & s1 & Hloop & H).
  destruct (loop_logged w verbose servers [] (headers servers s))
    as (m1 & Hm1 & Hsub).
  rewrite Hloop in Hm1. cbn [snd] in Hm1.
  assert (appends
            (save_results w output_dir found ;;;
             log (repeat_string "=" 60) "info" ;;;
             log (fstring ["Check completed: ";
                           count_text (is_status healthy) found;
                           " healthy, "; count_text (is_status warning) found;
                           " warning, ";
                           count_text (is_status critical) found;
                           " critical, ";
                           count_text (fun r => negb (res_reachable r)) found;
                           " down"]) "stat" ;;;
             log (repeat_string "=" 60) "info" ;;;
             ret found)) as Hrest.
  { apply appends_bind; [apply appends_save_results | intros _].
    do 3 (apply appends_bind; [apply appends_log | intros _]).
    apply appends_ret. }
  destruct (Hrest s1) as (m2 & Hm2). rewrite H in Hm2. cbn [snd] in Hm2.
  assert (exists m0, logged (headers servers s) = logged s ++ m0)
    as (m0 & Hm0).
  { eexists [_; _; _]. unfold headers, bind, log. simpl.
    rewrite <- !app_assoc. reflexivity. }
  exists (m0 ++ m1 ++ m2). split.
  - rewrite Hm2, Hm1, Hm0, <- !app_assoc. reflexivity.
  - apply sublist_inserts_l, sublist_inserts_r, Hsub.
Qed.

Lemma run_checks_isolates_failures_witness :
  check_each locked_world true [srv_anon; srv_web]
    (headers [srv_anon; srv_web] start)
  = [Raise (KeyError "name");
     Ret (reachable_result srv_web "2024-05-01T12:00:00"
            (collected (Some "Unknown") None None None None None None))]
  /\ run_checks locked_world true out_dir [srv_anon; srv_web] start
     = (Ret [reachable_result srv_web "2024-05-01T12:00:00"
               (collected (Some "Unknown") None None None None None None)],
        snd (run_checks locked_world true out_dir [srv_anon; srv_web] start))
  /\ [reachable_result srv_web "2024-05-01T12:00:00"
        (collected (Some "Unknown") None None None None None None)]
     = returned (check_each locked_world true [srv_anon; srv_web]
                   (headers [srv_anon; srv_web] start))
  /\ error_lines [srv_anon; srv_web]
       (check_each locked_world true [srv_anon; srv_web]
          (headers [srv_anon; srv_web] start))
     = [("error", "Error checking None: 'name'")]
  /\ ("error", "Error checking None: 'name'")
     ∈ logged (snd (run_checks locked_world true out_dir [srv_anon; srv_web]
                      start)).
Proof.
  assert (run_checks locked_world true out_dir [srv_anon; srv_web] start
          = (Ret [reachable_result srv_web "2024-05-01T12:00:00"
                    (collected (Some "Unknown") None None None None None None)],
             snd (run_checks locked_world true out_dir [srv_anon; srv_web]
                    start))) as H by (vm_compute; reflexivity).
  assert (error_lines [srv_anon; srv_web]
            (check_each locked_world true [srv_anon; srv_web]
               (headers [srv_anon; srv_web] start))
          = [("error", "Error checking None: 'name'")]) as Hlines
      by (vm_compute; reflexivity).
  split; [vm_compute; reflexivity|]. split; [exact H|].
  destruct (proj2 (proj2 (proj2 (proj2
              (run_checks_isolates_failures locked_world true out_dir
                 [srv_anon; srv_web] start)))) _ _ H)
    as (Hresults & more & Hlog & Hsub).
  split; [exact Hresults|]. split; [exact Hlines|].
  rewrite Hlog. apply elem_of_app. right.
  eapply elem_of_sublist; [|exact Hsub]. rewrite Hlines. now left.
Defined.

(** ** The snapshot store *)

Lemma without_nil (s : sys) : without [] s = s.
Proof. now destruct s. Qed.

Lemma without_cons (name : string) (names : list string) (s : sys) :
  without (name :: names) s = without names (without [name] s).
Proof. reflexivity. Qed.

Lemma without_snoc (names : list string) (name : string) (s : sys) :
  without (names ++ [name]) s = without [name] (without names s).
Proof. unfold without, delete_all. now rewrite fold_left_app. Qed.

(** The loop over the old records removes them one after the other and
    stops at the first one that cannot be removed. *)
Lemma for_each_unlink_Ret (w : world) (output_dir : string)
  (names : list string) (s s' : sys) :
  for_each names (fun (_ : unit) old_file => unlink w output_dir old_file) tt s
  = (Ret tt, s') ->
  s' = without names s.
Proof.
  revert s. induction names as [|name names IH]; intros s; simpl.
  - intros [= <-]. now rewrite without_nil.
  - intros ([] & s1 & Hfirst & Hrest)%bind_Ret.
    unfold unlink in Hfirst.
    destruct (unlink_error w _ (tick s)); [discriminate|].
    injection Hfirst as <-. apply IH in Hrest as ->. reflexivity.
Qed.

Lemma for_each_unlink_Raise (w : world) (output_dir : string)
  (names : list string) (s s' : sys) (e : exn) :
  for_each names (fun (_ : unit) old_file => unlink w output_dir old_file) tt s
  = (Raise e, s') ->
  exists msg removed name rest,
    e = OSError msg
    /\ names = removed ++ name :: rest
    /\ unlink_error w (history_path output_dir name) (tick s) = Some msg
    /\ s' = without removed s.
Proof.
  revert s. induction names as [|name names IH]; intros s; simpl;
    [discriminate|].
  intros [Hfirst | ([] & s1 & Hfirst & Hrest)]%bind_Raise.
  - unfold unlink in Hfirst.
    destruct (unlink_error w _ (tick s)) as [msg|] eqn:E; [|discriminate].
    injection Hfirst as <- <-.
    exists msg, [], name, names. now rewrite without_nil.
  - unfold unlink in Hfirst.
    destruct (unlink_error w _ (tick s)); [discriminate|].
    injection Hfirst as <-.
    apply IH in Hrest as (msg & removed & failing & rest & -> & -> & Herr & ->).
    exists msg, (name :: removed), failing, rest. auto.
Qed.

Lemma for_each_unlink_ok (w : world) (output_dir : string)
  (names : list string) (s : sys) :
  (forall name, unlink_error w (history_path output_dir name) (tick s) = None) ->
  for_each names (fun (_ : unit) old_file => unlink w output_dir old_file) tt s
  = (Ret tt, without names s).
Proof.
  revert s. induction names as [|name names IH]; intros s Hok; simpl.
  - now rewrite without_nil.
  - unfold bind. unfold unlink at 1. rewrite Hok.
    rewrite IH by exact Hok. reflexivity.
Qed.

(** [save_results] up to the point where both files are written: each of
    the two files may fail to open, and to be written once it is open. *)
Lemma save_results_spec (w : world) (output_dir : string)
  (results : list check_result) (s : sys) :
  save_results w output_dir results s
  = match open_error w (current_file output_dir) (tick s) with
    | Some msg => (Raise (OSError msg), advance s)
    | None =>
        match write_error w (current_file output_dir) (tick s) with
        | Some msg =>
            (Raise (OSError msg),
             {| tick := S (tick s); issued := issued s; logged := logged s;
                current_json := Some Partial; history := history s |})
        | None =>
            match open_error w
                    (history_path output_dir (history_name w (tick s)))
                    (S (tick s)) with
            | Some msg =>
                (Raise (OSError msg),
                 {| tick := S (S (tick s)); issued := issued s;
                    logged := logged s;
                    current_json := current_json (written w results s);
                    history := history s |})
            | None =>
                match write_error w
                        (history_path output_dir (history_name w (tick s)))
                        (S (tick s)) with
                | Some msg =>
                    (Raise (OSError msg),
                     {| tick := S (S (tick s)); issued := issued s;
                        logged := logged s;
                        current_json := current_json (written w results s);
                        history :=
                          <[history_name w (tick s) := Partial]> (history s) |})
                | None =>
                    (when (1000 <? Z.of_nat (length (merge_sort name_le
                                                       (json_names (recorded w results s)))))
                       (for_each (expired (recorded w results s))
                          (fun (_ : unit) old_file =>
                             unlink w output_dir old_file) tt) ;;;
                     log (fstring ["Results saved to ";
                                   current_file output_dir]) "success")
                      (written w results s)
                end
            end
        end
    end.
Proof.
  unfold save_results, bind. unfold write_current at 1.
  destruct (open_error w (current_file output_dir) (tick s)) as [msg|];
    [reflexivity|].
  destruct (write_error w (current_file output_dir) (tick s)) as [msg|];
    [reflexivity|].
  unfold strftime_now at 1. cbv beta iota zeta. unfold write_history at 1.
  cbn [tick]. fold (history_name w (tick s)).
  destruct (open_error w (history_path output_dir (history_name w (tick s)))
              (S (tick s))) as [msg|]; [reflexivity|].
  destruct (write_error w (history_path output_dir (history_name w (tick s)))
              (S (tick s))) as [msg|]; [reflexivity|].
  reflexivity.
Qed.

(** The end of [save_results], lines 415-420, from the state [s1] in which
    both files are written. *)
Lemma cleanup_Ret (w : world) (output_dir : string) (s1 s' : sys) :
  (when (1000 <? Z.of_nat (length (merge_sort name_le
                                     (json_names (history s1)))))
     (for_each (expired (history s1))
        (fun (_ : unit) old_file => unlink w output_dir old_file) tt) ;;;
   log (fstring ["Results saved to "; current_file output_dir]) "success") s1
  = (Ret tt, s') ->
  s' = {| tick := tick s1; issued := issued s1;
          logged := logged s1
                    ++ [("success",
                         fstring ["Results saved to ";
                                  current_file output_dir])];
          current_json := current_json s1;
          history := cleaned (history s1) |}.
Proof.
  intros ([] & s2 & Hloop & Hlog)%bind_Ret.
  rewrite log_step in Hlog. injection Hlog as <-.
  unfold cleaned, when in *. fold (expired (history s1)).
  destruct (1000 <? _).
  - apply for_each_unlink_Ret in Hloop as ->. reflexivity.
  - unfold ret in Hloop. now injection Hloop as <-.
Qed.

Lemma cleanup_Raise (w : world) (output_dir : string) (s1 s' : sys) (e : exn) :
  (when (1000 <? Z.of_nat (length (merge_sort name_le
                                     (json_names (history s1)))))
     (for_each (expired (history s1))
        (fun (_ : unit) old_file => unlink w output_dir old_file) tt) ;;;
   log (fstring ["Results saved to "; current_file output_dir]) "success") s1
  = (Raise e, s') ->
  exists msg removed name rest,
    e = OSError msg
    /\ expired (history s1) = removed ++ name :: rest
    /\ unlink_error w (history_path output_dir name) (tick s1) = Some msg
    /\ s' = without removed s1.
Proof.
  intros [Hloop | ([] & s2 & _ & Hlog)]%bind_Raise.
  2: { rewrite log_step in Hlog. discriminate. }
  unfold when in Hloop. destruct (1000 <? _); [|discriminate].
  now apply for_each_unlink_Raise in Hloop.
Qed.

Lemma cleanup_ok (w : world) (output_dir : string) (s1 : sys) :
  (forall name, unlink_error w (history_path output_dir name) (tick s1) = None) ->
  exists s',
    (when (1000 <? Z.of_nat (length (merge_sort name_le
                                       (json_names (history s1)))))
       (for_each (expired (history s1))
          (fun (_ : unit) old_file => unlink w output_dir old_file) tt) ;;;
     log (fstring ["Results saved to "; current_file output_dir]) "success") s1
    = (Ret tt, s').
Proof.
  intros Hok. unfold bind, when. destruct (1000 <? _).
  - rewrite for_each_unlink_ok by exact Hok. rewrite log_step. eauto.
  - unfold ret. rewrite log_step. eauto.
Qed.

(** When [save_results] returns, both files hold the record of the run and
    the directory is cleaned. *)
Lemma save_results_Ret (w : world) (output_dir : string)
  (results : list check_result) (s s' : sys) :
  save_results w output_dir results s = (Ret tt, s') ->
  s' = saved w output_dir results s.
Proof.
  rewrite save_results_spec.
  destruct (open_error w (current_file output_dir) (tick s)); [discriminate|].
  destruct (write_error w (current_file output_dir) (tick s)); [discriminate|].
  destruct (open_error w _ (S (tick s))); [discriminate|].
  destruct (write_error w _ (S (tick s))); [discriminate|].
  intros H. apply (cleanup_Ret w output_dir (written w results s)) in H.
  exact H.
Qed.

(** [save_results] raises nothing but the [OSError] of a file operation. *)
Lemma save_results_Raise (w : world) (output_dir : string)
  (results : list check_result) (s s' : sys) (e : exn) :
  save_results w output_dir results s = (Raise e, s') ->
  exists msg, e = OSError msg.
Proof.
  rewrite save_results_spec.
  destruct (open_error w (current_file output_dir) (tick s)) as [msg|].
  { intros [= <- _]. eauto. }
  destruct (write_error w (current_file output_dir) (tick s)) as [msg|].
  { intros [= <- _]. eauto. }
  destruct (open_error w _ (S (tick s))) as [msg|].
  { intros [= <- _]. eauto. }
  destruct (write_error w _ (S (tick s))) as [msg|].
  { intros [= <- _]. eauto. }
  intros H. apply (cleanup_Raise w output_dir (written w results s)) in H
    as (msg & _ & _ & _ & -> & _). eauto.
Qed.

(** [save_results] returns whenever its file operations succeed. *)
Lemma save_results_returns (w : world) (output_dir : string)
  (results : list check_result) (s : sys) :
  store_ok w output_dir (tick s) ->
  exists s', save_results w output_dir results s = (Ret tt, s').
Proof.
  intros (Hcurrent & Hdump & Hhistory & Hrecord & Hunlink).
  rewrite save_results_spec, Hcurrent, Hdump, Hhistory, Hrecord.
  apply (cleanup_ok w output_dir (written w results s)). exact Hunlink.
Qed.

(** ** The continuous run *)

Lemma forever_S (w : world) (verbose : bool) (output_dir : string)
  (servers : list server) (interval : Z) (n : nat) (s : sys) :
  forever w verbose output_dir servers interval (S n) s
  = (run_checks w verbose output_dir servers ;;; sleep w interval ;;;
     forever w verbose output_dir servers interval n) s.
Proof. reflexivity. Qed.

(** After [n] complete turns the loop goes on from the state they left. *)
Lemma forever_more (w : world) (verbose : bool) (output_dir : string)
  (servers : list server) (interval : Z) (n m : nat) (s sn : sys) :
  forever w verbose output_dir servers interval n s = (Ret Running, sn) ->
  forever w verbose output_dir servers interval (n + m) s
  = forever w verbose output_dir servers interval m sn.
Proof.
  revert s. induction n as [|n IH]; intros s H.
  - injection H as <-. reflexivity.
  - rewrite forever_S in H.
    apply bind_Ret in H as (results & s1 & Hrun & H).
    apply bind_Ret in H as ([] & s2 & Hsleep & H).
    change (S n + m)%nat with (S (n + m)). rewrite forever_S.
    rewrite (bind_step _ _ _ _ _ Hrun), (bind_step _ _ _ _ _ Hsleep). auto.
Qed.

(** An exception that leaves [run_checks] leaves the turn of the loop. *)
Lemma forever_Raise (w : world) (verbose : bool) (output_dir : string)
  (servers : list server) (interval : Z) (m : nat) (s s' : sys) (e : exn) :
  run_checks w verbose output_dir servers s = (Raise e, s') ->
  forever w verbose output_dir servers interval (S m) s = (Raise e, s').
Proof. intros H. rewrite forever_S. now apply bind_fail. Qed.

(** An exception that leaves [save_results] leaves [run_checks]. *)
Lemma run_checks_save_Raise (w : world) (verbose : bool)
  (output_dir : string) (servers : list server) (s s1 s' : sys)
  (results : list check_result) (e : exn) :
  for_each servers (run_check w verbose) [] (headers servers s)
  = (Ret results, s1) ->
  save_results w output_dir results s1 = (Raise e, s') ->
  run_checks w verbose output_dir servers s = (Raise e, s').
Proof.
  intros Hloop Hsave. rewrite run_checks_unfold.
  rewrite (bind_step _ _ _ _ _ Hloop). now apply bind_fail.
Qed.

Lemma run_continuous_unfold (w : world) (verbose : bool)
  (output_dir : string) (servers : list server) (interval : Z) (fuel : nat)
  (s : sys) :
  run_continuous w verbose output_dir servers interval fuel s
  = try_except (forever w verbose output_dir servers interval fuel)
      (fun e =>
         match e with
         | KeyboardInterrupt =>
             Some (log (String newline "Stopped by user") "info" ;;;
                   ret Returned)
         | _ => None
         end) (banner interval s).
Proof. reflexivity. Qed.

(** C4, refuted: when the output directory cannot be written,
    [run_continuous] ends with the [OSError] of the first run; the second
    run never starts and the failure is not logged. *)
Lemma unwritable_output_ends_run :
  exists s',
    run_continuous readonly_world false out_dir [srv_web] 60 3 start
    = (Raise (OSError "Permission denied"), s')
    /\ length (filter (fun l => l = ("info", "Starting health checks for 1 server(s)"))
                 (logged s')) = 1%nat
    /\ Forall (fun l => fst l <> "error") (logged s').
Proof.
  eexists. split; [vm_compute; reflexivity|].
  split; [vm_compute; reflexivity|].
  vm_compute. repeat constructor; discriminate.
Qed.

(** C4 as amended: if persisting a run fails, that is if [save_results]
    raises in some turn of a continuous run, the exception is not caught:
    it leaves [run_checks] and [run_continuous], which ends there, and no
    later run takes place. *)
Theorem persist_failure_ends_continuous_run (w : world) (verbose : bool)
  (output_dir : string) (servers : list server) (interval : Z)
  (n fuel : nat) (s sn s1 s' : sys) (results : list check_result) (e : exn) :
  forever w verbose output_dir servers interval n (banner interval s)
  = (Ret Running, sn) ->
  for_each servers (run_check w verbose) [] (headers servers sn)
  = (Ret results, s1) ->
  save_results w output_dir results s1 = (Raise e, s') ->
  (n < fuel)%nat ->
  run_checks w verbose output_dir servers sn = (Raise e, s')
  /\ run_continuous w verbose output_dir servers interval fuel s
     = (Raise e, s').
Proof.
  intros Hturns Hloop Hsave Hfuel.
  pose proof (run_checks_save_Raise _ _ _ _ _ _ _ _ _ Hloop Hsave) as Hrun.
  split; [exact Hrun|].
  rewrite run_continuous_unfold. unfold try_except.
  replace fuel with (n + S (fuel - S n))%nat by lia.
  rewrite (forever_more _ _ _ _ _ _ _ _ _ Hturns).
  rewrite (forever_Raise _ _ _ _ _ _ _ _ _ Hrun).
  apply save_results_Raise in Hsave as (msg & ->). reflexivity.
Qed.

Lemma persist_failure_ends_continuous_run_witness :
  run_checks readonly_world false out_dir [srv_web] (banner 60 start)
  = (Raise (OSError "Permission denied"),
     snd (run_checks readonly_world false out_dir [srv_web] (banner 60 start)))
  /\ run_continuous readonly_world false out_dir [srv_web] 60 3 start
     = (Raise (OSError "Permission denied"),
        snd (run_checks readonly_world false out_dir [srv_web]
               (banner 60 start))).
Proof.
  apply (persist_failure_ends_continuous_run readonly_world false out_dir
           [srv_web] 60 0 3 start (banner 60 start)
           (snd (for_each [srv_web] (run_check readonly_world false) []
                   (headers [srv_web] (banner 60 start))))
           (snd (run_checks readonly_world false out_dir [srv_web]
                   (banner 60 start)))
           [reachable_result srv_web "2024-05-01T12:00:00"
              (collected (Some "Unknown") None None None None None None)]
           (OSError "Permission denied"));
    [reflexivity | vm_compute; reflexivity | vm_compute; reflexivity | lia].
Defined.

Lemma elem_of_json_names (h : gmap string file) (name : string) :
  name ∈ json_names h <-> is_json name = true /\ is_Some (h !! name).
Proof.
  unfold json_names. now rewrite list_elem_of_filter, elem_of_elements, elem_of_dom.
Qed.

Lemma NoDup_json_names (h : gmap string file) : NoDup (json_names h).
Proof. apply NoDup_filter, NoDup_elements. Qed.

Lemma delete_all_lookup (names : list string) (h : gmap string file)
  (name : string) :
  delete_all names h !! name
  = if decide (name ∈ names) then None else h !! name.
Proof.
  revert h. induction names as [|x names IH]; intros h; simpl.
  - destruct (decide (name ∈ [])) as [Hin | _]; [|reflexivity].
    now apply not_elem_of_nil in Hin.
  - rewrite IH.
    destruct (decide (name ∈ names)) as [Hin | Hout].
    + rewrite decide_True by (now right). reflexivity.
    + destruct (decide (name = x)) as [-> | Hne].
      * rewrite decide_True by (now left). apply lookup_delete_eq.
      * rewrite decide_False by (rewrite elem_of_cons; tauto).
        now apply lookup_delete_ne.
Qed.

Lemma sorted_names_perm (h : gmap string file) :
  merge_sort name_le (json_names h) ≡ₚ json_names h.
Proof. apply merge_sort_Permutation. Qed.

Lemma sorted_names_sorted (h : gmap string file) :
  StronglySorted name_le (merge_sort name_le (json_names h)).
Proof. apply Sorted_StronglySorted; [apply _|]. apply Sorted_merge_sort, _. Qed.

Lemma sorted_names_NoDup (h : gmap string file) :
  NoDup (merge_sort name_le (json_names h)).
Proof. rewrite sorted_names_perm. apply NoDup_json_names. Qed.

Lemma cleaned_eq (h : gmap string file) :
  cleaned h = delete_all (expired h) h.
Proof.
  unfold cleaned, expired. cbv zeta.
  destruct (1000 <? _) eqn:E; [reflexivity|].
  apply Z.ltb_ge in E.
  replace (length (merge_sort name_le (json_names h)) - 1000)%nat with 0%nat
    by lia.
  reflexivity.
Qed.

Lemma cleaned_lookup (h : gmap string file) (name : string) :
  cleaned h !! name = if decide (name ∈ expired h) then None else h !! name.
Proof. rewrite cleaned_eq. apply delete_all_lookup. Qed.

(** The names left are those the sorted list keeps after the expired
    ones. *)
Lemma json_names_cleaned (h : gmap string file) (name : string) :
  name ∈ json_names (cleaned h)
  <-> name ∈ drop (length (merge_sort name_le (json_names h)) - 1000)
               (merge_sort name_le (json_names h)).
Proof.
  pose proof (sorted_names_NoDup h) as Hnd.
  pose proof (sorted_names_perm h) as Hperm.
  rewrite elem_of_json_names, cleaned_lookup. unfold expired. cbv zeta.
  set (files := merge_sort name_le (json_names h)) in *.
  set (k := (length files - 1000)%nat).
  rewrite <- (take_drop k files) in Hnd.
  apply NoDup_app in Hnd as (_ & Hdisj & _).
  assert (name ∈ files <-> name ∈ take k files \/ name ∈ drop k files) as Hsplit.
  { rewrite <- (take_drop k files) at 1. apply elem_of_app. }
  assert (name ∈ files <-> is_json name = true /\ is_Some (h !! name)) as Hin.
  { rewrite Hperm. apply elem_of_json_names. }
  destruct (decide (name ∈ take k files)) as [Hold | Hnew].
  - split.
    + intros [_ [x Hx]]. discriminate.
    + intros Hkept. now destruct (Hdisj name).
  - rewrite <- Hin, Hsplit. tauto.
Qed.

Lemma json_names_cleaned_perm (h : gmap string file) :
  json_names (cleaned h)
  ≡ₚ drop (length (merge_sort name_le (json_names h)) - 1000)
       (merge_sort name_le (json_names h)).
Proof.
  apply NoDup_Permutation.
  - apply NoDup_json_names.
  - pose proof (sorted_names_NoDup h) as Hnd.
    rewrite <- (take_drop (length (merge_sort name_le (json_names h)) - 1000)
                  (merge_sort name_le (json_names h))) in Hnd.
    now apply NoDup_app in Hnd as (_ & _ & Hnd).
  - apply json_names_cleaned.
Qed.

Lemma json_names_cleaned_length (h : gmap string file) :
  length (json_names (cleaned h)) = min (length (json_names h)) 1000.
Proof.
  rewrite json_names_cleaned_perm, length_drop, sorted_names_perm. lia.
Qed.

(** A record that was removed is older than every record that was kept. *)
Lemma expired_older (h : gmap string file) (old kept : string) :
  old ∈ json_names h -> old ∉ json_names (cleaned h) ->
  kept ∈ json_names (cleaned h) -> name_lt old kept.
Proof.
  intros Hold Hgone Hkept.
  rewrite json_names_cleaned in Hgone, Hkept.
  rewrite <- (sorted_names_perm h) in Hold.
  pose proof (sorted_names_NoDup h) as Hnd.
  pose proof (sorted_names_sorted h) as Hsorted.
  set (files := merge_sort name_le (json_names h)) in *.
  set (k := (length files - 1000)%nat) in *.
  rewrite <- (take_drop k files) in Hnd, Hsorted, Hold.
  apply elem_of_app in Hold as [Hold | Hold]; [|contradiction].
  apply name_lt_iff. split.
  - eapply StronglySorted_app_1_elem_of; eauto.
  - intros ->. apply NoDup_app in Hnd as (_ & Hdisj & _).
    now destruct (Hdisj kept).
Qed.

(** C2: when [save_results] returns, at most 1000 history records remain;
    they are records of the directory as it was once the run was written,
    unchanged; every record removed is older, in the order of the names,
    than every record kept, so the records kept are the most recent ones;
    [count - 1000] records were removed, none when the count was at most
    1000; and the current record is the one of this run, which the cleanup
    leaves alone. *)
Theorem save_results_retention (w : world) (output_dir : string)
  (results : list check_result) (s s' : sys) :
  save_results w output_dir results s = (Ret tt, s') ->
  (length (json_names (history s')) <= 1000)%nat
  /\ length (json_names (history s'))
     = min (length (json_names (recorded w results s))) 1000
  /\ (length (json_names (recorded w results s))
      - length (json_names (history s'))
      = length (json_names (recorded w results s)) - 1000)%nat
  /\ (forall name,
        name ∈ json_names (history s') ->
        name ∈ json_names (recorded w results s)
        /\ history s' !! name = recorded w results s !! name)
  /\ (forall old kept,
        old ∈ json_names (recorded w results s) ->
        old ∉ json_names (history s') ->
        kept ∈ json_names (history s') ->
        name_lt old kept)
  /\ ((length (json_names (recorded w results s)) <= 1000)%nat ->
      history s' = recorded w results s)
  /\ current_json s'
     = Some (Whole {| snap_timestamp := now_iso w (tick s);
                      snap_servers := results |}).
Proof.
  intros ->%save_results_Ret. cbn [saved history current_json].
  set (h := recorded w results s).
  pose proof (json_names_cleaned_length h) as Hlen.
  split; [lia|]. split; [exact Hlen|]. split; [lia|].
  split; [|split; [|split; [|reflexivity]]].
  - intros name Hname.
    assert (cleaned h !! name = h !! name) as Heq.
    { apply json_names_cleaned in Hname. rewrite cleaned_lookup.
      destruct (decide (name ∈ expired h)) as [Hold | _]; [|reflexivity].
      pose proof (sorted_names_NoDup h) as Hnd.
      rewrite <- (take_drop (length (merge_sort name_le (json_names h)) - 1000)
                    (merge_sort name_le (json_names h))) in Hnd.
      apply NoDup_app in Hnd as (_ & Hdisj & _).
      now destruct (Hdisj name). }
    split; [|exact Heq].
    apply elem_of_json_names in Hname as [Hjson Hsome].
    apply elem_of_json_names. now rewrite <- Heq.
  - apply expired_older.
  - intros Hfew. rewrite cleaned_eq. unfold expired. cbv zeta.
    rewrite (Permutation_length (sorted_names_perm h)).
    replace (length (json_names h) - 1000)%nat with 0%nat by lia.
    reflexivity.
Qed.

Lemma save_results_retention_witness :
  save_results locked_world out_dir [] (full_state 3)
  = (Ret tt, snd (save_results locked_world out_dir [] (full_state 3)))
  /\ length (json_names (recorded locked_world [] (full_state 3))) = 4%nat
  /\ length (json_names
               (history (snd (save_results locked_world out_dir []
                                (full_state 3)))))
     = min (length (json_names (recorded locked_world [] (full_state 3)))) 1000
  /\ history (snd (save_results locked_world out_dir [] (full_state 3)))
     = recorded locked_world [] (full_state 3)
  /\ current_json (snd (save_results locked_world out_dir [] (full_state 3)))
     = Some (Whole {| snap_timestamp :=
                        now_iso locked_world (tick (full_state 3));
                      snap_servers := [] |}).
Proof.
  assert (save_results locked_world out_dir [] (full_state 3)
          = (Ret tt, snd (save_results locked_world out_dir [] (full_state 3))))
    as H by (vm_compute; reflexivity).
  assert (length (json_names (recorded locked_world [] (full_state 3)))
          = 4%nat) as Hfour by (vm_compute; reflexivity).
  split; [exact H|]. split; [exact Hfour|].
  pose proof (save_results_retention locked_world out_dir []
                (full_state 3) _ H) as (_ & Hlen & _ & _ & _ & Hsame & Hcur).
  split; [exact Hlen|]. split; [|exact Hcur].
  apply Hsame. rewrite Hfour. lia.
Defined.

(** With 1001 records in the directory, the run adds one and the two
    oldest are removed; the third oldest and the new one stay. *)
Example retention_example :
  length (json_names
            (history (snd (save_results locked_world out_dir []
                             (full_state 1001))))) = 1000%nat
  /\ history (snd (save_results locked_world out_dir [] (full_state 1001)))
     !! old_name 0 = None
  /\ history (snd (save_results locked_world out_dir [] (full_state 1001)))
     !! old_name 1 = None
  /\ history (snd (save_results locked_world out_dir [] (full_state 1001)))
     !! old_name 2 = Some (Whole empty_snapshot)
  /\ history (snd (save_results locked_world out_dir [] (full_state 1001)))
     !! "20240501_120000.json"
     = Some (Whole {| snap_timestamp := "2024-05-01T12:00:00";
                      snap_servers := [] |}).
Proof. repeat apply conj; vm_compute; reflexivity. Qed.

(** * Further properties *)

(** ** Remote execution, further *)

Lemma ssh_execute_state (w : world) (verbose : bool) (srv : server)
  (command : string) (s : sys) :
  issued (snd (ssh_execute w verbose srv command s))
  = issued s
    ++ match nonempty (srv_ip srv) with
       | Some ip => [ssh_argv srv ip command]
       | None => []
       end
  /\ current_json (snd (ssh_execute w verbose srv command s)) = current_json s
  /\ history (snd (ssh_execute w verbose srv command s)) = history s.
Proof.
  unfold ssh_execute, ssh_argv. destruct (nonempty (srv_ip srv)) as [ip|].
  2: { simpl. now rewrite app_nil_r. }
  unfold try_except, bind, subprocess_run, when, item_name, ret, raise, log.
  destruct (run w _ (tick s)) as [rc out err | | msg]; simpl;
    try destruct (rc =? 0); destruct verbose; simpl;
    destruct (srv_name srv); simpl; auto.
Qed.

(** X1: a call of [ssh_execute] runs exactly one command line when the
    server has a non-empty address, [ssh] with the options of lines 114-122,
    the port (22 by default), user (root by default) and address, then the
    command, and none when the address is missing or empty; this holds
    whether the call returns or raises, and the call never touches the
    files of the store. *)
Theorem ssh_execute_runs_one_command (w : world) (verbose : bool)
  (srv : server) (command : string) (s : sys) :
  issued (snd (ssh_execute w verbose srv command s))
  = issued s
    ++ match nonempty (srv_ip srv) with
       | Some ip => [ssh_argv srv ip command]
       | None => []
       end
  /\ current_json (snd (ssh_execute w verbose srv command s)) = current_json s
  /\ history (snd (ssh_execute w verbose srv command s)) = history s.
Proof. apply ssh_execute_state. Qed.

Lemma ssh_execute_answer (w : world) (verbose : bool) (srv : server)
  (command : string) (s : sys) :
  verbose = false \/ srv_name srv <> None ->
  fst (ssh_execute w verbose srv command s)
  = Ret match nonempty (srv_ip srv) with
        | Some ip => ssh_answer (run w (ssh_argv srv ip command) (tick s))
        | None => None
        end.
Proof.
  intros Hok. unfold ssh_execute, ssh_argv.
  destruct (nonempty (srv_ip srv)) as [ip|]; [|reflexivity].
  unfold try_except, bind, subprocess_run, when, item_name, ret, raise, log,
    ssh_answer.
  destruct (run w _ (tick s)) as [rc out err | | msg]; simpl;
    try destruct (rc =? 0); simpl; try reflexivity;
    destruct verbose; simpl; try reflexivity;
    (destruct (srv_name srv); simpl; [reflexivity|]);
    destruct Hok; congruence.
Qed.

(** X2: when the verbose log lines can name the server (always in
    non-verbose mode), [ssh_execute] never raises: it returns the stripped
    standard output when the command exits with status 0, and [None] for a
    non-zero exit status, a timeout, any other error of the launch, and a
    server without address. *)
Theorem ssh_execute_failures_are_none (w : world) (verbose : bool)
  (srv : server) (command : string) (s : sys) :
  verbose = false \/ srv_name srv <> None ->
  fst (ssh_execute w verbose srv command s)
  = Ret match nonempty (srv_ip srv) with
        | Some ip => ssh_answer (run w (ssh_argv srv ip command) (tick s))
        | None => None
        end.
Proof. apply ssh_execute_answer. Qed.

Lemma ssh_execute_failures_are_none_witness :
  fst (ssh_execute locked_world true srv_db memory_command start) = Ret None
  /\ fst (ssh_execute (make_world true (fun _ => TimedOut) true) true srv_db
            memory_command start) = Ret None
  /\ fst (ssh_execute (make_world true (only memory_command "  Mem: 1 1 0
") true) false srv_anon memory_command start) = Ret (Some "Mem: 1 1 0").
Proof.
  split; [|split].
  - rewrite (ssh_execute_failures_are_none locked_world true srv_db
               memory_command start) by (right; discriminate).
    reflexivity.
  - rewrite (ssh_execute_failures_are_none
               (make_world true (fun _ => TimedOut) true) true srv_db
               memory_command start) by (right; discriminate).
    reflexivity.
  - rewrite (ssh_execute_failures_are_none _ false srv_anon memory_command
               start) by (left; reflexivity).
    vm_compute. reflexivity.
Defined.

(** ** Threshold evaluation, further *)

Lemma check_cpu_spec (metrics : gmap string metric) (v : verdict) :
  check_cpu metrics v
  = (if cpu_warning metrics is [] then fst v else warning,
     snd v ++ cpu_warning metrics).
Proof.
  unfold check_cpu, cpu_warning. destruct v as [h ws].
  destruct (metrics !! "cpu") as [[| | cpu | | | | |]|]; simpl;
    rewrite ?app_nil_r; try reflexivity.
  destruct (PyFloat.truthy cpu && PyFloat.gt_int cpu 80); simpl;
    now rewrite ?app_nil_r.
Qed.

Lemma check_memory_spec (metrics : gmap string metric) (v : verdict) :
  check_memory metrics v
  = (if memory_warning metrics is [] then fst v else warning,
     snd v ++ memory_warning metrics).
Proof.
  unfold check_memory, memory_warning. destruct v as [h ws].
  destruct (metrics !! "memory") as [[| | | m | | | |]|]; simpl;
    rewrite ?app_nil_r; try reflexivity.
  destruct (PyFloat.gt_int (mem_percent m) 85); simpl; now rewrite ?app_nil_r.
Qed.

Lemma check_disk_fold_warnings (disks : list disk) (v : verdict) :
  snd (fold_left check_disk disks v)
  = snd v ++ map disk_warning (filter (fun d => 85 < percent d) disks).
Proof.
  revert v. induction disks as [|d disks IH]; intros v; simpl.
  - now rewrite app_nil_r.
  - rewrite IH, filter_cons. unfold check_disk.
    destruct (decide (85 < percent d)) as [Hd | Hd].
    + replace (85 <? percent d) with true by (symmetry; now apply Z.ltb_lt).
      simpl. now rewrite <- app_assoc.
    + replace (85 <? percent d) with false by (symmetry; apply Z.ltb_ge; lia).
      reflexivity.
Qed.

Lemma check_disks_spec (metrics : gmap string metric) (v : verdict) :
  check_disks metrics v = fold_left check_disk (disks_of metrics) v.
Proof.
  unfold check_disks, disks_of.
  now destruct (metrics !! "disk") as [[| | | | disks | | |]|].
Qed.

Lemma evaluate_warnings (metrics : gmap string metric) :
  snd (evaluate metrics)
  = cpu_warning metrics ++ memory_warning metrics
    ++ map disk_warning (high_disks metrics).
Proof.
  unfold evaluate, high_disks.
  rewrite check_disks_spec, check_disk_fold_warnings, check_memory_spec,
    check_cpu_spec.
  simpl. now rewrite <- app_assoc.
Qed.

Lemma last_high_disks (metrics : gmap string metric) :
  last_high (disks_of metrics) = List.last (map Some (high_disks metrics)) None.
Proof. reflexivity. Qed.

Lemma evaluate_status (metrics : gmap string metric) :
  fst (evaluate metrics)
  = match last_high (disks_of metrics) with
    | Some d => if 95 <? percent d then critical else warning
    | None =>
        if cpu_warning metrics ++ memory_warning metrics is [] then healthy
        else warning
    end.
Proof.
  unfold evaluate.
  rewrite check_disks_spec, check_disk_last_wins, check_memory_spec,
    check_cpu_spec.
  destruct (last_high (disks_of metrics)); [reflexivity|]. simpl.
  destruct (cpu_warning metrics), (memory_warning metrics); reflexivity.
Qed.

Lemma last_high_None (disks : list disk) :
  last_high disks = None <-> filter (fun d => 85 < percent d) disks = [].
Proof.
  unfold last_high.
  destruct (filter (fun d => 85 < percent d) disks) as [|d l] using rev_ind.
  - simpl. tauto.
  - rewrite map_app. simpl. rewrite last_last. split; [discriminate|].
    intros H. now apply app_eq_nil in H as [_ H].
Qed.

Lemma last_high_Some (disks : list disk) (d : disk) :
  last_high disks = Some d -> d ∈ disks /\ 85 < percent d.
Proof.
  unfold last_high.
  destruct (filter (fun d => 85 < percent d) disks) as [|x l] eqn:E
    using rev_ind; [discriminate|].
  rewrite map_app. simpl. rewrite last_last. intros [= ->].
  assert (d ∈ filter (fun d => 85 < percent d) disks) as Hin.
  { rewrite E. apply elem_of_app. right. now left. }
  apply list_elem_of_filter in Hin. tauto.
Qed.

(** X3: the warnings of the evaluation are, in this order, the CPU warning
    if the CPU check fires, the memory warning if the memory check fires,
    and one warning for each disk above 85 percent, in the order of the
    disks. *)
Theorem evaluate_warnings_in_order (metrics : gmap string metric) :
  snd (evaluate metrics)
  = cpu_warning metrics ++ memory_warning metrics
    ++ map disk_warning (high_disks metrics).
Proof. apply evaluate_warnings. Qed.

(** X4: the evaluation never gives [down], and it gives [healthy] exactly
    when it gives no warning. *)
Theorem healthy_iff_no_warning (metrics : gmap string metric) :
  fst (evaluate metrics) <> down
  /\ (fst (evaluate metrics) = healthy <-> snd (evaluate metrics) = []).
Proof.
  rewrite evaluate_status, evaluate_warnings.
  destruct (last_high (disks_of metrics)) as [d|] eqn:Hlast.
  - split; [destruct (95 <? percent d); discriminate|].
    split; [destruct (95 <? percent d); discriminate|].
    intros Hnil. apply app_eq_nil in Hnil as [_ Hnil].
    apply app_eq_nil in Hnil as [_ Hnil].
    rewrite last_high_disks in Hlast. unfold high_disks in *.
    destruct (filter _ (disks_of metrics)); [discriminate Hlast|].
    discriminate Hnil.
  - apply last_high_None in Hlast. unfold high_disks. rewrite Hlast. simpl.
    rewrite app_nil_r.
    destruct (cpu_warning metrics ++ memory_warning metrics); split;
      try discriminate; split; auto; discriminate.
Qed.

(** X5: the verdict depends on the keys [cpu], [memory] and [disk] only:
    uptime, load average, containers and services never change the status
    or the warnings. *)
Theorem evaluate_reads_three_keys (m1 m2 : gmap string metric) :
  m1 !! "cpu" = m2 !! "cpu" ->
  m1 !! "memory" = m2 !! "memory" ->
  m1 !! "disk" = m2 !! "disk" ->
  evaluate m1 = evaluate m2.
Proof.
  intros Hcpu Hmem Hdisk.
  unfold evaluate, check_disks, check_memory, check_cpu.
  now rewrite Hcpu, Hmem, Hdisk.
Qed.

Lemma evaluate_reads_three_keys_witness :
  evaluate (collected (Some "up 3 days") (Some 91%float) None (Some two_disks)
              None (Some docker_bundle) None)
  = evaluate {[ "cpu" := MNumber 91%float; "disk" := MDisks two_disks;
                "memory" := MNone ]}.
Proof.
  apply evaluate_reads_three_keys; vm_compute; reflexivity.
Defined.

(** X6: the status is [critical] only if some disk is above 95 percent;
    whatever the CPU and memory values, without such a disk the status is
    at most [warning]. *)
Theorem critical_needs_full_disk (metrics : gmap string metric) :
  fst (evaluate metrics) = critical ->
  exists d, d ∈ disks_of metrics /\ 95 < percent d.
Proof.
  rewrite evaluate_status.
  destruct (last_high (disks_of metrics)) as [d|] eqn:Hlast.
  - destruct (95 <? percent d) eqn:E; [|discriminate]. intros _.
    exists d. apply Z.ltb_lt in E. apply last_high_Some in Hlast. tauto.
  - destruct (cpu_warning metrics ++ memory_warning metrics); discriminate.
Qed.

Lemma critical_needs_full_disk_witness :
  fst (evaluate {[ "disk" := MDisks (rev two_disks) ]}) = critical
  /\ exists d, d ∈ disks_of {[ "disk" := MDisks (rev two_disks) ]}
               /\ 95 < percent d.
Proof.
  assert (fst (evaluate {[ "disk" := MDisks (rev two_disks) ]}) = critical)
    as H by (vm_compute; reflexivity).
  split; [exact H|].
  exact (critical_needs_full_disk _ H).
Defined.

(** ** The check of one host, further *)

Lemma evaluate_not_down (metrics : gmap string metric) :
  fst (evaluate metrics) <> down.
Proof.
  rewrite evaluate_status.
  destruct (last_high (disks_of metrics)) as [d|];
    [destruct (95 <? percent d); discriminate|].
  destruct (cpu_warning metrics ++ memory_warning metrics); discriminate.
Qed.

(** X7: in a result of [check_server] the status is [down] exactly when
    the host is not reachable. *)
Theorem down_iff_unreachable (w : world) (verbose : bool) (srv : server)
  (s s' : sys) (r : check_result) :
  check_server w verbose srv s = (Ret r, s') ->
  res_status r = down <-> res_reachable r = false.
Proof.
  intros [[-> _] | (o1 & o2 & o3 & o4 & o5 & o6 & outputs & _ & ->)]%check_server_Ret.
  - split; reflexivity.
  - simpl. split; [|discriminate].
    intros H. now apply evaluate_not_down in H.
Qed.

Lemma down_iff_unreachable_witness :
  check_server two_disks_world false srv_web start
  = (Ret two_disks_result,
     snd (check_server two_disks_world false srv_web start))
  /\ (res_status two_disks_result = down
      <-> res_reachable two_disks_result = false).
Proof.
  assert (check_server two_disks_world false srv_web start
          = (Ret two_disks_result,
             snd (check_server two_disks_world false srv_web start)))
    as H by (vm_compute; reflexivity).
  split; [exact H|].
  exact (down_iff_unreachable two_disks_world false srv_web start _ _ H).
Defined.

Lemma dom_collected (uptime : option string) (cpu : option float)
  (mem : option memory) (disks : option (list disk)) (avg : option load)
  (dock : option docker) (services : option (list service)) :
  dom (collected uptime cpu mem disks avg dock services) = metric_keys.
Proof.
  unfold collected, metric_keys. rewrite !dom_insert_L, dom_empty_L.
  set_solver.
Qed.

Lemma uptime_of_text (output : option string) :
  exists t, uptime_of output = Some t /\ t <> EmptyString.
Proof.
  unfold uptime_of, nonempty.
  destruct output as [[|c o]|]; eexists; split; try reflexivity; discriminate.
Qed.

(** X8: the [metrics] dictionary of a reachable host has exactly the seven
    keys [uptime], [cpu], [memory], [disk], [load], [docker] and
    [services], and its uptime is always a non-empty text, never [None]. *)
Theorem reachable_metrics_keys (w : world) (verbose : bool) (srv : server)
  (s s' : sys) (r : check_result) :
  check_server w verbose srv s = (Ret r, s') ->
  res_reachable r = true ->
  dom (res_metrics r) = metric_keys
  /\ exists t, res_metrics r !! "uptime" = Some (MText t) /\ t <> EmptyString.
Proof.
  intros [[-> _] | (o1 & o2 & o3 & o4 & o5 & o6 & outputs & _ & ->)]%check_server_Ret
    Hreach; [discriminate|].
  simpl. split; [apply dom_collected|].
  destruct (uptime_of_text o1) as (t & -> & Ht). now exists t.
Qed.

Lemma reachable_metrics_keys_witness :
  check_server two_disks_world false srv_web start
  = (Ret two_disks_result,
     snd (check_server two_disks_world false srv_web start))
  /\ dom (res_metrics two_disks_result) = metric_keys
  /\ exists t, res_metrics two_disks_result !! "uptime" = Some (MText t)
               /\ t <> EmptyString.
Proof.
  assert (check_server two_disks_world false srv_web start
          = (Ret two_disks_result,
             snd (check_server two_disks_world false srv_web start)))
    as H by (vm_compute; reflexivity).
  split; [exact H|].
  exact (reachable_metrics_keys two_disks_world false srv_web start _ _ H
           eq_refl).
Defined.

Lemma collect_Ret_state {A : Type} (w : world) (verbose : bool) (srv : server)
  (command : string) (f : option string -> A) (s s' : sys) (x : A) :
  (output <- ssh_execute w verbose srv command ;; ret (f output)) s
  = (Ret x, s') ->
  s' = snd (ssh_execute w verbose srv command s).
Proof.
  intros (output & s1 & Hssh & H)%bind_Ret. unfold ret in H.
  rewrite Hssh. simpl. congruence.
Qed.

Lemma collect_issued {A : Type} (w : world) (verbose : bool) (srv : server)
  (command : string) (f : option string -> A) (s s' : sys) (x : A) :
  (output <- ssh_execute w verbose srv command ;; ret (f output)) s
  = (Ret x, s') ->
  issued s' = issued s ++ argv_for srv [command].
Proof.
  intros ->%collect_Ret_state.
  destruct (ssh_execute_state w verbose srv command s) as (-> & _ & _).
  unfold argv_for. now destruct (nonempty (srv_ip srv)).
Qed.

Lemma argv_for_app (srv : server) (l1 l2 : list string) :
  argv_for srv (l1 ++ l2) = argv_for srv l1 ++ argv_for srv l2.
Proof.
  unfold argv_for. destruct (nonempty (srv_ip srv)); [apply map_app|reflexivity].
Qed.

Lemma for_each_services_issued (w : world) (verbose : bool) (srv : server)
  (names : list string) (acc results : list service) (s s' : sys) :
  for_each names
    (fun results service =>
       output <- ssh_execute w verbose srv (service_command service) ;;
       ret (service_step results service output)) acc s
  = (Ret results, s') ->
  issued s' = issued s ++ argv_for srv (map service_command names).
Proof.
  revert acc s. induction names as [|name names IH]; intros acc s; simpl.
  - intros [= _ <-]. unfold argv_for.
    destruct (nonempty (srv_ip srv)); simpl; now rewrite app_nil_r.
  - intros (acc' & s1 & Hstep & Hrest)%bind_Ret.
    apply collect_issued in Hstep. apply IH in Hrest.
    rewrite Hrest, Hstep, <- app_assoc.
    now rewrite <- argv_for_app.
Qed.

Lemma check_server_issued (w : world) (verbose : bool) (srv : server)
  (s s' : sys) (r : check_result) :
  check_server w verbose srv s = (Ret r, s') ->
  res_reachable r = true ->
  issued s' = issued s ++ argv_for srv remote_commands.
Proof.
  unfold check_server.
  intros ([] & s1 & Hlog & H)%bind_Ret Hreach.
  rewrite log_step in Hlog. simplify_eq.
  apply bind_Ret in H as (ts & s2 & Hts & H).
  unfold isoformat_now in Hts. simplify_eq/=.
  apply bind_Ret in H as (reach & s3 & Hping & H).
  assert (issued s3 = issued s) as Hs3.
  { unfold check_server_reachable, ret in Hping.
    destruct (srv_ip srv); simplify_eq; reflexivity. }
  destruct reach; simpl in H.
  2: { apply bind_Ret in H as ([] & s4 & _ & H). unfold ret in H.
       simplify_eq. }
  apply bind_Ret in H as (uptime & s4 & H1%collect_issued & H).
  apply bind_Ret in H as (cpu & s5 & H2%collect_issued & H).
  apply bind_Ret in H as (mem & s6 & H3%collect_issued & H).
  apply bind_Ret in H as (disks & s7 & H4%collect_issued & H).
  apply bind_Ret in H as (avg & s8 & H5%collect_issued & H).
  apply bind_Ret in H as (dock & s9 & H6%collect_issued & H).
  apply bind_Ret in H as (services & s10 & Hsvc & H).
  unfold get_services_status in Hsvc.
  apply bind_Ret in Hsvc as (found & s10' & Hloop%for_each_services_issued & Hret).
  unfold ret in Hret. simplify_eq.
  apply bind_Ret in H as ([] & s11 & Hlog & H). unfold ret in H. simplify_eq.
  assert (issued s' = issued s10) as ->.
  { destruct (fst (evaluate _)); rewrite log_step in Hlog; simplify_eq;
      reflexivity. }
  rewrite Hloop, H6, H5, H4, H3, H2, H1, Hs3. unfold remote_commands.
  rewrite argv_for_app, <- !app_assoc.
  unfold argv_for. destruct (nonempty (srv_ip srv)); reflexivity.
Qed.

(** X9: the check of a reachable host that has an address runs eleven
    remote commands, always in the same order: uptime, CPU, memory, disk,
    load average, containers, and one probe for each of the five default
    services. *)
Theorem check_server_command_sequence (w : world) (verbose : bool)
  (srv : server) (s s' : sys) (r : check_result) (ip : string) :
  check_server w verbose srv s = (Ret r, s') ->
  res_reachable r = true ->
  nonempty (srv_ip srv) = Some ip ->
  issued s' = issued s ++ map (ssh_argv srv ip) remote_commands
  /\ length (map (ssh_argv srv ip) remote_commands) = 11%nat.
Proof.
  intros H Hreach Hip. split; [|reflexivity].
  rewrite (check_server_issued _ _ _ _ _ _ H Hreach). unfold argv_for.
  now rewrite Hip.
Qed.

Lemma check_server_command_sequence_witness :
  check_server two_disks_world false srv_web start
  = (Ret two_disks_result,
     snd (check_server two_disks_world false srv_web start))
  /\ issued (snd (check_server two_disks_world false srv_web start))
     = issued start ++ map (ssh_argv srv_web "10.0.0.5") remote_commands
  /\ length (map (ssh_argv srv_web "10.0.0.5") remote_commands) = 11%nat.
Proof.
  assert (check_server two_disks_world false srv_web start
          = (Ret two_disks_result,
             snd (check_server two_disks_world false srv_web start)))
    as H by (vm_compute; reflexivity).
  split; [exact H|].
  exact (check_server_command_sequence two_disks_world false srv_web start _ _
           "10.0.0.5" H eq_refl eq_refl).
Defined.

(** ** The loop over the hosts, further *)

Lemma check_server_identity (w : world) (verbose : bool) (srv : server)
  (s s' : sys) (r : check_result) :
  check_server w verbose srv s = (Ret r, s') ->
  res_name r = default "Unknown" (srv_name srv)
  /\ res_ip r = srv_ip srv
  /\ is_status down r = negb (res_reachable r).
Proof.
  intros [[-> _] | (o1 & o2 & o3 & o4 & o5 & o6 & outputs & _ & ->)]%check_server_Ret.
  - repeat split.
  - repeat split. unfold is_status. simpl.
    pose proof (evaluate_not_down
                  (collected (uptime_of o1) (cpu_usage_of o2)
                     (memory_usage_of o3) (disk_usage_of o4)
                     (load_average_of o5) (docker_containers_of o6)
                     (services_from default_services outputs))) as H.
    now destruct (fst (evaluate _)).
Qed.

Lemma returned_cons_Ret {A : Type} (a : A) (os : list (outcome A)) :
  returned (Ret a :: os) = a :: returned os.
Proof. reflexivity. Qed.

Lemma returned_cons_Raise {A : Type} (e : exn) (os : list (outcome A)) :
  returned (Raise e :: os) = returned os.
Proof. reflexivity. Qed.

Lemma check_each_all_return (w : world) (verbose : bool)
  (servers : list server) (s : sys) :
  verbose = false \/ Forall (fun srv => srv_name srv <> None) servers ->
  map res_name (returned (check_each w verbose servers s))
  = map (fun srv => default "Unknown" (srv_name srv)) servers
  /\ map res_ip (returned (check_each w verbose servers s))
     = map srv_ip servers.
Proof.
  revert s. induction servers as [|srv rest IH]; intros s Hok; [now split|].
  cbn [check_each map].
  assert (verbose = false \/ srv_name srv <> None) as Hsrv.
  { destruct Hok as [? | Hall]; [now left | right].
    now apply Forall_cons in Hall as [? _]. }
  assert (verbose = false \/ Forall (fun srv => srv_name srv <> None) rest)
    as Hrest.
  { destruct Hok as [? | Hall]; [now left | right].
    now apply Forall_cons in Hall as [_ ?]. }
  destruct (check_server_returns w verbose srv s Hsrv) as (r & s1 & Hr).
  rewrite Hr. cbn [fst]. rewrite returned_cons_Ret. cbn [map].
  apply check_server_identity in Hr as (-> & -> & _).
  destruct (IH (snd (run_check w verbose [] srv s)) Hrest) as [-> ->].
  now split.
Qed.

(** X10: when no check can raise, that is in non-verbose mode or when
    every entry has a name, [run_checks] returns exactly one result for
    each server of the list, in the order of the list, carrying the name
    (or [Unknown]) and the address of its server. *)
Theorem one_result_per_server (w : world) (verbose : bool)
  (output_dir : string) (servers : list server) (s s' : sys)
  (results : list check_result) :
  verbose = false \/ Forall (fun srv => srv_name srv <> None) servers ->
  run_checks w verbose output_dir servers s = (Ret results, s') ->
  length results = length servers
  /\ map res_name results
     = map (fun srv => default "Unknown" (srv_name srv)) servers
  /\ map res_ip results = map srv_ip servers.
Proof.
  intros Hok H%run_checks_Ret. rewrite for_each_run_check in H.
  injection H as <-. simpl.
  destruct (check_each_all_return w verbose servers (headers servers s) Hok)
    as [Hnames Hips].
  split; [|now split].
  rewrite <- (length_map res_name), Hnames. apply length_map.
Qed.

Lemma one_result_per_server_witness :
  run_checks locked_world false out_dir [srv_anon; srv_web; srv_db] start
  = (Ret (map locked_result [srv_anon; srv_web; srv_db]),
     snd (run_checks locked_world false out_dir [srv_anon; srv_web; srv_db]
            start))
  /\ map res_name (map locked_result [srv_anon; srv_web; srv_db])
     = map (fun srv => default "Unknown" (srv_name srv))
         [srv_anon; srv_web; srv_db].
Proof.
  assert (run_checks locked_world false out_dir [srv_anon; srv_web; srv_db]
            start
          = (Ret (map locked_result [srv_anon; srv_web; srv_db]),
             snd (run_checks locked_world false out_dir
                    [srv_anon; srv_web; srv_db] start)))
    as H by (vm_compute; reflexivity).
  split; [exact H|].
  exact (proj1 (proj2 (one_result_per_server locked_world false out_dir
                         [srv_anon; srv_web; srv_db] start _ _
                         (or_introl eq_refl) H))).
Defined.

Lemma count_of_cons {A : Type} (p : A -> bool) (x : A) (l : list A) :
  count_of p (x :: l) = (if p x then 1 else 0) + count_of p l.
Proof.
  unfold count_of. rewrite filter_cons.
  destruct (decide (p x = true)) as [Hp | Hp]; destruct (p x); simpl;
    try congruence; lia.
Qed.

Lemma check_each_down (w : world) (verbose : bool) (servers : list server)
  (s : sys) :
  Forall (fun r => is_status down r = negb (res_reachable r))
    (returned (check_each w verbose servers s)).
Proof.
  revert s. induction servers as [|srv rest IH]; intros s; cbn [check_each].
  - constructor.
  - destruct (check_server w verbose srv s) as [[r | e] s1] eqn:Hr; cbn [fst].
    + rewrite returned_cons_Ret. constructor; [|apply IH].
      now apply check_server_identity in Hr as (_ & _ & ?).
    + rewrite returned_cons_Raise. apply IH.
Qed.

Lemma counts_partition (results : list check_result) :
  Forall (fun r => is_status down r = negb (res_reachable r)) results ->
  count_of (is_status healthy) results + count_of (is_status warning) results
  + count_of (is_status critical) results
  + count_of (fun r => negb (res_reachable r)) results
  = Z.of_nat (length results).
Proof.
  induction 1 as [|r results Hr _ IH]; [reflexivity|].
  rewrite !count_of_cons, <- Hr. cbn [length]. unfold is_status at 1 3 5 7.
  destruct (res_status r); lia.
Qed.

(** X11: the four numbers of the summary line of [run_checks] (healthy,
    warning, critical, down) add up to the number of results: each result
    is counted exactly once, although [down] is counted by [reachable] and
    the others by [status]. *)
Theorem summary_counts_add_up (w : world) (verbose : bool)
  (output_dir : string) (servers : list server) (s s' : sys)
  (results : list check_result) :
  run_checks w verbose output_dir servers s = (Ret results, s') ->
  count_of (is_status healthy) results + count_of (is_status warning) results
  + count_of (is_status critical) results
  + count_of (fun r => negb (res_reachable r)) results
  = Z.of_nat (length results).
Proof.
  intros H%run_checks_Ret. rewrite for_each_run_check in H.
  injection H as <-. apply counts_partition, check_each_down.
Qed.

Lemma summary_counts_add_up_witness :
  run_checks locked_world false out_dir [srv_anon; srv_web; srv_db] start
  = (Ret (map locked_result [srv_anon; srv_web; srv_db]),
     snd (run_checks locked_world false out_dir [srv_anon; srv_web; srv_db]
            start))
  /\ count_of (is_status healthy) (map locked_result [srv_anon; srv_web; srv_db])
     + count_of (is_status warning) (map locked_result [srv_anon; srv_web; srv_db])
     + count_of (is_status critical) (map locked_result [srv_anon; srv_web; srv_db])
     + count_of (fun r => negb (res_reachable r))
         (map locked_result [srv_anon; srv_web; srv_db])
     = Z.of_nat (length (map locked_result [srv_anon; srv_web; srv_db])).
Proof.
  assert (run_checks locked_world false out_dir [srv_anon; srv_web; srv_db]
            start
          = (Ret (map locked_result [srv_anon; srv_web; srv_db]),
             snd (run_checks locked_world false out_dir
                    [srv_anon; srv_web; srv_db] start)))
    as H by (vm_compute; reflexivity).
  split; [exact H|].
  exact (summary_counts_add_up locked_world false out_dir
           [srv_anon; srv_web; srv_db] start _ _ H).
Defined.

Lemma cleaned_small (h : gmap string file) :
  (length (json_names h) <= 1000)%nat -> cleaned h = h.
Proof.
  intros Hfew. rewrite cleaned_eq. unfold expired. cbv zeta.
  rewrite (Permutation_length (sorted_names_perm h)).
  replace (length (json_names h) - 1000)%nat with 0%nat by lia.
  reflexivity.
Qed.

Lemma run_checks_store (w : world) (verbose : bool) (output_dir : string)
  (servers : list server) (s s' : sys) (results : list check_result) :
  run_checks w verbose output_dir servers s = (Ret results, s') ->
  exists s1,
    for_each servers (run_check w verbose) [] (headers servers s)
    = (Ret results, s1)
    /\ current_json s'
       = Some (Whole {| snap_timestamp := now_iso w (tick s1);
                        snap_servers := results |})
    /\ history s' = cleaned (recorded w results s1).
Proof.
  rewrite run_checks_unfold.
  intros (found & s1 & Hloop & H)%bind_Ret.
  apply bind_Ret in H as ([] & s2 & Hsave & H).
  apply bind_Ret in H as ([] & s3 & Hl1 & H).
  apply bind_Ret in H as ([] & s4 & Hl2 & H).
  apply bind_Ret in H as ([] & s5 & Hl3 & H).
  rewrite log_step in Hl1, Hl2, Hl3. unfold ret in H.
  apply save_results_Ret in Hsave. simplify_eq.
  exists s1. split; [exact Hloop|]. split; reflexivity.
Qed.

(** X12: when [run_checks] returns, the current file holds a whole record,
    with exactly the results it returns; and if fewer than 1000 history
    records are left, one of them holds these results too. *)
Theorem run_checks_persists_results (w : world) (verbose : bool)
  (output_dir : string) (servers : list server) (s s' : sys)
  (results : list check_result) :
  run_checks w verbose output_dir servers s = (Ret results, s') ->
  snap_servers <$> (current_json s' ≫= json_load) = Some results
  /\ ((length (json_names (history s')) < 1000)%nat ->
      exists name snap,
        history s' !! name = Some (Whole snap)
        /\ snap_servers snap = results).
Proof.
  intros (s1 & _ & -> & ->)%run_checks_store. split; [reflexivity|].
  rewrite json_names_cleaned_length. intros Hfew.
  rewrite cleaned_small by lia.
  eexists _, _. split; [apply lookup_insert_eq | reflexivity].
Qed.

Lemma run_checks_persists_results_witness :
  run_checks locked_world false out_dir [srv_web] start
  = (Ret [locked_result srv_web],
     snd (run_checks locked_world false out_dir [srv_web] start))
  /\ snap_servers
     <$> (current_json (snd (run_checks locked_world false out_dir [srv_web]
                               start)) ≫= json_load)
     = Some [locked_result srv_web].
Proof.
  assert (run_checks locked_world false out_dir [srv_web] start
          = (Ret [locked_result srv_web],
             snd (run_checks locked_world false out_dir [srv_web] start)))
    as H by (vm_compute; reflexivity).
  split; [exact H|].
  exact (proj1 (run_checks_persists_results locked_world false out_dir
                  [srv_web] start _ _ H)).
Defined.

(** ** The snapshot store, further *)

Lemma json_names_dom (h1 h2 : gmap string file) :
  dom h1 = dom h2 -> json_names h1 = json_names h2.
Proof. unfold json_names. now intros ->. Qed.

Lemma save_results_history (w : world) (output_dir : string)
  (results : list check_result) (s s' : sys) :
  save_results w output_dir results s = (Ret tt, s') ->
  history s' = cleaned (recorded w results s).
Proof. now intros ->%save_results_Ret. Qed.

(** X13: two runs saved within the same second share one history record:
    when the directory (of at most 1000 records) already has a file with
    the name of the run, [save_results] replaces its content and the set
    of files stays the same. *)
Theorem same_second_overwrites (w : world) (output_dir : string)
  (results : list check_result) (s s' : sys) :
  save_results w output_dir results s = (Ret tt, s') ->
  is_Some (history s !! history_name w (tick s)) ->
  (length (json_names (history s)) <= 1000)%nat ->
  dom (history s') = dom (history s)
  /\ history s' !! history_name w (tick s)
     = Some (Whole {| snap_timestamp := now_iso w (S (tick s));
                      snap_servers := results |}).
Proof.
  intros Hsave%save_results_history Hold Hfew.
  assert (dom (recorded w results s) = dom (history s)) as Hdom.
  { unfold recorded. rewrite dom_insert_L.
    apply elem_of_dom in Hold.
    now apply subseteq_union_1_L, singleton_subseteq_l. }
  rewrite Hsave, cleaned_small by (now rewrite (json_names_dom _ _ Hdom)).
  split; [exact Hdom | apply lookup_insert_eq].
Qed.

Lemma same_second_overwrites_witness :
  save_results locked_world out_dir [locked_result srv_web]
    (snd (save_results locked_world out_dir [] start))
  = (Ret tt,
     snd (save_results locked_world out_dir [locked_result srv_web]
            (snd (save_results locked_world out_dir [] start))))
  /\ dom (history
            (snd (save_results locked_world out_dir [locked_result srv_web]
                    (snd (save_results locked_world out_dir [] start)))))
     = dom (history (snd (save_results locked_world out_dir [] start)))
  /\ history
       (snd (save_results locked_world out_dir [locked_result srv_web]
               (snd (save_results locked_world out_dir [] start))))
     !! history_name locked_world
          (tick (snd (save_results locked_world out_dir [] start)))
     = Some (Whole {| snap_timestamp :=
                        now_iso locked_world
                          (S (tick (snd (save_results locked_world out_dir []
                                           start))));
                      snap_servers := [locked_result srv_web] |}).
Proof.
  assert (save_results locked_world out_dir [locked_result srv_web]
            (snd (save_results locked_world out_dir [] start))
          = (Ret tt,
             snd (save_results locked_world out_dir [locked_result srv_web]
                    (snd (save_results locked_world out_dir [] start)))))
    as H by (vm_compute; reflexivity).
  split; [exact H|].
  apply (same_second_overwrites locked_world out_dir [locked_result srv_web]
           (snd (save_results locked_world out_dir [] start)) _ H).
  - vm_compute. eauto.
  - vm_compute. lia.
Defined.

(** X14: [save_results] is not atomic. When it raises, the exception is the
    [OSError] of a file operation and nothing is logged; what it leaves
    depends on the operation that failed. If the current file cannot be
    opened, nothing has changed. If writing it fails, it holds a part of
    the text and the history is as before. After that the current file
    holds the record of the run, and either the history is as before (its
    file cannot be opened), or its file holds a part of the text (writing it
    failed), or both files are written and the oldest records up to the one
    that cannot be removed are gone, the others kept. *)
Theorem save_results_failure_states (w : world) (output_dir : string)
  (results : list check_result) (s s' : sys) (e : exn) :
  save_results w output_dir results s = (Raise e, s') ->
  exists msg,
    e = OSError msg
    /\ logged s' = logged s
    /\ ((open_error w (current_file output_dir) (tick s) = Some msg
         /\ current_json s' = current_json s
         /\ history s' = history s)
        \/ (write_error w (current_file output_dir) (tick s) = Some msg
            /\ current_json s' = Some Partial
            /\ history s' = history s)
        \/ (current_json s' = Some (Whole (current_record w results s))
            /\ ((open_error w
                   (history_path output_dir (history_name w (tick s)))
                   (S (tick s)) = Some msg
                 /\ history s' = history s)
                \/ (write_error w
                      (history_path output_dir (history_name w (tick s)))
                      (S (tick s)) = Some msg
                    /\ history s'
                       = <[history_name w (tick s) := Partial]> (history s))
                \/ (exists removed name rest,
                      expired (recorded w results s)
                      = removed ++ name :: rest
                      /\ unlink_error w (history_path output_dir name)
                           (S (S (tick s))) = Some msg
                      /\ history s'
                         = delete_all removed (recorded w results s))))).
Proof.
  rewrite save_results_spec.
  destruct (open_error w (current_file output_dir) (tick s)) as [msg|] eqn:E1.
  { intros H. simplify_eq. exists msg. auto 10. }
  destruct (write_error w (current_file output_dir) (tick s)) as [msg|] eqn:E2.
  { intros H. simplify_eq. exists msg. auto 10. }
  destruct (open_error w _ (S (tick s))) as [msg|] eqn:E3.
  { intros H. simplify_eq. exists msg. auto 10. }
  destruct (write_error w _ (S (tick s))) as [msg|] eqn:E4.
  { intros H. simplify_eq. exists msg. auto 10. }
  intros H. apply (cleanup_Raise w output_dir (written w results s)) in H
    as (msg & removed & name & rest & -> & Hexp & Herr & ->).
  exists msg. split; [reflexivity|]. split; [reflexivity|].
  right. right. split; [reflexivity|]. right. right.
  exists removed, name, rest. auto.
Qed.

Lemma save_results_failure_states_witness :
  save_results full_disk_world out_dir [locked_result srv_web] (full_state 3)
  = (Raise (OSError "No space left on device"),
     snd (save_results full_disk_world out_dir [locked_result srv_web]
            (full_state 3)))
  /\ logged (snd (save_results full_disk_world out_dir [locked_result srv_web]
                    (full_state 3))) = []
  /\ history (snd (save_results full_disk_world out_dir
                     [locked_result srv_web] (full_state 3)))
     !! "20240501_120000.json" = Some Partial
  /\ exists msg,
       OSError "No space left on device" = OSError msg
       /\ write_error full_disk_world
            (history_path out_dir (history_name full_disk_world 0)) 1
          = Some msg.
Proof.
  assert (save_results full_disk_world out_dir [locked_result srv_web]
            (full_state 3)
          = (Raise (OSError "No space left on device"),
             snd (save_results full_disk_world out_dir [locked_result srv_web]
                    (full_state 3)))) as H by (vm_compute; reflexivity).
  split; [exact H|].
  destruct (save_results_failure_states full_disk_world out_dir _ _ _ _ H)
    as (msg & Hmsg & Hlog & _).
  split; [exact Hlog|]. split; [vm_compute; reflexivity|].
  exists msg. split; [exact Hmsg|].
  injection Hmsg as <-. vm_compute. reflexivity.
Defined.

(** With 1001 records in the directory and the second oldest one
    protected, the run is written, the oldest record is removed, and
    [save_results] raises there: the protected record and the records after
    it stay, one more than the limit. *)
Example unlink_failure_example :
  fst (save_results sticky_world out_dir [] (full_state 1001))
  = Raise (OSError "Permission denied")
  /\ history (snd (save_results sticky_world out_dir [] (full_state 1001)))
     !! old_name 0 = None
  /\ history (snd (save_results sticky_world out_dir [] (full_state 1001)))
     !! old_name 1 = Some (Whole empty_snapshot)
  /\ history (snd (save_results sticky_world out_dir [] (full_state 1001)))
     !! "20240501_120000.json"
     = Some (Whole {| snap_timestamp := "2024-05-01T12:00:00";
                      snap_servers := [] |})
  /\ length (json_names
               (history (snd (save_results sticky_world out_dir []
                                (full_state 1001))))) = 1001%nat.
Proof. repeat apply conj; vm_compute; reflexivity. Qed.

Lemma string_length_append (a b : string) :
  String.length (a ++ b)%string = (String.length a + String.length b)%nat.
Proof.
  induction a as [|c a IH]; [reflexivity|].
  change (S (String.length (a ++ b)%string)
          = S (String.length a + String.length b)%nat).
  now rewrite IH.
Qed.

Lemma ends_with_aux_append (suffix a : string) :
  PyStr.ends_with_aux suffix (a ++ suffix)%string (String.length a) = true.
Proof.
  induction a as [|c a IH]; [|exact IH].
  destruct suffix; [reflexivity | apply String.eqb_refl].
Qed.

Lemma ends_with_append (suffix a : string) :
  PyStr.ends_with suffix (a ++ suffix)%string = true.
Proof.
  unfold PyStr.ends_with. rewrite string_length_append.
  replace (String.length a + String.length suffix - String.length suffix)%nat
    with (String.length a) by lia.
  apply ends_with_aux_append.
Qed.

Lemma history_name_is_json (w : world) (t : nat) :
  is_json (history_name w t) = true.
Proof. apply (ends_with_append ".json" (now_stamp w (S t))). Qed.

Lemma expired_is_json (h : gmap string file) (name : string) :
  name ∈ expired h -> is_json name = true.
Proof.
  unfold expired. cbv zeta. intros Hin%subseteq_take.
  rewrite (sorted_names_perm h) in Hin.
  now apply elem_of_json_names in Hin as [? _].
Qed.

(** X15: [save_results] reads, replaces and removes only files whose name
    ends in [.json]: every other file of the history directory is kept as
    it is. *)
Theorem cleanup_spares_other_files (w : world) (output_dir : string)
  (results : list check_result) (s s' : sys) (name : string) :
  save_results w output_dir results s = (Ret tt, s') ->
  is_json name = false ->
  history s' !! name = history s !! name.
Proof.
  intros ->%save_results_history Hother. rewrite cleaned_lookup.
  destruct (decide (name ∈ expired (recorded w results s))) as [Hin | _].
  { apply expired_is_json in Hin. congruence. }
  unfold recorded. apply lookup_insert_ne. intros Heq.
  rewrite <- Heq, history_name_is_json in Hother. discriminate.
Qed.

Lemma cleanup_spares_other_files_witness :
  save_results locked_world out_dir [] noted_state
  = (Ret tt, snd (save_results locked_world out_dir [] noted_state))
  /\ history (snd (save_results locked_world out_dir [] noted_state))
     !! "README.txt" = history noted_state !! "README.txt".
Proof.
  assert (save_results locked_world out_dir [] noted_state
          = (Ret tt, snd (save_results locked_world out_dir [] noted_state)))
    as H by (vm_compute; reflexivity).
  split; [exact H|].
  exact (cleanup_spares_other_files locked_world out_dir [] noted_state _
           "README.txt" H eq_refl).
Defined.

(** ** The continuous run, further *)

(** A sleep of an acceptable length ends when it is over or when the user
    interrupts it; time passes either way. *)
Lemma sleep_accepted (w : world) (interval : Z) (s : sys) :
  0 <= interval <= sleep_limit ->
  sleep w interval s
  = (if interrupted w (tick s) then Raise KeyboardInterrupt else Ret tt,
     advance s).
Proof.
  intros [Hlow Hhigh]. unfold sleep.
  assert ((interval <? - sleep_limit) = false) as ->
      by (apply Z.ltb_ge; unfold sleep_limit in *; lia).
  assert ((sleep_limit <? interval) = false) as -> by (apply Z.ltb_ge; lia).
  assert ((interval <? 0) = false) as -> by (apply Z.ltb_ge; lia).
  cbn [orb]. now destruct (interrupted w (tick s)).
Qed.

(** X16: an interrupt during the sleep that follows a run, a sleep of an
    interval that [time.sleep] accepts, ends [run_continuous] without an
    exception: it logs [Stopped by user] and returns, and the files of the
    store stay as the last run left them. *)
Theorem interrupt_stops_cleanly (w : world) (verbose : bool)
  (output_dir : string) (servers : list server) (interval : Z)
  (n fuel : nat) (s sn s1 : sys) (results : list check_result) :
  0 <= interval <= sleep_limit ->
  forever w verbose output_dir servers interval n (banner interval s)
  = (Ret Running, sn) ->
  run_checks w verbose output_dir servers sn = (Ret results, s1) ->
  interrupted w (tick s1) = true ->
  (n < fuel)%nat ->
  exists s',
    run_continuous w verbose output_dir servers interval fuel s
    = (Ret Returned, s')
    /\ logged s' = logged s1 ++ [("info", String newline "Stopped by user")]
    /\ current_json s' = current_json s1
    /\ history s' = history s1.
Proof.
  intros Hinterval Hturns Hrun Hint Hfuel.
  rewrite run_continuous_unfold. unfold try_except.
  replace fuel with (n + S (fuel - S n))%nat by lia.
  rewrite (forever_more _ _ _ _ _ _ _ _ _ Hturns), forever_S.
  rewrite (bind_step _ _ _ _ _ Hrun).
  assert (sleep w interval s1 = (Raise KeyboardInterrupt, advance s1)) as Hsleep
      by (rewrite sleep_accepted by exact Hinterval; now rewrite Hint).
  rewrite (bind_fail _ _ _ _ _ Hsleep).
  eexists. split; [reflexivity|]. repeat split.
Qed.

Lemma interrupt_stops_cleanly_witness :
  exists s',
    run_continuous (interrupting_world 0) false out_dir [srv_web] 60 5 start
    = (Ret Returned, s')
    /\ logged s'
       = logged (snd (run_checks (interrupting_world 0) false out_dir [srv_web]
                        (banner 60 start)))
         ++ [("info", String newline "Stopped by user")]
    /\ current_json s'
       = current_json (snd (run_checks (interrupting_world 0) false out_dir
                              [srv_web] (banner 60 start)))
    /\ history s'
       = history (snd (run_checks (interrupting_world 0) false out_dir
                         [srv_web] (banner 60 start))).
Proof.
  apply (interrupt_stops_cleanly (interrupting_world 0) false out_dir
           [srv_web] 60 0 5 start (banner 60 start)
           (snd (run_checks (interrupting_world 0) false out_dir [srv_web]
                   (banner 60 start)))
           [locked_result srv_web]);
    [unfold sleep_limit; lia | reflexivity | vm_compute; reflexivity
    | vm_compute; reflexivity | lia].
Defined.

(** No file operation ever fails. *)
Lemma store_always_ok (w : world) (output_dir : string) (t : nat) :
  (forall path t, open_error w path t = None) ->
  (forall path t, write_error w path t = None) ->
  (forall path t, unlink_error w path t = None) ->
  store_ok w output_dir t.
Proof. intros Hopen Hwrite Hunlink. repeat split; auto. Qed.

(** [run_checks] returns whenever the file operations of its call of
    [save_results] succeed, whatever the hosts do. *)
Lemma run_checks_returns (w : world) (verbose : bool) (output_dir : string)
  (servers : list server) (s : sys) :
  (forall t, store_ok w output_dir t) ->
  exists results s',
    run_checks w verbose output_dir servers s = (Ret results, s').
Proof.
  intros Hstore. rewrite run_checks_unfold.
  pose proof (for_each_run_check w verbose servers [] (headers servers s))
    as Hloop.
  destruct (for_each servers (run_check w verbose) [] (headers servers s))
    as [o s1] eqn:E. simpl in Hloop. subst o.
  rewrite (bind_step _ _ _ _ _ E).
  destruct (save_results_returns w output_dir
              (returned (check_each w verbose servers (headers servers s))) s1
              (Hstore _)) as (s2 & Hsave).
  rewrite (bind_step _ _ _ _ _ Hsave). eexists _, _. reflexivity.
Qed.

Lemma forever_goes_on (w : world) (verbose : bool) (output_dir : string)
  (servers : list server) (interval : Z) (fuel : nat) (s : sys) :
  0 <= interval <= sleep_limit ->
  (forall t, store_ok w output_dir t) ->
  (forall t, interrupted w t = false) ->
  exists s',
    forever w verbose output_dir servers interval fuel s = (Ret Running, s').
Proof.
  intros Hinterval Hstore Hquiet. revert s.
  induction fuel as [|fuel IH]; intros s.
  - eexists. reflexivity.
  - rewrite forever_S.
    destruct (run_checks_returns w verbose output_dir servers s Hstore)
      as (results & s1 & Hrun).
    rewrite (bind_step _ _ _ _ _ Hrun).
    assert (sleep w interval s1 = (Ret tt, advance s1)) as Hsleep
        by (rewrite sleep_accepted by exact Hinterval; now rewrite Hquiet).
    rewrite (bind_step _ _ _ _ _ Hsleep). apply IH.
Qed.

(** A sleep of a length that [time.sleep] does not accept raises an
    exception that is not [KeyboardInterrupt], whatever the user does. *)
Lemma sleep_refused (w : world) (interval : Z) (s : sys) :
  interval < 0 \/ sleep_limit < interval ->
  exists e, sleep w interval s = (Raise e, s) /\ e <> KeyboardInterrupt.
Proof.
  intros Hbad. unfold sleep.
  destruct ((interval <? - sleep_limit) || (sleep_limit <? interval)) eqn:E.
  { eexists. split; [reflexivity | discriminate]. }
  apply orb_false_elim in E as [_ Hhigh%Z.ltb_ge].
  assert ((interval <? 0) = true) as -> by (apply Z.ltb_lt; lia).
  eexists. split; [reflexivity | discriminate].
Qed.

(** X17: with an inventory of mappings, an interval that [time.sleep]
    accepts (from 0 to [sleep_limit] seconds), file operations that all
    succeed and no interrupt, [run_continuous] goes on: whatever the hosts
    answer, and whatever exception a check raises, it is still running
    after any number of turns. With an interval that [time.sleep] does not
    accept it ends after the first run, with the exception of the sleep,
    which it does not catch. *)
Theorem run_continuous_goes_on (w : world) (verbose : bool)
  (output_dir : string) (servers : list server) (interval : Z) (fuel : nat)
  (s : sys) :
  (forall path t, open_error w path t = None) ->
  (forall path t, write_error w path t = None) ->
  (forall path t, unlink_error w path t = None) ->
  (0 <= interval <= sleep_limit ->
   (forall t, interrupted w t = false) ->
   exists s',
     run_continuous w verbose output_dir servers interval fuel s
     = (Ret Running, s'))
  /\ (interval < 0 \/ sleep_limit < interval ->
      exists results e,
        run_continuous w verbose output_dir servers interval (S fuel) s
        = (Raise e,
           snd (run_checks w verbose output_dir servers (banner interval s)))
        /\ run_checks w verbose output_dir servers (banner interval s)
           = (Ret results,
              snd (run_checks w verbose output_dir servers
                     (banner interval s)))
        /\ e <> KeyboardInterrupt).
Proof.
  intros Hopen Hwrite Hunlink.
  assert (forall t, store_ok w output_dir t) as Hstore
      by (intros t; now apply store_always_ok).
  split.
  - intros Hinterval Hquiet. rewrite run_continuous_unfold. unfold try_except.
    destruct (forever_goes_on w verbose output_dir servers interval fuel
                (banner interval s) Hinterval Hstore Hquiet) as (s' & ->).
    eauto.
  - intros Hbad. rewrite run_continuous_unfold. unfold try_except.
    rewrite forever_S.
    destruct (run_checks_returns w verbose output_dir servers
                (banner interval s) Hstore) as (results & s1 & Hrun).
    rewrite (bind_step _ _ _ _ _ Hrun), Hrun. cbn [snd].
    destruct (sleep_refused w interval s1 Hbad) as (e & Hsleep & He).
    rewrite (bind_fail _ _ _ _ _ Hsleep).
    exists results, e. split; [|auto].
    destruct e; try reflexivity. contradiction.
Qed.

Lemma run_continuous_goes_on_witness :
  (exists s',
     run_continuous locked_world true out_dir [srv_anon; srv_web] 60 3 start
     = (Ret Running, s'))
  /\ exists results e,
       run_continuous locked_world true out_dir [srv_anon; srv_web] (-1) 3
         start
       = (Raise e,
          snd (run_checks locked_world true out_dir [srv_anon; srv_web]
                 (banner (-1) start)))
       /\ run_checks locked_world true out_dir [srv_anon; srv_web]
            (banner (-1) start)
          = (Ret results,
             snd (run_checks locked_world true out_dir [srv_anon; srv_web]
                    (banner (-1) start)))
       /\ e <> KeyboardInterrupt.
Proof.
  split.
  - apply (run_continuous_goes_on locked_world true out_dir
             [srv_anon; srv_web] 60 3 start);
      try (intros; reflexivity). unfold sleep_limit. lia.
  - apply (run_continuous_goes_on locked_world true out_dir
             [srv_anon; srv_web] (-1) 2 start);
      try (intros; reflexivity). left. lia.
Defined.

(** ** Collectors, further *)

Lemma split_on_not_nil (sep : ascii) (s : string) : PyStr.split_on sep s <> [].
Proof.
  destruct s as [|c s]; simpl; [discriminate|].
  destruct (Ascii.eqb c sep); [discriminate|].
  destruct (PyStr.split_on sep s); discriminate.
Qed.

Lemma split_on_app (sep : ascii) (a b : string) :
  PyStr.split_on sep (a ++ String sep b)%string
  = PyStr.split_on sep a ++ PyStr.split_on sep b.
Proof.
  induction a as [|c a IH].
  - simpl. now rewrite Ascii.eqb_refl.
  - change (String c a ++ String sep b)%string
      with (String c (a ++ String sep b)%string).
    cbn [PyStr.split_on]. rewrite IH.
    destruct (Ascii.eqb c sep); [reflexivity|].
    pose proof (split_on_not_nil sep a) as Hne.
    destruct (PyStr.split_on sep a); [contradiction | reflexivity].
Qed.

Lemma split_on_single (sep : ascii) (s : string) :
  PyStr.contains sep s = false -> PyStr.split_on sep s = [s].
Proof.
  induction s as [|c s IH]; simpl; [reflexivity|].
  rewrite Ascii.eqb_sym. intros [Hc Hs]%orb_false_elim.
  rewrite Hc, (IH Hs). reflexivity.
Qed.

Lemma disk_step_skip (disks : list disk) (line : string) :
  disk_row_malformed line -> disk_step disks line = disks.
Proof.
  unfold disk_row_malformed, disk_step.
  destruct (PyStr.split line) as [|? [|? [|? [|? [|p4 [|? ?]]]]]]; auto.
  now intros ->.
Qed.

Lemma nonempty_append (a : string) (c : ascii) (b : string) :
  nonempty (Some (a ++ String c b)%string) = Some (a ++ String c b)%string.
Proof. now destruct a. Qed.

(** X18: a malformed row of the [df] output, one with fewer than six fields
    or a usage that is not a number, is skipped on its own: the result is
    the same as for the output without that row. *)
Theorem malformed_disk_row_is_skipped (before bad after : string) :
  PyStr.contains newline bad = false ->
  disk_row_malformed bad ->
  disk_usage_of
    (Some (before ++ String newline (bad ++ String newline after))%string)
  = disk_usage_of (Some (before ++ String newline after)%string).
Proof.
  intros Hline Hbad. unfold disk_usage_of. rewrite !nonempty_append.
  rewrite !split_on_app, (split_on_single _ _ Hline), !fold_left_app.
  cbn [fold_left app]. now rewrite (disk_step_skip _ _ Hbad).
Qed.

Lemma malformed_disk_row_is_skipped_witness :
  disk_usage_of
    (Some ("/dev/sda1 100G 97G 3G 97% /"
           ++ String newline
                ("/dev/sdc1 20G 2G 18G n/a /srv"
                 ++ String newline "/dev/sdb1 50G 45G 5G 90% /data"))%string)
  = disk_usage_of
      (Some ("/dev/sda1 100G 97G 3G 97% /"
             ++ String newline "/dev/sdb1 50G 45G 5G 90% /data")%string).
Proof.
  apply malformed_disk_row_is_skipped; reflexivity.
Defined.

Lemma service_step_ok (results : list service) (name : string)
  (output : option string) :
  exists added,
    service_step results name output = results ++ added
    /\ Forall service_ok added
    /\ map svc_name added `sublist_of` [name].
Proof.
  unfold service_step, nonempty.
  destruct output as [[|c o]|].
  - exists []. rewrite app_nil_r. repeat split; [constructor|].
    apply sublist_nil_l.
  - destruct (String.eqb (String c o) "not-found") eqn:E.
    + exists []. rewrite app_nil_r. repeat split; [constructor|].
      apply sublist_nil_l.
    + eexists [_]. split; [reflexivity|]. split; [|reflexivity].
      constructor; [|constructor]. unfold service_ok. simpl.
      split; [discriminate|]. split; [|reflexivity].
      intros Heq. rewrite Heq in E. discriminate.
  - exists []. rewrite app_nil_r. repeat split; [constructor|].
    apply sublist_nil_l.
Qed.

Lemma services_fold_ok (names : list string) (outputs : list (option string))
  (acc : list service) :
  exists added,
    fold_left (fun results p => service_step results (fst p) (snd p))
      (zip names outputs) acc = acc ++ added
    /\ Forall service_ok added
    /\ map svc_name added `sublist_of` names.
Proof.
  revert outputs acc. induction names as [|name names IH]; intros outputs acc.
  - exists []. simpl. rewrite app_nil_r. repeat split; constructor.
  - destruct outputs as [|output outputs].
    + exists []. simpl. rewrite app_nil_r. repeat split; [constructor|].
      apply sublist_nil_l.
    + simpl.
      destruct (service_step_ok acc name output) as (a1 & -> & Hok1 & Hsub1).
      destruct (IH outputs (acc ++ a1)) as (a2 & -> & Hok2 & Hsub2).
      exists (a1 ++ a2). rewrite <- app_assoc. split; [reflexivity|].
      split; [now apply Forall_app|].
      rewrite map_app. change (name :: names) with ([name] ++ names).
      now apply sublist_app.
Qed.

(** X19: every entry of a result of [get_services_status] has a status
    that is neither empty nor [not-found], and is marked running exactly
    when its status is [active]. Every service queried is probed, once and
    in order, and the entries name services that were queried, in that
    order: the services given when a list that is not empty is given, the
    five default ones otherwise. *)
Theorem services_are_resolved (w : world) (verbose : bool) (srv : server)
  (given : option (list string)) (s s' : sys) (found : list service) :
  get_services_status w verbose srv given s = (Ret (Some found), s') ->
  Forall service_ok found
  /\ (forall services,
        given = Some services -> services <> [] ->
        map svc_name found `sublist_of` services
        /\ issued s'
           = issued s ++ argv_for srv (map service_command services))
  /\ (given = None \/ given = Some [] ->
      map svc_name found
      `sublist_of` ["ssh"; "docker"; "nginx"; "postgresql"; "mysql"]
      /\ issued s'
         = issued s
           ++ argv_for srv
                (map service_command
                   ["ssh"; "docker"; "nginx"; "postgresql"; "mysql"])).
Proof.
  unfold get_services_status. fold (queried given).
  intros (results & s1 & Hloop & H)%bind_Ret.
  pose proof (for_each_services_issued _ _ _ _ _ _ _ _ Hloop) as Hissued.
  apply for_each_services_Ret in Hloop as (outputs & _ & ->).
  destruct (services_fold_ok (queried given) outputs [])
    as (added & Heq & Hok & Hsub).
  rewrite Heq in H. simpl in H. unfold ret, nonempty_list in H.
  destruct added; [discriminate|]. injection H as <- <-.
  split; [exact Hok|]. split.
  - intros services -> Hne. destruct services; [contradiction | now split].
  - intros [-> | ->]; now split.
Qed.

Lemma services_are_resolved_witness :
  get_services_status cron_world false srv_web
    (Some ["cron"; "nginx"; "redis"]) start
  = (Ret (Some [{| svc_name := "cron"; svc_status := "inactive";
                   svc_running := false |};
                {| svc_name := "nginx"; svc_status := "active";
                   svc_running := true |}]),
     snd (get_services_status cron_world false srv_web
            (Some ["cron"; "nginx"; "redis"]) start))
  /\ Forall service_ok [{| svc_name := "cron"; svc_status := "inactive";
                           svc_running := false |};
                        {| svc_name := "nginx"; svc_status := "active";
                           svc_running := true |}]
  /\ map svc_name [{| svc_name := "cron"; svc_status := "inactive";
                      svc_running := false |};
                   {| svc_name := "nginx"; svc_status := "active";
                      svc_running := true |}]
     `sublist_of` ["cron"; "nginx"; "redis"]
  /\ issued (snd (get_services_status cron_world false srv_web
                    (Some ["cron"; "nginx"; "redis"]) start))
     = issued start
       ++ argv_for srv_web (map service_command ["cron"; "nginx"; "redis"]).
Proof.
  assert (get_services_status cron_world false srv_web
            (Some ["cron"; "nginx"; "redis"]) start
          = (Ret (Some [{| svc_name := "cron"; svc_status := "inactive";
                           svc_running := false |};
                        {| svc_name := "nginx"; svc_status := "active";
                           svc_running := true |}]),
             snd (get_services_status cron_world false srv_web
                    (Some ["cron"; "nginx"; "redis"]) start)))
    as H by (vm_compute; reflexivity).
  split; [exact H|].
  destruct (services_are_resolved cron_world false srv_web
              (Some ["cron"; "nginx"; "redis"]) start _ _ H)
    as (Hok & Hgiven & _).
  split; [exact Hok|]. apply Hgiven; [reflexivity | discriminate].
Defined.

(** ** The configuration file *)

Lemma extend_groups_flat (groups : list (yaml * yaml)) (servers : list yaml) :
  fold_left extend_group groups servers
  = servers ++ flat_map group_servers groups.
Proof.
  revert servers. induction groups as [|g groups IH]; intros servers; simpl.
  - now rewrite app_nil_r.
  - rewrite IH. unfold extend_group, group_servers.
    destruct (snd g); rewrite <- ?app_assoc; reflexivity.
Qed.

(** X20: for a configuration whose [servers] entry is a mapping of groups,
    [load_config] appends to the server list the servers of every group
    whose value is a list, group after group in the order of the file and
    in the order of each list; groups with another value are skipped
    without an error; and it logs the number of servers. *)
Theorem load_config_flattens_groups (fault_text : fault -> string)
  (config_file : string) (entries groups : list (yaml * yaml))
  (servers : list yaml) (s : sys) :
  lookup_key "servers" entries = Some (YMap groups) ->
  load_config fault_text config_file (Parsed (YMap entries)) servers s
  = (Ret (Loaded (servers ++ flat_map group_servers groups)),
     snd (log (fstring ["Loaded ";
                        PyStr.str_of_int
                          (Z.of_nat (length (servers
                                             ++ flat_map group_servers groups)));
                        " server(s) from config"]) "success" s)).
Proof.
  intros Hkey. unfold load_config, read_servers. rewrite Hkey.
  rewrite extend_groups_flat. reflexivity.
Qed.

Lemma load_config_flattens_groups_witness :
  load_config plain_text "inventory/servers.yaml"
    (Parsed (YMap inventory_entries)) [] start
  = (Ret (Loaded ([] ++ flat_map group_servers inventory_groups)),
     snd (log (fstring ["Loaded ";
                        PyStr.str_of_int
                          (Z.of_nat
                             (length ([] ++ flat_map group_servers
                                               inventory_groups)));
                        " server(s) from config"]) "success" start))
  /\ flat_map group_servers inventory_groups
     = [YMap [(YStr "name", YStr "web1")]; YMap [(YStr "name", YStr "web2")];
        YMap [(YStr "name", YStr "db1")]].
Proof.
  split; [|reflexivity].
  exact (load_config_flattens_groups plain_text "inventory/servers.yaml"
           inventory_entries inventory_groups [] start eq_refl).
Defined.

(** X21: [load_config] never raises and always logs exactly one line: a
    line of level [success] when it returns the servers, a line of level
    [error] when the process exits, and then always with code 1. *)
Theorem load_config_logs_one_line (fault_text : fault -> string)
  (config_file : string) (source : config_source) (servers : list yaml)
  (s : sys) :
  exists outcome level message,
    load_config fault_text config_file source servers s
    = (Ret outcome, snd (log message level s))
    /\ ((exists loaded, outcome = Loaded loaded /\ level = "success")
        \/ (outcome = Exited 1 /\ level = "error")).
Proof.
  unfold load_config. destruct source as [| msg | config].
  - eexists _, _, _. split; [reflexivity|]. right. now split.
  - eexists _, _, _. split; [reflexivity|]. right. now split.
  - destruct (read_servers servers config) as [e | loaded].
    + eexists _, _, _. split; [reflexivity|]. right. now split.
    + eexists _, _, _. split; [reflexivity|]. left. eauto.
Qed.

(** X22: a configuration that is a mapping without the key [servers] loads
    no server and is no error, whereas an empty file (the null value), a
    number or a boolean, and a [servers] entry that is not a mapping, make
    the process exit with code 1. *)
Theorem load_config_without_servers (fault_text : fault -> string)
  (config_file : string) (servers : list yaml) (s : sys) :
  (forall entries,
     lookup_key "servers" entries = None ->
     fst (load_config fault_text config_file (Parsed (YMap entries)) servers s)
     = Ret (Loaded servers))
  /\ (forall config,
        match config with
        | YNull | YBool _ | YInt _ | YFloat _ => True
        | _ => False
        end ->
        fst (load_config fault_text config_file (Parsed config) servers s)
        = Ret (Exited 1))
  /\ (forall entries value,
        lookup_key "servers" entries = Some value ->
        match value with YMap _ => False | _ => True end ->
        fst (load_config fault_text config_file (Parsed (YMap entries))
               servers s)
        = Ret (Exited 1)).
Proof.
  unfold load_config, read_servers. repeat split.
  - intros entries ->. reflexivity.
  - intros [] H; try contradiction; reflexivity.
  - intros entries value -> H. destruct value; try contradiction; reflexivity.
Qed.

Lemma load_config_without_servers_witness :
  fst (load_config plain_text "inventory/servers.yaml"
         (Parsed (YMap [(YStr "defaults", YNull)])) [] start)
  = Ret (Loaded [])
  /\ fst (load_config plain_text "inventory/servers.yaml" (Parsed YNull) []
            start) = Ret (Exited 1)
  /\ fst (load_config plain_text "inventory/servers.yaml"
            (Parsed (YMap [(YStr "servers", YList [YStr "web1"])])) [] start)
     = Ret (Exited 1).
Proof.
  destruct (load_config_without_servers plain_text "inventory/servers.yaml"
              [] start) as (Hnone & Hscalar & Hshape).
  split; [apply Hnone; reflexivity|].
  split; [apply (Hscalar YNull); exact I|].
  apply (Hshape _ (YList [YStr "web1"])); [reflexivity | exact I].
Defined.

(** ** A server entry without address *)

(** X23: a server entry without the key [ip] is reported [down] at once:
    [check_server] returns the initial dictionary without sending a ping
    or running a remote command. *)
Theorem host_without_address_is_down (w : world) (verbose : bool)
  (srv : server) (s : sys) :
  srv_ip srv = None ->
  fst (check_server w verbose srv s)
  = Ret (unreachable_result srv (now_iso w (tick s)))
  /\ tick (snd (check_server w verbose srv s)) = tick s
  /\ issued (snd (check_server w verbose srv s)) = issued s.
Proof.
  intros Hip. unfold check_server, check_server_reachable, bind, unreachable_result.
  rewrite Hip. repeat split.
Qed.

Lemma host_without_address_is_down_witness :
  fst (check_server two_disks_world true srv_ghost start)
  = Ret (unreachable_result srv_ghost (now_iso two_disks_world (tick start)))
  /\ tick (snd (check_server two_disks_world true srv_ghost start))
     = tick start
  /\ issued (snd (check_server two_disks_world true srv_ghost start))
     = issued start.
Proof.
  exact (host_without_address_is_down two_disks_world true srv_ghost start
           eq_refl).
Defined.

(** ** The dashboard *)

#[local] Instance flip_name_le_trans : Transitive (flip name_le).
Proof. intros a b c Hab Hbc. unfold flip in *. now transitivity b. Qed.

Lemma newest_sorted (h : gmap string file) :
  StronglySorted (flip name_le) (reverse (merge_sort name_le (json_names h))).
Proof.
  apply Sorted_StronglySorted; [apply _|].
  apply Sorted_reverse, Sorted_merge_sort, _.
Qed.

Lemma newest_files_in (h : gmap string file) (name : string) :
  name ∈ newest_files h -> is_json name = true /\ is_Some (h !! name).
Proof.
  unfold newest_files. intros Hin%subseteq_take.
  rewrite elem_of_reverse, (sorted_names_perm h) in Hin.
  now apply elem_of_json_names.
Qed.

(** What [api_history] serves is what the files it opens hold. *)
Lemma api_history_Ok (h : gmap string file) (loaded : list snapshot) :
  api_history h = Ok200 loaded ->
  Forall2 (fun name snap => h !! name = Some (Whole snap))
    (newest_files h) loaded.
Proof.
  unfold api_history.
  destruct (mapM (fun name => h !! name ≫= json_load) (newest_files h))
    as [found|] eqn:E; [|discriminate].
  intros [= <-]. apply mapM_Some_1 in E.
  eapply Forall2_impl; [exact E|].
  intros name snap Hname. simpl in Hname.
  destruct (h !! name) as [[snap'|]|]; simpl in Hname; congruence.
Qed.

Lemma api_history_loads (h : gmap string file) :
  servable h ->
  exists loaded,
    api_history h = Ok200 loaded
    /\ Forall2 (fun name snap => h !! name = Some (Whole snap))
         (newest_files h) loaded.
Proof.
  intros Hall.
  destruct (api_history h) as [loaded|] eqn:E.
  { exists loaded. split; [reflexivity | now apply api_history_Ok]. }
  unfold api_history in E.
  assert (is_Some (mapM (fun name => h !! name ≫= json_load)
                     (newest_files h))) as [found Hs].
  { apply mapM_is_Some_2. eapply Forall_impl; [exact Hall|].
    intros name [snap Hsnap]. unfold compose. rewrite Hsnap. now exists snap. }
  rewrite Hs in E. discriminate.
Qed.

(** X24: [api_history] opens at most 100 history records, the newest
    first, and every record it leaves out is older than every record it
    opens. When all of these hold a whole record, as [save_results] writes
    it, the answer has status 200 and is their content in that order; when
    one of them does not, the answer has status 500. *)
Theorem api_history_newest_first (h : gmap string file) :
  StronglySorted (flip name_le) (newest_files h)
  /\ (forall served older,
        served ∈ newest_files h -> older ∈ json_names h ->
        older ∉ newest_files h -> name_lt older served)
  /\ (servable h ->
      exists loaded,
        api_history h = Ok200 loaded
        /\ length loaded = min (length (json_names h)) 100
        /\ Forall2 (fun name snap => h !! name = Some (Whole snap))
             (newest_files h) loaded)
  /\ (~ servable h -> api_history h = Error500).
Proof.
  pose proof (newest_sorted h) as Hsorted.
  assert (NoDup (reverse (merge_sort name_le (json_names h)))) as Hnd.
  { rewrite reverse_Permutation. apply sorted_names_NoDup. }
  assert (length (newest_files h) = min (length (json_names h)) 100) as Hlen.
  { unfold newest_files.
    rewrite length_take, length_reverse,
      (Permutation_length (sorted_names_perm h)). lia. }
  unfold newest_files in Hlen |- *.
  set (files := reverse (merge_sort name_le (json_names h))) in *.
  rewrite <- (take_drop 100 files) in Hsorted, Hnd.
  split; [now apply StronglySorted_app_1_l in Hsorted|].
  split.
  { intros served older Hserved Holder Hout.
    assert (older ∈ drop 100 files) as Hdrop.
    { assert (older ∈ files) as Hin.
      { unfold files. now rewrite elem_of_reverse, (sorted_names_perm h). }
      rewrite <- (take_drop 100 files) in Hin.
      apply elem_of_app in Hin as [? | ?]; [contradiction | assumption]. }
    apply name_lt_iff. split.
    - exact (StronglySorted_app_1_elem_of _ _ _ _ _ Hsorted Hserved Hdrop).
    - intros ->. apply NoDup_app in Hnd as (_ & Hdisj & _).
      now destruct (Hdisj served). }
  split.
  - intros (loaded & Hok & Hall)%api_history_loads.
    exists loaded. split; [exact Hok|]. split; [|exact Hall].
    now rewrite <- (Forall2_length _ _ _ Hall).
  - intros Hbad. destruct (api_history h) as [loaded|] eqn:E; [|reflexivity].
    destruct Hbad. apply api_history_Ok in E. unfold servable.
    eapply Forall2_Forall_l; [exact E|].
    apply Forall_true. intros snap name Hname. eauto.
Qed.

Lemma api_history_newest_first_witness :
  (exists loaded,
     api_history (full_history 3) = Ok200 loaded /\ length loaded = 3%nat)
  /\ api_history torn_history = Error500.
Proof.
  destruct (api_history_newest_first (full_history 3))
    as (_ & _ & Hserved & _).
  destruct (api_history_newest_first torn_history) as (_ & _ & _ & Htorn).
  split.
  - destruct Hserved as (loaded & Hok & Hlen & _).
    { unfold servable.
      assert (newest_files (full_history 3)
              = [old_name 2; old_name 1; old_name 0]) as ->
          by (vm_compute; reflexivity).
      repeat (constructor; [eexists; vm_compute; reflexivity|]).
      constructor. }
    exists loaded. split; [exact Hok|]. rewrite Hlen. vm_compute. reflexivity.
  - apply Htorn. unfold servable.
    assert (newest_files torn_history
            = [old_name 2; old_name 1; old_name 0]) as ->
        by (vm_compute; reflexivity).
    intros [[snap Hsnap] _]%Forall_cons. vm_compute in Hsnap. discriminate.
Defined.

Lemma greatest_is_last (l : list string) (x : string) :
  StronglySorted name_le l -> NoDup l -> x ∈ l ->
  (forall y, y ∈ l -> name_le y x) ->
  exists init, l = init ++ [x].
Proof.
  destruct l as [|z init _] using rev_ind.
  { intros _ _ Hin. now apply not_elem_of_nil in Hin. }
  intros Hsorted Hnd Hin Hmax.
  destruct (decide (x = z)) as [-> | Hne]; [now exists init|].
  apply elem_of_app in Hin as [Hinit | Hlast].
  - assert (name_le x z) as Hxz.
    { eapply StronglySorted_app_1_elem_of; [exact Hsorted | exact Hinit |].
      now left. }
    assert (name_le z x) as Hzx.
    { apply Hmax, elem_of_app. right. now left. }
    destruct Hne. now apply (anti_symm name_le).
  - apply list_elem_of_singleton in Hlast. contradiction.
Qed.

Lemma json_names_cleaned_sub (h : gmap string file) (name : string) :
  name ∈ json_names (cleaned h) -> name ∈ json_names h.
Proof.
  rewrite !elem_of_json_names, cleaned_lookup.
  destruct (decide (name ∈ expired h)); [|tauto].
  intros [_ [x Hx]]. discriminate.
Qed.

(** The record with the greatest name is never among the ones removed. *)
Lemma greatest_survives (h : gmap string file) (name : string) :
  name ∈ json_names h ->
  (forall other, other ∈ json_names h -> name_le other name) ->
  name ∈ json_names (cleaned h).
Proof.
  intros Hin Hmax.
  destruct (decide (name ∈ json_names (cleaned h))) as [? | Hgone];
    [assumption|].
  destruct (json_names (cleaned h)) as [|kept rest] eqn:E.
  - pose proof (json_names_cleaned_length h) as Hlen. rewrite E in Hlen.
    destruct (json_names h); [now apply not_elem_of_nil in Hin|].
    simpl in Hlen. lia.
  - assert (kept ∈ json_names (cleaned h)) as Hkept by (rewrite E; now left).
    assert (name_lt name kept) as [Hle Hne]%name_lt_iff.
    { apply (expired_older h); [assumption | now rewrite E | assumption]. }
    destruct Hne. apply (anti_symm name_le); [assumption|].
    now apply Hmax, json_names_cleaned_sub.
Qed.

(** X25: when the name of a run is not smaller than the names of the
    records already in the history directory (the clock did not go back),
    the first record [api_history] serves after [save_results] returned is
    the record of that run, whenever it answers with status 200, and it
    does so when the records already in the directory are whole. *)
Theorem api_history_serves_latest_run (w : world) (output_dir : string)
  (results : list check_result) (s s' : sys) :
  save_results w output_dir results s = (Ret tt, s') ->
  (forall name,
     name ∈ json_names (history s) ->
     name_le name (history_name w (tick s))) ->
  (forall loaded,
     api_history (history s') = Ok200 loaded ->
     exists rest,
       loaded = {| snap_timestamp := now_iso w (S (tick s));
                   snap_servers := results |} :: rest)
  /\ (all_whole (history s) ->
      exists rest,
        api_history (history s')
        = Ok200 ({| snap_timestamp := now_iso w (S (tick s));
                    snap_servers := results |} :: rest)).
Proof.
  intros ->%save_results_history Hclock.
  set (new := history_name w (tick s)) in *.
  set (h := recorded w results s).
  assert (h !! new = Some (Whole {| snap_timestamp := now_iso w (S (tick s));
                                    snap_servers := results |})) as Hnew
      by apply lookup_insert_eq.
  assert (forall other, other ∈ json_names h -> name_le other new) as Hmax.
  { intros other [Hjson [x Hx]]%elem_of_json_names.
    destruct (decide (other = new)) as [-> | Hne].
    - apply name_le_cases. now left.
    - apply Hclock, elem_of_json_names. split; [assumption|].
      unfold h, recorded in Hx.
      rewrite lookup_insert_ne in Hx by (intros Heq; now apply Hne).
      eauto. }
  assert (new ∈ json_names (cleaned h)) as Hin.
  { apply greatest_survives; [|exact Hmax].
    apply elem_of_json_names. split; [apply history_name_is_json | eauto]. }
  assert (cleaned h !! new = h !! new) as Hkept.
  { apply elem_of_json_names in Hin as [_ [x Hx]].
    rewrite cleaned_lookup in Hx |- *.
    destruct (decide (new ∈ expired h)); [discriminate | reflexivity]. }
  assert (exists init,
            merge_sort name_le (json_names (cleaned h)) = init ++ [new])
    as (init & Hfiles).
  { apply greatest_is_last.
    - apply sorted_names_sorted.
    - apply sorted_names_NoDup.
    - now rewrite sorted_names_perm.
    - intros y Hy. rewrite sorted_names_perm in Hy.
      now apply Hmax, json_names_cleaned_sub. }
  assert (forall loaded,
            api_history (cleaned h) = Ok200 loaded ->
            exists rest,
              loaded = {| snap_timestamp := now_iso w (S (tick s));
                          snap_servers := results |} :: rest) as Hfirst.
  { intros loaded Hall%api_history_Ok.
    unfold newest_files in Hall. rewrite Hfiles, reverse_snoc in Hall.
    cbn [take] in Hall.
    apply Forall2_cons_inv_l in Hall as (snap & rest & Hsnap & _ & ->).
    exists rest. f_equal. congruence. }
  split; [exact Hfirst|].
  intros Hwhole.
  destruct (api_history_loads (cleaned h)) as (loaded & Hok & _).
  { apply Forall_forall. intros name [Hjson [x Hx]]%newest_files_in.
    rewrite cleaned_lookup in Hx |- *.
    destruct (decide (name ∈ expired h)); [discriminate|].
    destruct (decide (name = new)) as [-> | Hne]; [eauto|].
    unfold h, recorded in Hx |- *.
    rewrite lookup_insert_ne in Hx |- * by (intros Heq; now apply Hne).
    apply Hwhole, elem_of_json_names. eauto. }
  destruct (Hfirst loaded Hok) as (rest & ->). eauto.
Qed.

Lemma api_history_serves_latest_run_witness :
  save_results locked_world out_dir [locked_result srv_web] (full_state 3)
  = (Ret tt,
     snd (save_results locked_world out_dir [locked_result srv_web]
            (full_state 3)))
  /\ exists rest,
       api_history
         (history (snd (save_results locked_world out_dir
                          [locked_result srv_web] (full_state 3))))
       = Ok200 ({| snap_timestamp := now_iso locked_world
                                       (S (tick (full_state 3)));
                   snap_servers := [locked_result srv_web] |} :: rest).
Proof.
  assert (save_results locked_world out_dir [locked_result srv_web]
            (full_state 3)
          = (Ret tt,
             snd (save_results locked_world out_dir [locked_result srv_web]
                    (full_state 3)))) as H by (vm_compute; reflexivity).
  split; [exact H|].
  assert (json_names (history (full_state 3))
          ≡ₚ [old_name 0; old_name 1; old_name 2]) as Hnames
      by (vm_compute; symmetry; apply Permutation_cons_append).
  apply (api_history_serves_latest_run locked_world out_dir _ _ _ H).
  - intros name Hin.
    assert (Forall (fun n => name_le n (history_name locked_world
                                            (tick (full_state 3))))
              (json_names (history (full_state 3)))) as Hall.
    { vm_compute. repeat constructor. }
    rewrite Forall_forall in Hall. now apply Hall.
  - intros name Hin. rewrite Hnames in Hin.
    repeat (apply elem_of_cons in Hin as [-> | Hin];
            [eexists; vm_compute; reflexivity|]).
    now apply not_elem_of_nil in Hin.
Defined.

(** ** Fields the parsers read *)

Lemma load_average_of_fields (a : string) :
  a <> EmptyString ->
  load_average_of (Some a)
  = (l1 ← take 3 (PyStr.split a) !! 0%nat ≫= PyFloat.of_string;
     l5 ← take 3 (PyStr.split a) !! 1%nat ≫= PyFloat.of_string;
     l15 ← take 3 (PyStr.split a) !! 2%nat ≫= PyFloat.of_string;
     Some {| load_1min := l1; load_5min := l5; load_15min := l15 |}).
Proof.
  intros Ha. unfold load_average_of. destruct a as [|c a]; [contradiction|].
  simpl nonempty. cbv beta iota zeta.
  now rewrite !lookup_take_lt by lia.
Qed.

(** X26: [get_load_average] reads the first three fields of its output and
    nothing else: two outputs with the same first three fields, whatever
    follows them, give the same result. *)
Theorem load_average_reads_three_fields (a b : string) :
  a <> EmptyString -> b <> EmptyString ->
  take 3 (PyStr.split a) = take 3 (PyStr.split b) ->
  load_average_of (Some a) = load_average_of (Some b).
Proof.
  intros Ha Hb Hsame.
  now rewrite (load_average_of_fields a Ha), (load_average_of_fields b Hb),
    Hsame.
Qed.

Lemma load_average_reads_three_fields_witness :
  load_average_of (Some "0.52 0.48 0.45 1/234 5678")
  = load_average_of (Some "0.52   0.48 0.45")
  /\ load_average_of (Some "0.52   0.48 0.45")
     = Some {| load_1min := PrimFloat.div 52 100;
               load_5min := PrimFloat.div 48 100;
               load_15min := PrimFloat.div 45 100 |}.
Proof.
  split; [|vm_compute; reflexivity].
  apply load_average_reads_three_fields;
    [discriminate | discriminate | vm_compute; reflexivity].
Defined.

Lemma memory_usage_of_fields (a : string) :
  a <> EmptyString ->
  memory_usage_of (Some a)
  = (total ← take 4 (PyStr.split a) !! 1%nat ≫= PyStr.int;
     used ← take 4 (PyStr.split a) !! 2%nat ≫= PyStr.int;
     free ← take 4 (PyStr.split a) !! 3%nat ≫= PyStr.int;
     ratio ← PyFloat.truediv used total;
     Some {| mem_total := total; mem_used := used; mem_free := free;
             mem_percent :=
               PyFloat.round1 (PrimFloat.mul ratio (PyFloat.of_int 100)) |}).
Proof.
  intros Ha. unfold memory_usage_of. destruct a as [|c a]; [contradiction|].
  simpl nonempty. cbv beta iota zeta.
  now rewrite !lookup_take_lt by lia.
Qed.

(** X27: [get_memory_usage] reads the second, third and fourth field of
    its output only: the label in front and the columns after the free
    memory (shared, buffers, available) do not change the result. *)
Theorem memory_reads_three_fields (a b : string) :
  a <> EmptyString -> b <> EmptyString ->
  drop 1 (take 4 (PyStr.split a)) = drop 1 (take 4 (PyStr.split b)) ->
  memory_usage_of (Some a) = memory_usage_of (Some b).
Proof.
  intros Ha Hb Hsame.
  rewrite (memory_usage_of_fields a Ha), (memory_usage_of_fields b Hb).
  assert (forall i (l : list string), l !! S i = drop 1 l !! i) as Hshift
      by (intros i l; now rewrite lookup_drop).
  now rewrite !(Hshift _ (take 4 _)), Hsame.
Qed.

Lemma memory_reads_three_fields_witness :
  memory_usage_of (Some "Mem:  7821  3100  2345  120  2376  4300")
  = memory_usage_of (Some "Speicher: 7821 3100 2345")
  /\ memory_usage_of (Some "Speicher: 7821 3100 2345")
     = Some {| mem_total := 7821; mem_used := 3100; mem_free := 2345;
               mem_percent := PrimFloat.div 396 10 |}.
Proof.
  split; [|vm_compute; reflexivity].
  apply memory_reads_three_fields;
    [discriminate | discriminate | vm_compute; reflexivity].
Defined.
